(** * The perfume avatar front end: session controller, input bridge, recorder

    A shallow embedding of the two browser scripts of the repository,
    [src/frontend/perfume.js] (module [Frontend]) and the second copy of
    the script kept under [src/unnamed/part_000] (module [Part000]).

    The scripts are sequences of [async] event handlers over a handful of
    module-level variables and DOM elements.  They are embedded in a
    resumption monad: a handler runs until it needs something from the
    browser or the backend, at which point it stops on a [call]; whoever
    drives it supplies the reply.  Calls that the script [await]s are
    points where other handlers may run in between. *)

From Stdlib Require Import List String Ascii NArith ZArith Bool Lia.
From ExtLib Require Import Structures.Monad.
Import ListNotations.
Import MonadNotation.
Local Open Scope string_scope.
Local Open Scope list_scope.
Local Open Scope monad_scope.
Local Open Scope N_scope.

Set Implicit Arguments.
Set Warnings "-register-all".

(* ===================================================================== *)
(** ** JavaScript values *)
(* ===================================================================== *)

(** A JavaScript string is a sequence of UTF-16 code units. *)
Definition jstring := list N.

(** A literal of the script whose characters are all ASCII. *)
Definition lit (s : string) : jstring :=
  map N_of_ascii (list_ascii_of_string s).

(** The code units that [String.prototype.trim] strips: ECMAScript
    WhiteSpace and LineTerminator (all of them in the basic plane). *)
Definition isWhiteSpace (c : N) : bool :=
  ((9 <=? c) && (c <=? 13))
  || (c =? 32) || (c =? 160) || (c =? 5760)
  || ((8192 <=? c) && (c <=? 8202))
  || (c =? 8232) || (c =? 8233) || (c =? 8239) || (c =? 8287)
  || (c =? 12288) || (c =? 65279).

Fixpoint trimStart (s : jstring) : jstring :=
  match s with
  | [] => []
  | c :: s' => if isWhiteSpace c then trimStart s' else s
  end.

Definition trimEnd (s : jstring) : jstring := rev (trimStart (rev s)).

Definition trim (s : jstring) : jstring := trimEnd (trimStart s).

Definition jstring_eqb (a b : jstring) : bool :=
  if list_eq_dec N.eq_dec a b then true else false.

Fixpoint startsWith (p s : jstring) : bool :=
  match p, s with
  | [], _ => true
  | a :: p', b :: s' => (a =? b) && startsWith p' s'
  | _ :: _, [] => false
  end.

(** [s.includes(p)] *)
Fixpoint includes (s p : jstring) : bool :=
  startsWith p s ||
  match s with
  | [] => false
  | _ :: s' => includes s' p
  end.

(** What [JSON.parse] can produce, plus [undefined].  A number is kept as
    its literal denotes it: [VNum n] for the integer [n], [VDec m e] for
    [m * 10^e], the literals with a fraction or an exponent.  The value
    that the scripts then hold is the double nearest to it, [Number_of]
    below; the scripts test numbers for truthiness and print them. *)
Inductive jsval : Type :=
| VUndefined
| VNull
| VBool (b : bool)
| VNum (n : Z)
| VDec (m e : Z)
| VStr (s : jstring)
| VObj (fields : list (string * jsval))
| VArr (items : list jsval).

(** A Number that is not negative: zero, [q * 2^b] or [Infinity].  In
    [DFinite q b] the mantissa [q] is below [2^53] and the exponent [b]
    is between -1074 and 971; [q] is at least [2^52] unless [b] is
    -1074. *)
Inductive double : Type :=
| DZero
| DFinite (q : N) (b : Z)
| DInfinity.

Definition double_eqb (x y : double) : bool :=
  match x, y with
  | DZero, DZero | DInfinity, DInfinity => true
  | DFinite q b, DFinite q' b' => (q =? q') && (b =? b')%Z
  | _, _ => false
  end.

(** A fraction [num / den] times [r ^ x], as a fraction. *)
Definition times_pow (r : N) (x : Z) (f : N * N) : N * N :=
  match x with
  | Zneg p => (fst f, snd f * r ^ Npos p)
  | _ => (fst f * r ^ Z.to_N x, snd f)
  end.

(** The integer nearest to a fraction, the even one of two. *)
Definition round_even (f : N * N) : N :=
  let q := fst f / snd f in
  let r := fst f mod snd f in
  if (snd f <? 2 * r) || ((2 * r =? snd f) && N.odd q) then q + 1 else q.

(** The Number value of a fraction: the nearest double, with ties to the
    even mantissa. *)
Definition to_double (f : N * N) : double :=
  if fst f =? 0 then DZero
  else
    let l := (Z.of_N (N.size (fst f)) - Z.of_N (N.size (snd f)))%Z in
    let g := times_pow 2 (- l) f in
    let log2 := if snd g <=? fst g then l else (l - 1)%Z in
    let b := Z.max (log2 - 52) (-1074) in
    let q := round_even (times_pow 2 (- b) f) in
    if q =? 0 then DZero
    else if q =? 2 ^ 53 then
      if (971 <? b + 1)%Z then DInfinity else DFinite (2 ^ 52) (b + 1)
    else
      if (971 <? b)%Z then DInfinity else DFinite q b.

(** The Number, sign apart, that the literal [m * 10^e] denotes. *)
Definition Number_of (m e : Z) : double :=
  to_double (times_pow 10 e (Z.abs_N m, 1)).

Definition truthy (v : jsval) : bool :=
  match v with
  | VUndefined | VNull => false
  | VBool b => b
  | VNum n => negb (n =? 0)%Z
  | VDec m e => negb (double_eqb (Number_of m e) DZero)
  | VStr s => match s with [] => false | _ => true end
  | VObj _ | VArr _ => true
  end.

(** [a || b] and [a && b] *)
Definition js_or (a b : jsval) : jsval := if truthy a then a else b.
Definition js_and (a b : jsval) : jsval := if truthy a then b else a.

Fixpoint lookup_field (k : string) (fs : list (string * jsval)) : jsval :=
  match fs with
  | [] => VUndefined
  | (k', v) :: fs' => if String.eqb k k' then v else lookup_field k fs'
  end.

(** Thrown values: an [Error] with a name and a message. *)
Record exn := Exn { exn_name : jstring; exn_message : jstring }.

Definition Error (msg : string) : exn := Exn (lit "Error") (lit msg).
Definition TypeError (msg : string) : exn := Exn (lit "TypeError") (lit msg).

(** [String(e)], that is [Error.prototype.toString]. *)
Definition String_of_exn (e : exn) : jstring :=
  match exn_name e, exn_message e with
  | [], m => m
  | n, [] => n
  | n, m => n ++ lit ": " ++ m
  end.

(** [v.k] for one of the named fields the scripts read from a parsed body:
    reading a property of [null] or [undefined] throws, a primitive or an
    array has no such field. *)
Definition get_prop (v : jsval) (k : string) : exn + jsval :=
  match v with
  | VUndefined | VNull => inl (TypeError "Cannot read properties of null")
  | VObj fs => inr (lookup_field k fs)
  | _ => inr VUndefined
  end.

(** [v.length] *)
Definition js_length (v : jsval) : exn + jsval :=
  match v with
  | VStr s => inr (VNum (Z.of_nat (List.length s)))
  | VArr l => inr (VNum (Z.of_nat (List.length l)))
  | _ => get_prop v "length"
  end.

(** Decimal digits of a natural number, most significant first. *)
Fixpoint digits_fuel (fuel : nat) (n : N) (acc : jstring) : jstring :=
  match fuel with
  | O => acc
  | S fuel' =>
      let acc' := (48 + n mod 10) :: acc in
      if n / 10 =? 0 then acc' else digits_fuel fuel' (n / 10) acc'
  end.

Definition digits (n : N) : jstring := digits_fuel (S (N.to_nat (N.log2 n))) n [].

(** The number of decimal digits before the point of a positive fraction:
    the [n] with [10^(n-1) <= f < 10^n]. *)
Definition magnitude (f : N * N) : Z :=
  let t := (Z.of_nat (List.length (digits (fst f)))
            - Z.of_nat (List.length (digits (snd f))))%Z in
  let g := times_pow 10 (- t) f in
  if snd g <=? fst g then (t + 1)%Z else t.

(** The decimal [s * 10^x] with the fewest digits [s] whose Number is the
    double [d] of value [f]; of two with as many digits, the one closer
    to [f].  Seventeen digits are always enough. *)
Fixpoint shortest_from (fuel : nat) (k : Z) (n : Z) (d : double) (f : N * N)
  : N * Z :=
  match fuel with
  | O => (fst f / snd f, 0%Z)
  | S fuel' =>
      let x := (n - k)%Z in
      let g := times_pow 10 (- x) f in
      let lo := fst g / snd g in
      let hi := lo + 1 in
      let r := fst g mod snd g in
      match double_eqb (to_double (times_pow 10 x (lo, 1))) d,
            double_eqb (to_double (times_pow 10 x (hi, 1))) d with
      | true, true =>
          if 2 * r <? snd g then (lo, x)
          else if snd g <? 2 * r then (hi, x)
          else if N.even lo then (lo, x) else (hi, x)
      | true, false => (lo, x)
      | false, true => (hi, x)
      | false, false => shortest_from fuel' (k + 1)%Z n d f
      end
  end.

(** The value of a double, as a fraction. *)
Definition fraction_of (d : double) : N * N :=
  match d with
  | DFinite q b => times_pow 2 b (q, 1)
  | _ => (0, 1)
  end.

Definition shortest (d : double) : N * Z :=
  let f := fraction_of d in
  shortest_from 17 1 (magnitude f) d f.

Fixpoint drop_zeros (s : jstring) : jstring :=
  match s with
  | c :: s' => if c =? 48 then drop_zeros s' else s
  | [] => []
  end.

Definition zeros (n : Z) : jstring := repeat 48 (Z.to_nat n).

(** [Number::toString] of a Number that is not negative: the digits of
    the shortest decimal that denotes the same double, with the point
    where it belongs if the number is at least [10^-6] and below
    [10^21], and with an exponent otherwise. *)
Definition Number_toString (d : double) : jstring :=
  match d with
  | DZero => lit "0"
  | DInfinity => lit "Infinity"
  | DFinite _ _ =>
      let (s, x) := shortest d in
      let all := digits s in
      let ds := rev (drop_zeros (rev all)) in
      let k := Z.of_nat (List.length ds) in
      let n := (Z.of_nat (List.length all) + x)%Z in
      if ((k <=? n) && (n <=? 21))%Z then ds ++ zeros (n - k)
      else if ((0 <? n) && (n <=? 21))%Z then
        firstn (Z.to_nat n) ds ++ lit "." ++ skipn (Z.to_nat n) ds
      else if ((-6 <? n) && (n <=? 0))%Z then lit "0." ++ zeros (- n) ++ ds
      else
        let e := (if (0 <? n - 1)%Z then lit "e+" else lit "e-")
                 ++ digits (Z.abs_N (n - 1)) in
        match ds with
        | [] => ds
        | [c] => c :: e
        | c :: rest => c :: lit "." ++ rest ++ e
        end
  end.

(** [String(x)] for the number that the literal [m * 10^e] denotes. *)
Definition decimal_to_jstring (m e : Z) : jstring :=
  match Number_of m e with
  | DZero => lit "0"
  | d => (if (m <? 0)%Z then lit "-" else []) ++ Number_toString d
  end.

Fixpoint join (sep : jstring) (l : list jstring) : jstring :=
  match l with
  | [] => []
  | [x] => x
  | x :: l' => x ++ sep ++ join sep l'
  end.

(** [String(v)], the conversion applied when a value is stored in a text
    field or in a form. *)
Fixpoint ToString (v : jsval) : jstring :=
  match v with
  | VUndefined => lit "undefined"
  | VNull => lit "null"
  | VBool true => lit "true"
  | VBool false => lit "false"
  | VNum n => decimal_to_jstring n 0
  | VDec m e => decimal_to_jstring m e
  | VStr s => s
  | VObj _ => lit "[object Object]"
  | VArr l =>
      join (lit ",")
        (map (fun x => match x with
                       | VUndefined | VNull => []
                       | _ => ToString x
                       end) l)
  end.

(** The conversion to a [USVString] that [FormData.append] applies to a
    text it is given: a surrogate code unit that is not part of a pair
    becomes U+FFFD. *)
Definition is_high_surrogate (c : N) : bool := (55296 <=? c) && (c <=? 56319).
Definition is_low_surrogate (c : N) : bool := (56320 <=? c) && (c <=? 57343).

Fixpoint USVString (s : jstring) : jstring :=
  match s with
  | [] => []
  | c :: s' =>
      if is_high_surrogate c then
        match s' with
        | d :: s'' =>
            if is_low_surrogate d then c :: d :: USVString s''
            else 65533 :: USVString s'
        | [] => [65533]
        end
      else if is_low_surrogate c then 65533 :: USVString s'
      else c :: USVString s'
  end.

(** The value that a [textarea] gives back for a text that was stored in
    it: every line break, written as CR LF, CR or LF, reads as one LF. *)
Fixpoint newlines (s : jstring) : jstring :=
  match s with
  | [] => []
  | c :: s' =>
      if c =? 13 then
        10 :: match s' with
              | d :: s'' => if d =? 10 then newlines s'' else newlines s'
              | [] => []
              end
      else c :: newlines s'
  end.

(** The [type] of a [Blob] made with [new Blob(parts, { type: t })]: [t]
    in lower case, or the empty string when [t] has a character outside
    U+0020 to U+007E. *)
Definition ascii_lower (c : N) : N :=
  if (65 <=? c) && (c <=? 90) then c + 32 else c.

Definition Blob_type (t : jstring) : jstring :=
  if forallb (fun c => (32 <=? c) && (c <=? 126)) t then map ascii_lower t else [].

(* ===================================================================== *)
(** ** The browser and the backend, as seen from the scripts *)
(* ===================================================================== *)

(** Peer connections and media streams are browser objects; the scripts
    only hold references to them. *)
Definition conn := nat.
Definition stream := nat.

(** An entry of a [FormData]: a text as the form holds it, or a file,
    [new File([blob], name, { type })], with the name and the type that
    the script gives it and the size of the blob. *)
Inductive formval : Type :=
| FText (s : jstring)
| FFile (name type : jstring) (size : N).

Inductive body : Type :=
| NoBody
| JsonBody (fields : list (string * jsval))
| FormBody (fields : list (string * formval)).

(** A request to the backend.  Every URL of the scripts is
    [window.API_BASE] followed by a fixed path; the path is kept. *)
Record request := Request {
  rq_method : string;
  rq_path : string;
  rq_body : body
}.

(** What comes back from [fetch]: a rejection, or a response with its
    status and its body as [r.json()] parses it ([None] when the body is
    not JSON and [r.json()] rejects). *)
Inductive fetch_result : Type :=
| NetworkError (e : exn)
| Response (status : N) (json : option jsval).

Inductive IceGatheringState := ice_new | ice_gathering | ice_complete.

(** The gathering state of a connection when the wait starts, and the
    [icegatheringstatechange] events that follow, each with the delay in
    milliseconds since the previous one and the state that the listener
    reads from [pc.iceGatheringState] when the event is delivered. *)
Record ice_timeline := IceTimeline {
  ice_initial : IceGatheringState;
  ice_changes : list (N * IceGatheringState)
}.

(** The points where a handler needs an answer from outside. *)
Inductive call : Type :=
| CFetch (rq : request)
| CNewPeerConnection (cfg : jsval)
| CAddTransceiver (c : conn) (kind : string)
| CSetRemoteDescription (c : conn) (sdp : jsval)
| CCreateAnswer (c : conn)
| CSetLocalDescription (c : conn) (answer : jsval)
| CIceGathering (c : conn)
| CLocalDescription (c : conn).

Definition reply (c : call) : Type :=
  match c with
  | CFetch _ => fetch_result
  | CNewPeerConnection _ => option exn
  | CAddTransceiver _ _ => option exn
  | CSetRemoteDescription _ _ => option exn
  | CCreateAnswer _ => (exn + jsval)%type
  | CSetLocalDescription _ _ => option exn
  | CIceGathering _ => ice_timeline
  | CLocalDescription _ => jsval
  end.

(** The calls that are [await]ed: the handler is suspended there and other
    handlers may run before it resumes.  The others answer at once. *)
Definition is_await (c : call) : bool :=
  match c with
  | CNewPeerConnection _ | CAddTransceiver _ _ | CLocalDescription _ => false
  | _ => true
  end.

(** What the scripts do to the outside, in order.  [EvWaited ms] records
    that a handler sat [ms] milliseconds in a wait of its own making. *)
Inductive event : Type :=
| EvFetch (rq : request)
| EvPcCreated (c : conn) (cfg : jsval)
| EvPcClosed (c : conn)
| EvTracksStopped (s : stream)
| EvSourceDisconnected
| EvAnimationCancelled
| EvWaited (ms : N).

(* ===================================================================== *)
(** ** Script state *)
(* ===================================================================== *)

(** [let SESSION_ID = null, SESSION_TOKEN = null, OFFER_SDP = null, pc = null;
     let RTC_CONFIG = ...] *)
Record Vars := MkVars {
  SESSION_ID : jsval;
  SESSION_TOKEN : jsval;
  OFFER_SDP : jsval;
  RTC_CONFIG : jsval;
  pc : option conn
}.

Record Blob := MkBlob { blob_size : N; blob_type : jstring }.

Record MediaRecorder := MkRecorder { mimeType : jstring }.

(** [let mediaRecorder = null, chunks = [], ..., sourceNode = null, raf = 0;] *)
Record RecVars := MkRecVars {
  mediaRecorder : option MediaRecorder;
  chunks : list Blob;
  sourceNode : bool
}.

Record logline := LogLine {
  log_area : string;
  log_message : string;
  log_extra : list (string * jsval)
}.

(** The DOM elements the scripts write to.  [uiDebug] is kept as its
    lines, without the clock time each starts with.  [editBox] is what
    [editBox.value] reads; the edit field is the page's multi-line text
    control. *)
Record Page := MkPage {
  viewerStatus : jstring;
  uiDebug : list logline;
  editBox : jstring;
  aname : jstring;
  audioGate : jstring;
  avatarPlaceholder : jstring;
  micText : jstring;
  micRecording : bool
}.

(** [HEYGEN_FIXED] is [window.HEYGEN_FIXED], which the page may set before
    the script is loaded; [conns] counts the peer connections made. *)
Record World := MkWorld {
  HEYGEN_FIXED : jsval;
  vars : Vars;
  recv : RecVars;
  page : Page;
  trace : list event;
  conns : nat
}.

(** Field updates. *)
Definition with_vars (f : Vars -> Vars) (w : World) : World :=
  MkWorld (HEYGEN_FIXED w) (f (vars w)) (recv w) (page w) (trace w) (conns w).
Definition with_recv (f : RecVars -> RecVars) (w : World) : World :=
  MkWorld (HEYGEN_FIXED w) (vars w) (f (recv w)) (page w) (trace w) (conns w).
Definition with_page (f : Page -> Page) (w : World) : World :=
  MkWorld (HEYGEN_FIXED w) (vars w) (recv w) (f (page w)) (trace w) (conns w).
Definition add_event (ev : event) (w : World) : World :=
  MkWorld (HEYGEN_FIXED w) (vars w) (recv w) (page w) (trace w ++ [ev]) (conns w).
Definition bump_conns (w : World) : World :=
  MkWorld (HEYGEN_FIXED w) (vars w) (recv w) (page w) (trace w) (S (conns w)).

Definition set_session (id tok offer cfg : jsval) (v : Vars) : Vars :=
  MkVars id tok offer cfg (pc v).
Definition set_pc (c : option conn) (v : Vars) : Vars :=
  MkVars (SESSION_ID v) (SESSION_TOKEN v) (OFFER_SDP v) (RTC_CONFIG v) c.
Definition set_mediaRecorder (m : option MediaRecorder) (r : RecVars) : RecVars :=
  MkRecVars m (chunks r) (sourceNode r).

Definition set_viewerStatus (s : jstring) (p : Page) : Page :=
  MkPage s (uiDebug p) (editBox p) (aname p) (audioGate p)
         (avatarPlaceholder p) (micText p) (micRecording p).
Definition add_uiDebug (l : logline) (p : Page) : Page :=
  MkPage (viewerStatus p) (uiDebug p ++ [l]) (editBox p) (aname p) (audioGate p)
         (avatarPlaceholder p) (micText p) (micRecording p).
(** [editBox.value = s]: the control gives the text back with its line
    breaks as single line feeds. *)
Definition set_editBox (s : jstring) (p : Page) : Page :=
  MkPage (viewerStatus p) (uiDebug p) (newlines s) (aname p) (audioGate p)
         (avatarPlaceholder p) (micText p) (micRecording p).
Definition set_aname (s : jstring) (p : Page) : Page :=
  MkPage (viewerStatus p) (uiDebug p) (editBox p) s (audioGate p)
         (avatarPlaceholder p) (micText p) (micRecording p).
Definition set_audioGate (s : jstring) (p : Page) : Page :=
  MkPage (viewerStatus p) (uiDebug p) (editBox p) (aname p) s
         (avatarPlaceholder p) (micText p) (micRecording p).
Definition set_avatarPlaceholder (s : jstring) (p : Page) : Page :=
  MkPage (viewerStatus p) (uiDebug p) (editBox p) (aname p) (audioGate p)
         s (micText p) (micRecording p).
Definition set_mic (label : jstring) (recording : bool) (p : Page) : Page :=
  MkPage (viewerStatus p) (uiDebug p) (editBox p) (aname p) (audioGate p)
         (avatarPlaceholder p) label recording.

(* ===================================================================== *)
(** ** Handlers as resumptions *)
(* ===================================================================== *)

(** A handler that has run as far as it can: it returned, it threw, or it
    stands on a call with the rest of its body waiting for the reply (and
    for the state as it is when the reply arrives). *)
Inductive Susp (A : Type) : Type :=
| Finished (a : A) (w : World)
| Thrown (e : exn) (w : World)
| Suspended (c : call) (w : World) (k : reply c -> World -> Susp A).

Arguments Thrown {A} e w.

Definition Async (A : Type) : Type := World -> Susp A.

Fixpoint sbind {A B : Type} (s : Susp A) (f : A -> Async B) : Susp B :=
  match s with
  | Finished a w => f a w
  | Thrown e w => Thrown e w
  | Suspended c w k => Suspended c w (fun r w' => sbind (k r w') f)
  end.

#[export] Instance Monad_Async : Monad Async := {
  ret := fun _ a w => Finished a w;
  bind := fun _ _ m f w => sbind (m w) f
}.

Definition throw {A : Type} (e : exn) : Async A := fun w => Thrown e w.

Definition gets {A : Type} (f : World -> A) : Async A := fun w => Finished (f w) w.

Definition modify (f : World -> World) : Async unit := fun w => Finished tt (f w).

Definition perform (c : call) : Async (reply c) :=
  fun w => Suspended c w (fun r w' => Finished r w').

Definition emit (ev : event) : Async unit := modify (add_event ev).

Definition lift {A : Type} (x : exn + A) : Async A :=
  match x with
  | inl e => throw e
  | inr a => ret a
  end.

(** [try { m } catch (e) { h e }] *)
Fixpoint scatch {A : Type} (s : Susp A) (h : exn -> Async A) : Susp A :=
  match s with
  | Finished a w => Finished a w
  | Thrown e w => h e w
  | Suspended c w k => Suspended c w (fun r w' => scatch (k r w') h)
  end.

Definition try_catch {A : Type} (m : Async A) (h : exn -> Async A) : Async A :=
  fun w => scatch (m w) h.

(** [try { m } finally { fin }]: [fin] runs on both exits, and an
    exception of [m] goes on after it. *)
Fixpoint sfinally {A : Type} (s : Susp A) (fin : Async unit) : Susp A :=
  match s with
  | Finished a w => sbind (fin w) (fun _ => ret a)
  | Thrown e w => sbind (fin w) (fun _ => throw e)
  | Suspended c w k => Suspended c w (fun r w' => sfinally (k r w') fin)
  end.

Definition try_finally {A : Type} (m : Async A) (fin : Async unit) : Async A :=
  fun w => sfinally (m w) fin.

(** The environment of a run: the reply to the [n]-th call. *)
Definition oracle := nat -> forall c : call, reply c.

(** A handler run on its own from call number [n] on: every call is
    answered by the oracle and the handler resumes at once.  The result
    is how the handler ended, the state it left and the number of the
    next call. *)
Fixpoint run {A : Type} (o : oracle) (n : nat) (s : Susp A)
    : (exn + A) * World * nat :=
  match s with
  | Finished a w => (inr a, w, n)
  | Thrown e w => (inl e, w, n)
  | Suspended c w k => run o (S n) (k (o n c) w)
  end.

Definition exec {A : Type} (o : oracle) (m : Async A) (w : World) : World :=
  snd (fst (run o 0 (m w))).

Definition outcome {A : Type} (o : oracle) (m : Async A) (w : World) : exn + A :=
  fst (fst (run o 0 (m w))).

(** The environment answers every request to [path] with a reply in [P]. *)
Definition answers (o : oracle) (path : string) (P : fetch_result -> Prop) : Prop :=
  forall n rq, rq_path rq = path -> P (o n (CFetch rq)).

(** A call as the handler made it, with the reply it got. *)
Definition answered : Type := {c : call & reply c}.

(** The calls that a run makes, in order, with their replies. *)
Fixpoint asked {A : Type} (o : oracle) (n : nat) (s : Susp A) : list answered :=
  match s with
  | Suspended c w k => existT reply c (o n c) :: asked o (S n) (k (o n c) w)
  | _ => []
  end.

(* ===================================================================== *)
(** ** Helpers that both scripts define in the same words *)
(* ===================================================================== *)

(** [function setStatus(msg){ $("viewerStatus").textContent = msg; }] *)
Definition setStatus (msg : jstring) : Async unit :=
  modify (with_page (set_viewerStatus msg)).

(** [uiLog]: one more line in the debug box. *)
Definition uiLog (area message : string) (extra : list (string * jsval)) : Async unit :=
  modify (with_page (add_uiDebug (LogLine area message extra))).

(** [await fetch(url, init)]: the request goes out, the handler waits, and
    a rejection is thrown where the handler resumes. *)
Definition fetch (rq : request) : Async (N * option jsval) :=
  emit (EvFetch rq) ;;
  r <- perform (CFetch rq) ;;
  match r with
  | NetworkError e => throw e
  | Response status json => ret (status, json)
  end.

(** [fetch(url, init).catch(()=>{})], not awaited. *)
Definition fetch_and_forget (rq : request) : Async unit :=
  emit (EvFetch rq).

(** [r.json()] *)
Definition json (r : N * option jsval) : Async jsval :=
  match snd r with
  | Some j => ret j
  | None => throw (Exn (lit "SyntaxError") (lit "Unexpected token"))
  end.

(** [r.json().catch(()=>({}))] *)
Definition json_or_empty (r : N * option jsval) : Async jsval :=
  try_catch (json r) (fun _ => ret (VObj [])).

Definition http (r : N * option jsval) : jsval := VNum (Z.of_N (fst r)).

Definition log_request (area message : string) (extra : list (string * jsval))
    (level : string) : request :=
  Request "POST" "/api/log"
    (JsonBody [("area", VStr (lit area)); ("message", VStr (lit message));
               ("extra", VObj extra); ("level", VStr (lit level))]).

(** [async function flog(area, message, extra = {}, level = "INFO")] *)
Definition flog (area message : string) (extra : list (string * jsval))
    (level : string) : Async unit :=
  uiLog area message extra ;;
  try_catch (_ <- fetch (log_request area message extra level) ;; ret tt)
            (fun _ => ret tt).

Definition INFO : string := "INFO".
Definition ERROR : string := "ERROR".

(** [v.k], thrown on [null]; and [v?.k]. *)
Definition prop (v : jsval) (k : string) : Async jsval := lift (get_prop v k).

Definition opt_prop (v : jsval) (k : string) : jsval :=
  match get_prop v k with
  | inr x => x
  | inl _ => VUndefined
  end.

(** [v.trim()] *)
Definition trim_of (v : jsval) : exn + jstring :=
  match v with
  | VStr s => inr (trim s)
  | VUndefined | VNull => inl (TypeError "Cannot read properties of null")
  | _ => inl (TypeError "trim is not a function")
  end.

(** [SESSION_ID && SESSION_TOKEN] as a condition *)
Definition session_active (w : World) : bool :=
  truthy (js_and (SESSION_ID (vars w)) (SESSION_TOKEN (vars w))).

Definition send_task_request (w : World) (text : jstring) : request :=
  Request "POST" "/api/send-task"
    (JsonBody [("session_id", SESSION_ID (vars w));
               ("session_token", SESSION_TOKEN (vars w));
               ("text", VStr text)]).

(** The global [pc], dereferenced. *)
Definition the_pc : Async conn :=
  p <- gets (fun w => pc (vars w)) ;;
  match p with
  | Some c => ret c
  | None => throw (TypeError "Cannot read properties of null")
  end.

(** [pc.close()] *)
Definition pc_close (c : conn) : Async unit := emit (EvPcClosed c).

(** [new RTCPeerConnection(cfg)] *)
Definition new_RTCPeerConnection (cfg : jsval) : Async conn :=
  r <- perform (CNewPeerConnection cfg) ;;
  match r with
  | Some e => throw e
  | None =>
      c <- gets conns ;;
      modify bump_conns ;;
      emit (EvPcCreated c cfg) ;;
      ret c
  end.

(** A browser operation that resolves to nothing or rejects. *)
Definition may_throw (r : option exn) : Async unit :=
  match r with
  | Some e => throw e
  | None => ret tt
  end.

(** The wait for ICE gathering:
[[
    await new Promise(res => {
      if (pc.iceGatheringState === "complete") return res();
      const h = () => { if (pc.iceGatheringState === "complete") { ...; res(); } };
      pc.addEventListener("icegatheringstatechange", h);
      setTimeout(res, 1500);
    });
]]
    [wait_events elapsed changes] is the time at which [res] is first
    called once the listener and the timer are in place: the event loop
    delivers the state changes in order until one announces [complete],
    unless the timer is due first. *)
Definition ICE_TIMEOUT : N := 1500.

Fixpoint wait_events (elapsed : N) (changes : list (N * IceGatheringState)) : N :=
  match changes with
  | [] => ICE_TIMEOUT
  | (dt, s) :: rest =>
      let t := elapsed + dt in
      if ICE_TIMEOUT <=? t then ICE_TIMEOUT
      else match s with
           | ice_complete => t
           | _ => wait_events t rest
           end
  end.

Definition ice_wait (tl : ice_timeline) : N :=
  match ice_initial tl with
  | ice_complete => 0
  | _ => wait_events 0 (ice_changes tl)
  end.

(** [(j && j.k ? j.k.length : 0)], the length that goes into a log line *)
Definition body_len (j : jsval) (k : string) : jsval :=
  if truthy (js_and j (opt_prop j k))
  then match js_length (opt_prop j k) with
       | inr n => n
       | inl _ => VUndefined
       end
  else VNum 0.

Definition total_size (l : list Blob) : N :=
  fold_left (fun a b => a + blob_size b) l 0.

(** Literals with characters outside ASCII, by code unit: the ellipsis,
    the dash, and the signs on the microphone button. *)
Definition ellipsis : jstring := [8230].
Definition dash : jstring := [8212].
Definition sign_microphone : jstring := [55356; 57241; 65039].
Definition sign_stop_square : jstring := [9209].
Definition sign_stop : jstring := [55357; 57041].

Definition status_ready : jstring := lit "Ready.".
Definition status_requesting : jstring := lit "requesting viewer params" ++ ellipsis.
Definition status_init_error_start : jstring := lit "init error (start-session)".
Definition status_applying_offer : jstring := lit "applying offer" ++ ellipsis.
Definition status_creating_answer : jstring := lit "creating answer" ++ ellipsis.
Definition status_starting : jstring := lit "starting on HeyGen" ++ ellipsis.
Definition status_waiting_media : jstring := lit "waiting for media" ++ ellipsis.
Definition status_init_error_webrtc : jstring := lit "init error (webrtc)".
Definition status_stopped : jstring := lit "stopped.".
Definition status_start_first : jstring := lit "Start session first.".
Definition status_openai_error : jstring := lit "OpenAI error".

(** [await new Promise(res => { ... })] in [startSession]: the browser
    tells how gathering goes on, and the handler resumes when [res] is
    first called. *)
Definition await_ice_gathering : Async unit :=
  c <- the_pc ;;
  tl <- perform (CIceGathering c) ;;
  emit (EvWaited (ice_wait tl)).

(* ===================================================================== *)
(** ** Handlers that both scripts define in the same words *)
(* ===================================================================== *)

(** [if (pc) { try { pc.close(); } catch {} }
     pc = new RTCPeerConnection(RTC_CONFIG);] *)
Definition replace_connection : Async unit :=
  old <- gets (fun w => pc (vars w)) ;;
  match old with
  | Some c => try_catch (pc_close c) (fun _ => ret tt)
  | None => ret tt
  end ;;
  cfg <- gets (fun w => RTC_CONFIG (vars w)) ;;
  c <- new_RTCPeerConnection cfg ;;
  modify (with_vars (set_pc (Some c))).

(** The body of the second [try] of [startSession], from [if (pc)] to the
    audio gate.  The [ontrack] callback it installs runs when media
    arrives and is not part of the handler. *)
Definition negotiation_steps : Async unit :=
  replace_connection ;;
  c <- the_pc ;; r <- perform (CAddTransceiver c "audio") ;; may_throw r ;;
  c <- the_pc ;; r <- perform (CAddTransceiver c "video") ;; may_throw r ;;

  setStatus status_applying_offer ;;
  c <- the_pc ;;
  offer <- gets (fun w => OFFER_SDP (vars w)) ;;
  r <- perform (CSetRemoteDescription c offer) ;; may_throw r ;;

  setStatus status_creating_answer ;;
  c <- the_pc ;;
  a <- perform (CCreateAnswer c) ;;
  answer <- lift a ;;
  c <- the_pc ;;
  r <- perform (CSetLocalDescription c answer) ;; may_throw r ;;

  await_ice_gathering ;;

  setStatus status_starting ;;
  id <- gets (fun w => SESSION_ID (vars w)) ;;
  tok <- gets (fun w => SESSION_TOKEN (vars w)) ;;
  c <- the_pc ;;
  ld <- perform (CLocalDescription c) ;;
  sdp <- prop ld "sdp" ;;
  let fd := [("session_id", FText (USVString (ToString id)));
             ("session_token", FText (USVString (ToString tok)));
             ("answer_sdp", FText (USVString (ToString sdp)))] in

  rStart <- fetch (Request "POST" "/api/heygen/start" (FormBody fd)) ;;
  jStart <- json_or_empty rStart ;;
  flog "viewer" "/api/heygen/start response"
       [("http", http rStart); ("body", jStart)] INFO ;;
  (if 400 <=? fst rStart then throw (Error "heygen.start failed") else ret tt) ;;

  setStatus status_waiting_media ;;
  modify (with_page (set_audioGate (lit "flex"))).

(** The assignments between the two [try] blocks of [startSession]. *)
Definition adopt_session (j : jsval) : Async unit :=
  name <- prop j "avatar_name" ;;
  modify (with_page (set_aname (ToString (js_or name (VStr dash))))) ;;
  id <- prop j "session_id" ;;
  tok <- prop j "session_token" ;;
  offer <- prop j "offer_sdp" ;;
  cfg <- prop j "rtc_config" ;;
  modify (with_vars (fun v => set_session id tok offer (js_or cfg (RTC_CONFIG v)) v)).

(** The body of the first [try] of [startSession]. *)
Definition request_start (body : list (string * jsval)) : Async jsval :=
  r <- fetch (Request "POST" "/api/start-session" (JsonBody body)) ;;
  j <- json_or_empty r ;;
  flog "viewer" "/api/start-session response" [("http", http r); ("body", j)] INFO ;;
  (if 400 <=? fst r
   then throw (Error "start-session failed or no offer_sdp")
   else
     offer <- prop j "offer_sdp" ;;
     if negb (truthy offer)
     then throw (Error "start-session failed or no offer_sdp")
     else ret tt) ;;
  ret j.

(** The [try] of [stopSession] with its [catch]. *)
Definition notify_stop : Async unit :=
  try_catch
    (r <- fetch (Request "POST" "/api/stop-session" NoBody) ;;
     j <- json_or_empty r ;;
     flog "viewer" "/api/stop-session response" [("http", http r); ("body", j)] INFO)
    (fun e =>
       flog "viewer" "stop-session error" [("err", VStr (String_of_exn e))] ERROR).

(** [if (pc) { try { pc.close(); } catch {} pc = null; }] *)
Definition drop_connection : Async unit :=
  p <- gets (fun w => pc (vars w)) ;;
  match p with
  | Some c =>
      try_catch (pc_close c) (fun _ => ret tt) ;;
      modify (with_vars (set_pc None))
  | None => ret tt
  end.

(** [sendBtn.addEventListener("click", async () => { ... })].  The request
    is not inside a [try]: a rejected [fetch] rejects the handler. *)
Definition sendBtn_click : Async unit :=
  v <- gets (fun w => editBox (page w)) ;;
  text <- lift (trim_of (js_or (VStr v) (VStr []))) ;;
  if negb (truthy (VStr text)) then ret tt
  else
    active <- gets session_active ;;
    if negb active then setStatus status_start_first
    else
      payload <- gets (fun w => send_task_request w text) ;;
      flog "viewer" "Send to avatar clicked"
           [("text_len", VNum (Z.of_nat (List.length text)))] INFO ;;
      r <- fetch payload ;;
      j <- json_or_empty r ;;
      flog "viewer" "/api/send-task response" [("http", http r); ("body", j)] INFO.

(** [if (reply) { editBox.value = reply; if (SESSION_ID && SESSION_TOKEN) { ... } }],
    in the chat handler and in the tile handler. *)
Definition show_and_forward (reply : jstring) : Async unit :=
  if truthy (VStr reply) then
    modify (with_page (set_editBox reply)) ;;
    active <- gets session_active ;;
    if active then
      payload <- gets (fun w => send_task_request w reply) ;;
      fetch_and_forget payload
    else ret tt
  else ret tt.

(** [const reply = (v).trim(); if (reply) { ... } setStatus("Ready.");],
    the end of the [try] in the chat handler and in the tile handler. *)
Definition reply_step (v : jsval) : Async unit :=
  reply <- lift (trim_of v) ;;
  show_and_forward reply ;;
  setStatus status_ready.

(** [const fd = new FormData(); fd.append("text", text || "Hello");] *)
Definition chat_request (text : jstring) : request :=
  Request "POST" "/api/chat"
    (FormBody [("text",
                FText (USVString (ToString (js_or (VStr text) (VStr (lit "Hello"))))))]).

(** [const fd = new FormData(); fd.append("name", nm);] *)
Definition explain_request (nm : jstring) : request :=
  Request "POST" "/api/perfume-explain" (FormBody [("name", FText (USVString nm))]).

(** [async function explainPerfume(name)] *)
Definition explainPerfume (name : jstring) : Async unit :=
  nm <- lift (trim_of (js_or (VStr name) (VStr []))) ;;
  if negb (truthy (VStr nm)) then ret tt
  else
    modify (with_page (set_editBox nm)) ;;
    flog "tiles" "tile pressed" [("name", VStr nm)] INFO ;;
    active <- gets session_active ;;
    (if active then
       payload <- gets (fun w => send_task_request w nm) ;;
       fetch_and_forget payload
     else ret tt) ;;

    try_catch
      (setStatus (lit "Getting perfume details" ++ ellipsis) ;;
       r <- fetch (explain_request nm) ;;
       j <- json_or_empty r ;;
       flog "tiles" "/api/perfume-explain response"
            [("http", http r); ("body_len", body_len j "response")] INFO ;;

       if 400 <=? fst r then setStatus (lit "OpenAI error (see debug)")
       else
         reply_step (if truthy (js_and j (opt_prop j "response"))
                     then opt_prop j "response" else VStr []))
      (fun e =>
         flog "tiles" "perfume-explain error" [("err", VStr (String_of_exn e))] ERROR ;;
         setStatus status_openai_error).

(** [a || b] on strings *)
Definition nonempty_or (a b : jstring) : jstring :=
  if truthy (VStr a) then a else b.

(* ===================================================================== *)
(** ** [src/frontend/perfume.js] *)
(* ===================================================================== *)

Module Frontend.

(** [window.HEYGEN_FIXED && window.HEYGEN_FIXED.k ? window.HEYGEN_FIXED.k : d] *)
Definition fixed_or (hf : jsval) (k : string) (d : string) : jsval :=
  if truthy (js_and hf (opt_prop hf k)) then opt_prop hf k else VStr (lit d).

Definition start_body (w : World) : list (string * jsval) :=
  [("avatar_id", fixed_or (HEYGEN_FIXED w) "avatar_id" "June_HR_public");
   ("voice_id", fixed_or (HEYGEN_FIXED w) "voice_id" "68dedac41a9f46a6a4271a95c733823c");
   ("pose_name", fixed_or (HEYGEN_FIXED w) "pose_name" "June HR")].

(** [async function startSession()].  The first [try] gives the parsed
    body, or [None] when its [catch] has run and the function returns. *)
Definition startSession : Async unit :=
  body <- gets start_body ;;
  flog "viewer" "Start button pressed" body INFO ;;
  setStatus status_requesting ;;

  params <-
    try_catch
      (j <- request_start body ;; ret (Some j))
      (fun e =>
         flog "viewer" "start-session failed" [("err", VStr (String_of_exn e))] ERROR ;;
         setStatus status_init_error_start ;;
         ret None) ;;
  match params with
  | None => ret tt
  | Some j =>
      adopt_session j ;;
      try_catch negotiation_steps
        (fun e =>
           flog "viewer" "webrtc/start error" [("err", VStr (String_of_exn e))] ERROR ;;
           setStatus status_init_error_webrtc)
  end.

(** [async function stopSession()] *)
Definition stopSession : Async unit :=
  flog "viewer" "Stop button pressed" [] INFO ;;
  notify_stop ;;
  drop_connection ;;
  setStatus status_stopped.

(** [gptBtn.addEventListener("click", async () => { ... })] *)
Definition gptBtn_click : Async unit :=
  v <- gets (fun w => editBox (page w)) ;;
  text <- lift (trim_of (js_or (VStr v) (VStr []))) ;;
  (if negb (truthy (VStr text))
   then flog "chatgpt" "Send to ChatGPT pressed (empty text)" [] INFO
   else flog "chatgpt" "Send to ChatGPT pressed"
             [("text_len", VNum (Z.of_nat (List.length text)))] INFO) ;;
  setStatus (lit "Sending to ChatGPT" ++ ellipsis) ;;

  try_catch
    (r <- fetch (chat_request text) ;;
     j <- json_or_empty r ;;
     flog "chatgpt" "/api/chat response"
          [("http", http r); ("body_len", body_len j "response")] INFO ;;

     if 400 <=? fst r then setStatus (lit "OpenAI error (see debug box)")
     else
       reply_step (if truthy (js_and j (opt_prop j "response"))
                   then opt_prop j "response" else VStr []))
    (fun e =>
       flog "chatgpt" "error" [("err", VStr (String_of_exn e))] ERROR ;;
       setStatus status_openai_error).

Definition mic_idle_label : jstring := sign_microphone ++ lit " Start Recording".

(** [(chunks[0] && chunks[0].type) ? chunks[0].type
       : (mediaRecorder && mediaRecorder.mimeType ? mediaRecorder.mimeType
          : (mimeType || "audio/webm"))] *)
Definition recording_type (w : World) (mime : jstring) : jstring :=
  let from_recorder :=
    match mediaRecorder (recv w) with
    | Some m => nonempty_or (mimeType m) (nonempty_or mime (lit "audio/webm"))
    | None => nonempty_or mime (lit "audio/webm")
    end in
  match chunks (recv w) with
  | b :: _ => nonempty_or (blob_type b) from_recorder
  | [] => from_recorder
  end.

Definition voicechat_request (type : jstring) (size : N) : request :=
  Request "POST" "/api/voicechat" (FormBody [("file", FFile (lit "mic.webm") type size)]).

Definition status_no_text : jstring := lit "Voicechat returned no text.".

(** The [try] of [onstop] with its [catch]. *)
Definition upload_recording (mime : jstring) : Async unit :=
  try_catch
    (type <- gets (fun w => recording_type w mime) ;;
     cs <- gets (fun w => chunks (recv w)) ;;
     let size := total_size cs in

     setStatus (lit "Sending to ChatGPT" ++ ellipsis) ;;
     flog "mic" "sending to /api/voicechat"
          [("type", VStr type); ("size", VNum (Z.of_N size))] INFO ;;

     r <- fetch (voicechat_request type size) ;;
     j <- json_or_empty r ;;
     flog "mic" "/api/voicechat response"
          [("http", http r); ("body_len", body_len j "text")] INFO ;;

     match (if truthy j then opt_prop j "text" else VUndefined) with
     | VStr text =>
         modify (with_page (set_editBox (trim text))) ;;
         setStatus status_ready
     | _ => setStatus status_no_text
     end)
    (fun e =>
       flog "mic" "voicechat error" [("err", VStr (String_of_exn e))] ERROR ;;
       setStatus (lit "Voicechat error")).

(** The [finally] of [onstop]. *)
Definition release_microphone (stream : stream) : Async unit :=
  try_catch (emit (EvTracksStopped stream)) (fun _ => ret tt) ;;
  modify (with_recv (set_mediaRecorder None)) ;;
  modify (with_page (set_mic mic_idle_label false)).

(** [mediaRecorder.onstop = async () => { ... }], the closure made by
    [startRecording] over the captured [stream] and the chosen [mimeType].
    The clock readings of the first log line are left out. *)
Definition onstop (stream : stream) (mime : jstring) : Async unit :=
  emit EvAnimationCancelled ;;
  connected <- gets (fun w => sourceNode (recv w)) ;;
  (if connected then try_catch (emit EvSourceDisconnected) (fun _ => ret tt)
   else ret tt) ;;

  cs <- gets (fun w => chunks (recv w)) ;;
  flog "mic" "EndRecording fired"
       [("chunks", VNum (Z.of_nat (List.length cs)));
        ("totalBytes", VNum (Z.of_N (total_size cs)))] INFO ;;

  try_finally (upload_recording mime) (release_microphone stream).

End Frontend.

(* ===================================================================== *)
(** ** The second script, [src/unnamed/part_000] *)
(* ===================================================================== *)

Module Part000.

(** [window.HEYGEN_FIXED?.k || d] *)
Definition fixed_or (hf : jsval) (k : string) (d : string) : jsval :=
  js_or (opt_prop hf k) (VStr (lit d)).

Definition start_body (w : World) : list (string * jsval) :=
  [("avatar_id", fixed_or (HEYGEN_FIXED w) "avatar_id" "June_HR_public");
   ("voice_id", fixed_or (HEYGEN_FIXED w) "voice_id" "68dedac41a9f46a6a4271a95c733823c");
   ("pose_name", fixed_or (HEYGEN_FIXED w) "pose_name" "June HR")].

(** [placeholderEl.style.display = d] *)
Definition show_placeholder (d : string) : Async unit :=
  modify (with_page (set_avatarPlaceholder (lit d))).

(** [async function startSession()] *)
Definition startSession : Async unit :=
  show_placeholder "none" ;;

  body <- gets start_body ;;
  flog "viewer" "Start button pressed" body INFO ;;
  setStatus status_requesting ;;

  params <-
    try_catch
      (j <- request_start body ;; ret (Some j))
      (fun e =>
         flog "viewer" "start-session failed" [("err", VStr (String_of_exn e))] ERROR ;;
         setStatus status_init_error_start ;;
         show_placeholder "" ;;
         ret None) ;;
  match params with
  | None => ret tt
  | Some j =>
      adopt_session j ;;
      try_catch negotiation_steps
        (fun e =>
           flog "viewer" "webrtc/start error" [("err", VStr (String_of_exn e))] ERROR ;;
           setStatus status_init_error_webrtc ;;
           show_placeholder "")
  end.

(** [async function stopSession()] *)
Definition stopSession : Async unit :=
  flog "viewer" "Stop button pressed" [] INFO ;;
  notify_stop ;;
  drop_connection ;;
  show_placeholder "" ;;
  setStatus status_stopped.

(** [gptBtn.addEventListener("click", async () => { ... })] *)
Definition gptBtn_click : Async unit :=
  v <- gets (fun w => editBox (page w)) ;;
  text <- lift (trim_of (js_or (VStr v) (VStr []))) ;;
  let fd := chat_request text in
  len <- lift (js_length (js_or (VStr text) (VStr []))) ;;
  flog "chatgpt" "Send to ChatGPT pressed" [("text_len", len)] INFO ;;

  try_catch
    (r <- fetch fd ;;
     j <- json r ;;
     len <- lift (js_length (js_or (opt_prop j "response") (VStr []))) ;;
     flog "chatgpt" "/api/chat response" [("http", http r); ("body_len", len)] INFO ;;

     resp <- prop j "response" ;;
     reply_step (js_or resp (VStr [])))
    (fun e =>
       flog "chatgpt" "error" [("err", VStr (String_of_exn e))] ERROR ;;
       setStatus status_openai_error).

Definition mic_idle_label : jstring := sign_microphone ++ lit " Rec".

(** [blob.type] of
    [new Blob(chunks, { type: mediaRecorder.mimeType || mimeType || "audio/webm" })],
    with the global [mediaRecorder] dereferenced *)
Definition recording_type (mime : jstring) : Async jstring :=
  m <- gets (fun w => mediaRecorder (recv w)) ;;
  match m with
  | Some m =>
      ret (Blob_type (nonempty_or (nonempty_or (mimeType m) mime) (lit "audio/webm")))
  | None => throw (TypeError "Cannot read properties of null")
  end.

(** [blob.type.includes("mp4") ? "m4a" : ... : "webm"] *)
Definition extension (type : jstring) : string :=
  if includes type (lit "mp4") then "m4a"
  else if includes type (lit "ogg") then "ogg"
  else if includes type (lit "mpeg") then "mp3"
  else "webm".

(** [fd.append("file", new File([blob], `rec.${ext}`, { type: blob.type }))],
    for [type] the blob's *)
Definition transcribe_request (type : jstring) (size : N) : request :=
  Request "POST" "/api/transcribe"
    (FormBody [("file", FFile (lit "rec." ++ lit (extension type)) type size)]).

(** [`Transcription error: ${e?.message || e}`] *)
Definition transcription_error (e : exn) : jstring :=
  lit "Transcription error: " ++ nonempty_or (exn_message e) (String_of_exn e).

(** The [try] of [onstop] with its [catch]. *)
Definition upload_recording (mime : jstring) : Async unit :=
  try_catch
    (type <- recording_type mime ;;
     cs <- gets (fun w => chunks (recv w)) ;;
     let size := total_size cs in
     flog "mic" "sending to /api/transcribe"
          [("type", VStr type); ("size", VNum (Z.of_N size))] INFO ;;
     r <- fetch (transcribe_request type size) ;;
     j <- json_or_empty r ;;
     flog "mic" "/api/transcribe response" [("http", http r); ("body", j)] INFO ;;
     (if truthy (js_and j (opt_prop j "text"))
      then modify (with_page (set_editBox (ToString (opt_prop j "text"))))
      else ret tt) ;;
     setStatus status_ready)
    (fun e => setStatus (transcription_error e)).

(** The [finally] of [onstop]. *)
Definition release_microphone (stream : stream) : Async unit :=
  emit (EvTracksStopped stream) ;;
  modify (with_recv (set_mediaRecorder None)) ;;
  modify (with_page (set_mic mic_idle_label false)).

(** [mediaRecorder.onstop = async () => { ... }] *)
Definition onstop (stream : stream) (mime : jstring) : Async unit :=
  emit EvAnimationCancelled ;;
  connected <- gets (fun w => sourceNode (recv w)) ;;
  (if connected then try_catch (emit EvSourceDisconnected) (fun _ => ret tt)
   else ret tt) ;;
  try_finally (upload_recording mime) (release_microphone stream).

End Part000.

(* ===================================================================== *)
(** ** Handlers running side by side *)
(* ===================================================================== *)

(** A handler parked on an awaited call. *)
Record thread := Thread {
  waiting_on : call;
  rest : reply waiting_on -> World -> Susp unit
}.

(** A piece of a handler runs without interruption until it returns,
    throws or reaches an awaited call; the calls that answer at once are
    answered on the way. *)
Inductive settles {A : Type} : Susp A -> Susp A -> Prop :=
| settles_finished a w : settles (Finished a w) (Finished a w)
| settles_thrown e w : settles (Thrown e w) (Thrown e w)
| settles_await c w k :
    is_await c = true -> settles (Suspended c w k) (Suspended c w k)
| settles_sync c w k r s' :
    is_await c = false -> settles (k r w) s' -> settles (Suspended c w k) s'.

Definition park (s : Susp unit) (ts : list thread) : World * list thread :=
  match s with
  | Finished _ w | Thrown _ w => (w, ts)
  | Suspended c w k => (w, Thread c k :: ts)
  end.

(** One turn of the event loop: a user event starts a handler, or a reply
    arrives and the handler that waited for it goes on, in the state the
    others have left. *)
Inductive loop_step (handlers : Async unit -> Prop)
    : World * list thread -> World * list thread -> Prop :=
| step_event h w ts s :
    handlers h -> settles (h w) s ->
    loop_step handlers (w, ts) (park s ts)
| step_resume w ts1 c k ts2 r s :
    settles (k r w) s ->
    loop_step handlers (w, ts1 ++ Thread c k :: ts2) (park s (ts1 ++ ts2)).

Inductive reachable (handlers : Async unit -> Prop) (w0 : World)
    : World * list thread -> Prop :=
| reach_start : reachable handlers w0 (w0, [])
| reach_step st st' :
    reachable handlers w0 st -> loop_step handlers st st' ->
    reachable handlers w0 st'.

(** The handlers of each script. *)
Inductive frontend_handler : Async unit -> Prop :=
| fh_start : frontend_handler Frontend.startSession
| fh_stop : frontend_handler Frontend.stopSession
| fh_send : frontend_handler sendBtn_click
| fh_gpt : frontend_handler Frontend.gptBtn_click
| fh_tile name : frontend_handler (explainPerfume name)
| fh_onstop st mime : frontend_handler (Frontend.onstop st mime).

Inductive part000_handler : Async unit -> Prop :=
| ph_start : part000_handler Part000.startSession
| ph_stop : part000_handler Part000.stopSession
| ph_send : part000_handler sendBtn_click
| ph_gpt : part000_handler Part000.gptBtn_click
| ph_tile name : part000_handler (explainPerfume name)
| ph_onstop st mime : part000_handler (Part000.onstop st mime).

(** The state of the page after a [flog]. *)
Definition logged (area message : string) (extra : list (string * jsval))
    (level : string) (w : World) : World :=
  add_event (EvFetch (log_request area message extra level))
    (with_page (add_uiDebug (LogLine area message extra)) w).

(** [let RTC_CONFIG = { iceServers: [{ urls: ["stun:stun.l.google.com:19302"] }] };] *)
Definition default_rtc_config : jsval :=
  VObj [("iceServers",
         VArr [VObj [("urls", VArr [VStr (lit "stun:stun.l.google.com:19302")])]])].

Definition initial_vars : Vars := MkVars VNull VNull VNull default_rtc_config None.

(** The state when a script has just been loaded. *)
Definition freshly_loaded (w : World) : Prop :=
  vars w = initial_vars /\ trace w = [] /\ mediaRecorder (recv w) = None.

(* ===================================================================== *)
(** ** Connections over a trace *)
(* ===================================================================== *)

Definition conn_step (open : list conn) (ev : event) : list conn :=
  match ev with
  | EvPcCreated c _ => c :: open
  | EvPcClosed c => filter (fun x => negb (Nat.eqb x c)) open
  | _ => open
  end.

(** The connections made and not closed by the end of a trace. *)
Definition open_conns (t : list event) : list conn := fold_left conn_step t [].

(** Whenever a connection is made, none is open. *)
Definition closes_before_creating (t : list event) : Prop :=
  forall t1 c cfg t2, t = t1 ++ EvPcCreated c cfg :: t2 -> open_conns t1 = [].

(** At every point of the trace at most one connection is open. *)
Definition at_most_one_open (t : list event) : Prop :=
  forall t1 t2, t = t1 ++ t2 -> (List.length (open_conns t1) <= 1)%nat.

Definition is_send_task (ev : event) : bool :=
  match ev with
  | EvFetch rq => String.eqb (rq_path rq) "/api/send-task"
  | _ => false
  end.

(* ===================================================================== *)
(** ** The wait for ICE gathering, as the specification words it *)
(* ===================================================================== *)

(** The time of the first state change that announces [complete], if
    there is one. *)
Fixpoint first_complete (elapsed : N) (changes : list (N * IceGatheringState))
    : option N :=
  match changes with
  | [] => None
  | (dt, ice_complete) :: _ => Some (elapsed + dt)
  | (dt, _) :: rest => first_complete (elapsed + dt) rest
  end.

(** "Whichever occurs first (completion event or timeout) proceeds." *)
Definition whichever_first (tl : ice_timeline) : N :=
  match ice_initial tl with
  | ice_complete => 0
  | _ => match first_complete 0 (ice_changes tl) with
         | Some t => N.min t ICE_TIMEOUT
         | None => ICE_TIMEOUT
         end
  end.

(* ===================================================================== *)
(** ** Scenarios *)
(* ===================================================================== *)

Definition blank_page : Page := MkPage [] [] [] [] [] [] [] false.

(** The page as it is when the script has been loaded and nothing has
    been clicked. *)
Definition initial_world : World :=
  MkWorld VUndefined initial_vars (MkRecVars None [] false) blank_page [] 0.

(** A backend that answers by path, and with [200 {}] elsewhere. *)
Fixpoint backend (routes : list (string * fetch_result)) (rq : request)
    : fetch_result :=
  match routes with
  | [] => Response 200 (Some (VObj []))
  | (path, r) :: routes' =>
      if String.eqb (rq_path rq) path then r else backend routes' rq
  end.

Definition answer_description : jsval :=
  VObj [("type", VStr (lit "answer")); ("sdp", VStr (lit "<answer>"))].

(** An environment: the backend above, and a browser in which every
    operation on a connection succeeds except that [setRemoteDescription]
    answers [remote]; gathering goes as [tl] says. *)
Definition scripted (routes : list (string * fetch_result)) (remote : option exn)
    (tl : ice_timeline) : oracle :=
  fun _ c =>
    match c return reply c with
    | CFetch rq => backend routes rq
    | CNewPeerConnection _ => None
    | CAddTransceiver _ _ => None
    | CSetRemoteDescription _ _ => remote
    | CCreateAnswer _ => inr answer_description
    | CSetLocalDescription _ _ => None
    | CIceGathering _ => tl
    | CLocalDescription _ => answer_description
    end.

(** The start-session reply of the specification's end-to-end example. *)
Definition session_s1 : jsval :=
  VObj [("session_id", VStr (lit "s1"));
        ("session_token", VStr (lit "t1"));
        ("offer_sdp", VStr (lit "<sdp>"))].

Definition slow_gathering : ice_timeline :=
  IceTimeline ice_new [(200, ice_gathering); (2000, ice_complete)].

(** Everything works. *)
Definition all_well : oracle :=
  scripted [("/api/start-session", Response 200 (Some session_s1))] None slow_gathering.

(** The backend hands out a session, then the browser refuses the offer. *)
Definition offer_refused : oracle :=
  scripted [("/api/start-session", Response 200 (Some session_s1))]
           (Some (Exn (lit "InvalidAccessError") (lit "bad offer"))) slow_gathering.

(** The backend cannot be reached when the session is stopped. *)
Definition unreachable : exn := Exn (lit "TypeError") (lit "Failed to fetch").

Definition stop_unreachable : oracle :=
  scripted [("/api/stop-session", NetworkError unreachable)] None slow_gathering.

(* ===================================================================== *)
(** ** Properties of states and runs *)
(* ===================================================================== *)

(** No session is held: both identifiers are as at load time. *)
Definition no_session (w : World) : Prop :=
  SESSION_ID (vars w) = VNull /\ SESSION_TOKEN (vars w) = VNull.

(** What the [finally] of [onstop] leaves behind. *)
Definition released (s : stream) (label : jstring) (w w' : World) : Prop :=
  (exists t, trace w' = trace w ++ t /\ In (EvTracksStopped s) t) /\
  mediaRecorder (recv w') = None /\
  micRecording (page w') = false /\
  micText (page w') = label.

(** What [stopSession] does, as the code has it: it returns whatever the
    backend said, the connection it held is closed and let go, the status
    reads "stopped.", a failed notification leaves a line in the debug
    box, and the session identifiers stay as they were. *)
Definition stop_effect (o : oracle) (stop : Async unit) (w : World) : Prop :=
  let w' := exec o stop w in
  outcome o stop w = inr tt /\
  pc (vars w') = None /\
  (forall c, pc (vars w) = Some c ->
     exists t, trace w' = trace w ++ t /\ In (EvPcClosed c) t) /\
  viewerStatus (page w') = status_stopped /\
  (forall e, answers o "/api/stop-session" (eq (NetworkError e)) ->
     exists l, uiDebug (page w') = uiDebug (page w) ++ l /\
       In (LogLine "viewer" "stop-session error" [("err", VStr (String_of_exn e))]) l) /\
  SESSION_ID (vars w') = SESSION_ID (vars w) /\
  SESSION_TOKEN (vars w') = SESSION_TOKEN (vars w).

Definition only_fetches (t : list event) : Prop :=
  forall ev, In ev t -> exists rq, ev = EvFetch rq.

(** The parts of the page other than the status line, the debug box and
    the placeholder. *)
Definition same_widgets (p p' : Page) : Prop :=
  editBox p' = editBox p /\ aname p' = aname p /\ audioGate p' = audioGate p /\
  micText p' = micText p /\ micRecording p' = micRecording p.

(** [!j.offer_sdp] is false on the body of a response. *)
Definition has_offer (json : option jsval) : bool :=
  match json with
  | Some j => match get_prop j "offer_sdp" with
              | inr v => truthy v
              | inl _ => false
              end
  | None => false
  end.

(** The start-session request did not give a session: the request was
    rejected, the status is 400 or more, or the body has no usable
    [offer_sdp]. *)
Definition start_refused (r : fetch_result) : Prop :=
  match r with
  | NetworkError _ => True
  | Response status json => 400 <= status \/ has_offer json = false
  end.

(** A step of [startSession] fails: the start-session request is
    refused; the browser throws when the connection is made, when a
    transceiver is added, or when the offer or the answer is applied; no
    answer can be created; there is no local description to read the
    answer from; or the upload is rejected or answered with a status of
    400 or more.  A log request that fails is not a failed step: [flog]
    swallows it. *)
Definition step_fails (c : call) : reply c -> bool :=
  match c return reply c -> bool with
  | CFetch rq => fun r =>
      if String.eqb (rq_path rq) "/api/start-session" then
        match r with
        | NetworkError _ => true
        | Response status json => (400 <=? status) || negb (has_offer json)
        end
      else if String.eqb (rq_path rq) "/api/heygen/start" then
        match r with
        | NetworkError _ => true
        | Response status _ => 400 <=? status
        end
      else false
  | CNewPeerConnection _ => fun r => match r with Some _ => true | None => false end
  | CAddTransceiver _ _ => fun r => match r with Some _ => true | None => false end
  | CSetRemoteDescription _ _ => fun r => match r with Some _ => true | None => false end
  | CCreateAnswer _ => fun r => match r with inl _ => true | inr _ => false end
  | CSetLocalDescription _ _ => fun r => match r with Some _ => true | None => false end
  | CIceGathering _ => fun _ => false
  | CLocalDescription _ => fun r =>
      match get_prop r "sdp" with inl _ => true | inr _ => false end
  end.

Definition failed_step (x : answered) : bool := step_fails (projT1 x) (projT2 x).

(** Some step of the run failed. *)
Definition some_step_failed (steps : list answered) : bool := existsb failed_step steps.

(** An error has been logged by this run: a line in the debug box and a
    request to the log endpoint at level ERROR. *)
Definition error_logged (message : string) (e : exn) (w w' : World) : Prop :=
  let extra := [("err", VStr (String_of_exn e))] in
  (exists l, uiDebug (page w') = uiDebug (page w) ++ l /\
             In (LogLine "viewer" message extra) l) /\
  (exists t, trace w' = trace w ++ t /\
             In (EvFetch (log_request "viewer" message extra ERROR)) t).

(** The state after the first [catch] of [startSession]: nothing of the
    session has been touched. *)
Definition untouched (w w' : World) : Prop :=
  vars w' = vars w /\ recv w' = recv w /\ conns w' = conns w /\
  (exists t, trace w' = trace w ++ t /\ only_fetches t) /\
  same_widgets (page w) (page w').

(** The state once the response with body [j] has been adopted, however
    the negotiation went on: what the response gave is held, and a
    connection made on the way is still the one in [pc], and open. *)
Definition left_half_way (j : jsval) (w w' : World) : Prop :=
  truthy (opt_prop j "offer_sdp") = true /\
  SESSION_ID (vars w') = opt_prop j "session_id" /\
  SESSION_TOKEN (vars w') = opt_prop j "session_token" /\
  OFFER_SDP (vars w') = opt_prop j "offer_sdp" /\
  exists t, trace w' = trace w ++ t /\
    forall c cfg, In (EvPcCreated c cfg) t ->
      pc (vars w') = Some c /\ In c (open_conns (trace w')).

(** The answer that a call got, if the call is the start-session
    request. *)
Definition start_answer_of (x : answered) : option fetch_result :=
  match x with
  | existT _ c r =>
      match c return reply c -> option fetch_result with
      | CFetch rq => fun r =>
          if String.eqb (rq_path rq) "/api/start-session" then Some r else None
      | _ => fun _ => None
      end r
  end.

(** The answer to the start-session request of a run. *)
Fixpoint start_answer (steps : list answered) : option fetch_result :=
  match steps with
  | [] => None
  | x :: rest =>
      match start_answer_of x with
      | Some r => Some r
      | None => start_answer rest
      end
  end.

(** The start-session request gave a session: the answer [r] is a
    response below 400 whose body [j] has a usable [offer_sdp]. *)
Definition start_accepted (r : fetch_result) (j : jsval) : Prop :=
  exists status, r = Response status (Some j) /\ status < 400 /\
                 has_offer (Some j) = true.

(** How a run of [startSession] that made the calls [steps] can end,
    given the answer [r] to its start-session request.  The answer gave
    a session and no step failed: the run went through, holding what the
    response gave.  The request was refused: the run ended in the first
    [catch], with nothing of the session touched.  The answer gave a
    session and a later step failed: the run ended in the second
    [catch], with what the response gave still held and nothing
    undone. *)
Inductive start_result (steps : list answered) (r : fetch_result) (w w' : World)
    : Prop :=
| went_through j :
    start_accepted r j ->
    some_step_failed steps = false ->
    viewerStatus (page w') = status_waiting_media ->
    audioGate (page w') = lit "flex" ->
    left_half_way j w w' ->
    start_result steps r w w'
| request_failed e :
    start_refused r ->
    some_step_failed steps = true ->
    viewerStatus (page w') = status_init_error_start ->
    error_logged "start-session failed" e w w' ->
    untouched w w' ->
    start_result steps r w w'
| negotiation_failed e j :
    start_accepted r j ->
    some_step_failed steps = true ->
    viewerStatus (page w') = status_init_error_webrtc ->
    error_logged "webrtc/start error" e w w' ->
    left_half_way j w w' ->
    start_result steps r w w'.

(** The run ended on one of the two error statuses. *)
Definition start_failed (w' : World) : Prop :=
  viewerStatus (page w') = status_init_error_start \/
  viewerStatus (page w') = status_init_error_webrtc.

(** [startSession] returns, in one of the three ways, which the answer
    to its start-session request and the other steps decide: it ends on
    an error status exactly when one of its steps has failed, and on the
    status of the first [catch] exactly when the start-session request
    was refused. *)
Definition start_outcome (o : oracle) (start : Async unit) (w : World) : Prop :=
  let w' := exec o start w in
  let steps := asked o 0 (start w) in
  outcome o start w = inr tt /\
  exists r,
    start_answer steps = Some r /\
    start_result steps r w w' /\
    (some_step_failed steps = true <-> start_failed w') /\
    (start_refused r <-> viewerStatus (page w') = status_init_error_start).

(** What the negotiation leaves, however it ends. *)
Definition negotiation_effect (res : exn + unit) (w w' : World) : Prop :=
  SESSION_ID (vars w') = SESSION_ID (vars w) /\
  SESSION_TOKEN (vars w') = SESSION_TOKEN (vars w) /\
  OFFER_SDP (vars w') = OFFER_SDP (vars w) /\
  (exists t, trace w' = trace w ++ t /\
     (forall c cfg, In (EvPcCreated c cfg) t ->
        pc (vars w') = Some c /\ In c (open_conns (trace w'))) /\
     (forall ms, In (EvWaited ms) t -> ms <= ICE_TIMEOUT)) /\
  (exists l, uiDebug (page w') = uiDebug (page w) ++ l) /\
  (res = inr tt ->
   viewerStatus (page w') = status_waiting_media /\ audioGate (page w') = lit "flex").

(** The session is idle: no identifiers, no connection held, none open. *)
Definition idle (w : World) : Prop :=
  no_session w /\ pc (vars w) = None /\ open_conns (trace w) = [].

(** The state after the assignments between the two [try] blocks, when
    the body [j] can be read. *)
Definition adopted (j : jsval) (w : World) : World :=
  with_vars (fun v => set_session (opt_prop j "session_id") (opt_prop j "session_token")
                        (opt_prop j "offer_sdp")
                        (js_or (opt_prop j "rtc_config") (RTC_CONFIG v)) v)
    (with_page (set_aname (ToString (js_or (opt_prop j "avatar_name") (VStr dash)))) w).

(** The debug box and the trace only grow. *)
Definition extends (w w' : World) : Prop :=
  (exists l, uiDebug (page w') = uiDebug (page w) ++ l) /\
  (exists t, trace w' = trace w ++ t).

(** [startSession] of either script from its first [try] on; [restore]
    is what the second script adds at the end of each [catch]. *)
Definition start_core (restore : Async unit) (body : list (string * jsval)) : Async unit :=
  params <-
    try_catch
      (j <- request_start body ;; ret (Some j))
      (fun e =>
         flog "viewer" "start-session failed" [("err", VStr (String_of_exn e))] ERROR ;;
         setStatus status_init_error_start ;;
         restore ;;
         ret None) ;;
  match params with
  | None => ret tt
  | Some j =>
      adopt_session j ;;
      try_catch negotiation_steps
        (fun e =>
           flog "viewer" "webrtc/start error" [("err", VStr (String_of_exn e))] ERROR ;;
           setStatus status_init_error_webrtc ;;
           restore)
  end.

Definition keeps_all_but_placeholder (r : World -> World) : Prop :=
  forall w, vars (r w) = vars w /\ trace (r w) = trace w /\
            uiDebug (page (r w)) = uiDebug (page w) /\
            viewerStatus (page (r w)) = viewerStatus (page w) /\
            untouched w (r w).

(** What a refused start-session request leaves: the handler returns
    with the error status, nothing of the session has been touched, and
    the placeholder reads [placeholder w]. *)
Definition refused_effect (o : oracle) (start : Async unit)
    (placeholder : World -> jstring) (w : World) : Prop :=
  let w' := exec o start w in
  outcome o start w = inr tt /\
  viewerStatus (page w') = status_init_error_start /\
  untouched w w' /\
  (no_session w -> no_session w') /\
  (idle w -> idle w') /\
  avatarPlaceholder (page w') = placeholder w.

(** The backend answers the start-session request without an offer. *)
Definition no_offer : oracle :=
  scripted [("/api/start-session",
             Response 200 (Some (VObj [("session_id", VStr (lit "s1"));
                                       ("session_token", VStr (lit "t1"))])))]
           None slow_gathering.

(** The log request of the send handler. *)
Definition send_log (text : jstring) : request :=
  log_request "viewer" "Send to avatar clicked"
    [("text_len", VNum (Z.of_nat (List.length text)))] INFO.

(** The state after a non-empty reply has been shown and, with a session,
    forwarded. *)
Definition shown (reply : jstring) (w : World) : World :=
  let w1 := with_page (set_editBox reply) w in
  with_page (set_viewerStatus status_ready)
    (if session_active w then add_event (EvFetch (send_task_request w reply)) w1
     else w1).

Definition no_send_task (t : list event) : Prop :=
  forall ev, In ev t -> is_send_task ev = false.

(** The body of a reply carries the string [s] as its [response]. *)
Definition replies (j : jsval) (s : jstring) : Prop :=
  opt_prop j "response" = VStr s.

(** The text that a press of the chat button submits: the edit field
    trimmed, or "Hello" when nothing is left of it, as the form takes
    it. *)
Definition submitted_text (w : World) : jstring :=
  let text := trim (editBox (page w)) in
  USVString match text with
            | [] => lit "Hello"
            | _ => text
            end.

(** What every press of the chat button does, whatever comes back: it
    posts one chat request, which carries the submitted text. *)
Definition chat_submits (o : oracle) (click : Async unit) (w : World) : Prop :=
  let w' := exec o click w in
  let rq := Request "POST" "/api/chat" (FormBody [("text", FText (submitted_text w))]) in
  exists t, trace w' = trace w ++ t /\
    In (EvFetch rq) t /\
    forall rq', In (EvFetch rq') t -> rq_path rq' = "/api/chat" -> rq' = rq.

(** What the chat handler does with a reply that is not blank: the reply
    is what the edit field now reads, line breaks as the control gives
    them back, and, with a session, it has gone to the session as it
    is. *)
Definition chat_shown (o : oracle) (click : Async unit) (reply : jstring)
    (w : World) : Prop :=
  let w' := exec o click w in
  editBox (page w') = newlines reply /\
  viewerStatus (page w') = status_ready /\
  exists t, trace w' = trace w ++ t /\
    (session_active w = true -> In (EvFetch (send_task_request w reply)) t) /\
    (session_active w = false -> no_send_task t).

(** The reply of a body is blank, as the handlers take it: the body has
    no [response], or one that is falsy, or a string of nothing but
    white space. *)
Definition blank_reply (j : jsval) : Prop :=
  match opt_prop j "response" with
  | VStr s => trim s = []
  | v => truthy v = false
  end.

(** Of the requests made since [w], none is a chat request. *)
Definition no_more_chat (w w' : World) : Prop :=
  exists t, trace w' = trace w ++ t /\
    forall rq, In (EvFetch rq) t -> rq_path rq <> "/api/chat".

(** What a handler leaves when the reply was not shown: the edit field
    holds [kept], the session is as it was, and of the requests made
    since [w] only those in [allowed] are send-task requests. *)
Definition reply_dropped (kept : jstring) (allowed : list event) (w w' : World) : Prop :=
  editBox (page w') = kept /\
  vars w' = vars w /\
  exists t, trace w' = trace w ++ t /\
    forall ev, In ev t -> is_send_task ev = true -> In ev allowed.

(** A page with session s1/t1 running and "Hello" typed in. *)
Definition in_session : World :=
  with_page (set_editBox (lit "Hello")) (exec all_well Frontend.startSession initial_world).

(** The chat backend and the tile backend answer [s] with the given status. *)
Definition chat_says (status : N) (s : string) : oracle :=
  scripted [("/api/chat", Response status (Some (VObj [("response", VStr (lit s))])));
            ("/api/perfume-explain",
             Response status (Some (VObj [("response", VStr (lit s))])))]
           None slow_gathering.

(** A reply of two lines, with the line break written as CR LF. *)
Definition two_lines : jstring := lit "Fresh." ++ [13; 10] ++ lit "Floral.".

(** The chat backend, the tile backend and the transcription backends
    answer 200 with the reply [v]. *)
Definition backend_says (v : jsval) : oracle :=
  scripted [("/api/chat", Response 200 (Some (VObj [("response", v)])));
            ("/api/perfume-explain", Response 200 (Some (VObj [("response", v)])));
            ("/api/voicechat", Response 200 (Some (VObj [("text", v)])));
            ("/api/transcribe", Response 200 (Some (VObj [("text", v)])))]
           None slow_gathering.

(** A start-session reply whose identifier and avatar name are numbers. *)
Definition session_of_numbers : jsval :=
  VObj [("session_id", VNum 12345678901234567890);
        ("session_token", VStr (lit "t1"));
        ("offer_sdp", VStr (lit "<sdp>"));
        ("avatar_name", VDec 1 21)].

Definition numbers_handed_out : oracle :=
  scripted [("/api/start-session", Response 200 (Some session_of_numbers))]
           None slow_gathering.

(** The body of a response as [r.json().catch(()=>({}))] gives it. *)
Definition body_or_empty (json : option jsval) : jsval :=
  match json with
  | Some j => j
  | None => VObj []
  end.

(** What the stop handler of the first script shows for a reply with
    body [j]: [j.text] when it is a string, trimmed, and else the "no
    text" status.  The edit field reads the text with its line breaks as
    the control gives them back. *)
Definition frontend_transcript (j : jsval) (w w' : World) : Prop :=
  match (if truthy j then opt_prop j "text" else VUndefined) with
  | VStr text =>
      editBox (page w') = newlines (trim text) /\
      viewerStatus (page w') = status_ready
  | _ =>
      editBox (page w') = editBox (page w) /\
      viewerStatus (page w') = Frontend.status_no_text
  end.

(** What the stop handler of the second script shows: a truthy [j.text]
    as a string, untrimmed, and "Ready." either way. *)
Definition part000_transcript (j : jsval) (w w' : World) : Prop :=
  viewerStatus (page w') = status_ready /\
  editBox (page w') =
    if truthy (js_and j (opt_prop j "text"))
    then newlines (ToString (opt_prop j "text"))
    else editBox (page w).

(** A recording is under way. *)
Definition recording : World :=
  with_recv (fun _ => MkRecVars (Some (MkRecorder (lit "audio/webm")))
                        [MkBlob 4096 (lit "audio/webm")] true)
    (with_page (set_mic (sign_stop_square ++ lit " End Recording") true) initial_world).

(** The upload of the recording is rejected. *)
Definition upload_rejected : oracle :=
  scripted [("/api/voicechat", NetworkError unreachable);
            ("/api/transcribe", NetworkError unreachable)] None slow_gathering.

(** The transcription backends answer 200 with the given body. *)
Definition transcript_says (j : jsval) : oracle :=
  scripted [("/api/voicechat", Response 200 (Some j));
            ("/api/transcribe", Response 200 (Some j))] None slow_gathering.

(* ===================================================================== *)
(** ** The invariant of the connection *)
(* ===================================================================== *)

(** The invariant of the session controller: a connection is only ever
    made when none is open, and a connection that is open is the one the
    script holds in [pc]. *)
Definition conn_inv (w : World) : Prop :=
  closes_before_creating (trace w) /\
  forall c, In c (open_conns (trace w)) -> pc (vars w) = Some c.

(** [wp s Q]: however the environment answers and whatever the other
    handlers do while [s] waits, so long as they keep the invariant, [s]
    keeps it at every point where it waits and ends in [Q]. *)
Fixpoint wp {A : Type} (s : Susp A) (Q : exn + A -> World -> Prop) : Prop :=
  match s with
  | Finished a w => Q (inr a) w
  | Thrown e w => Q (inl e) w
  | Suspended c w k =>
      if is_await c
      then conn_inv w /\ forall r w', conn_inv w' -> wp (k r w') Q
      else forall r, wp (k r w) Q
  end.

Definition safe {A : Type} (s : Susp A) : Prop := wp s (fun _ w => conn_inv w).

(** A handler, or a part of one, that keeps the invariant. *)
Definition keeps {A : Type} (m : Async A) : Prop :=
  forall w, conn_inv w -> safe (m w).

Definition pool_ok (ts : list thread) : Prop :=
  forall th, In th ts -> forall r w, conn_inv w -> safe (rest th r w).

(** A piece of a handler that has run as far as it can on its own. *)
Definition settled {A} (s : Susp A) : Prop :=
  match s with
  | Suspended c _ _ => is_await c = true
  | _ => True
  end.

(** The start button is pressed, and pressed again while the first
    handler waits for its first reply. *)
Definition pressed_once : World * list thread :=
  park (Frontend.startSession initial_world) [].

Definition pressed_twice : World * list thread :=
  park (Frontend.startSession (fst pressed_once)) (snd pressed_once).

(** A session is started and, once it runs, started again. *)
Definition started_twice : World :=
  exec all_well Frontend.startSession (exec all_well Frontend.startSession initial_world).

(* ===================================================================== *)
(** ** The rest of the scripts: loading, the instruction button, the tiles,
       the data of a recording *)
(* ===================================================================== *)

(** [typeof v === "string"] *)
Definition is_string (v : jsval) : bool :=
  match v with
  | VStr _ => true
  | _ => false
  end.

(** [location], as far as the scripts read it. *)
Record Location := MkLocation { protocol : jstring; hostname : jstring }.

(** An [async] function that is called and not awaited, as the last thing
    its caller does: a rejection stays with the promise that nobody
    holds. *)
Definition not_awaited (m : Async unit) : Async unit :=
  try_catch m (fun _ => ret tt).

(** The initial ping, [(async () => { try { ... } catch (e) { ... } })()],
    the same in both scripts; [api_base] is [window.API_BASE]. *)
Definition ping (api_base : jsval) : Async unit :=
  try_catch
    (r <- fetch (Request "GET" "/api/ping" NoBody) ;;
     flog "frontend" "perfume.js loaded" [("api_base", api_base); ("ping", http r)] INFO ;;
     setStatus status_ready)
    (fun e =>
       flog "frontend" "perfume.js load error"
            [("err", VStr (String_of_exn e)); ("api_base", api_base)] ERROR ;;
       setStatus (lit "Backend not reachable at " ++ ToString api_base)).

(** [instrBtn.addEventListener("click", async () => { ... })]; [msg] is the
    text of the script. *)
Definition instrBtn_click (msg : jstring) : Async unit :=
  modify (with_page (set_editBox msg)) ;;
  flog "viewer" "Instruction pressed" [("text", VStr msg)] INFO ;;
  not_awaited sendBtn_click.

(** [function chooseMime()]; [isTypeSupported] is
    [MediaRecorder.isTypeSupported]. *)
Definition mime_candidates : list jstring :=
  [lit "audio/webm;codecs=opus"; lit "audio/webm";
   lit "audio/ogg;codecs=opus"; lit "audio/ogg";
   lit "audio/mp4"; lit "audio/mpeg"].

Fixpoint first_supported (isTypeSupported : jstring -> bool) (c : list jstring)
    : jstring :=
  match c with
  | [] => []
  | m :: c' => if isTypeSupported m then m else first_supported isTypeSupported c'
  end.

Definition chooseMime (isTypeSupported : jstring -> bool) : jstring :=
  first_supported isTypeSupported mime_candidates.

Definition push_chunk (b : Blob) (r : RecVars) : RecVars :=
  MkRecVars (mediaRecorder r) (chunks r ++ [b]) (sourceNode r).

(** [mediaRecorder.ondataavailable = (e) => { if (e.data && e.data.size)
    chunks.push(e.data); }]; [data] is [e.data]. *)
Definition ondataavailable (data : option Blob) : Async unit :=
  match data with
  | Some b => if negb (blob_size b =? 0) then modify (with_recv (push_chunk b)) else ret tt
  | None => ret tt
  end.

(** The figure that [e.target.closest(".perfume-item")] finds: its
    [data-say] attribute, if it has one, and the text of its
    [figcaption], if it has one. *)
Record Figure := MkFigure {
  data_say : option jstring;
  figcaption : option jstring
}.

(** [a || b] where [a] is [null] or a string *)
Definition attr_or (a : option jstring) (b : jstring) : jstring :=
  match a with
  | Some s => nonempty_or s b
  | None => b
  end.

Module FrontendPage.

(** The first statement of the script:
[[
    if (!window.API_BASE || typeof window.API_BASE !== "string") {
      window.API_BASE =
        (location.protocol === "file:" || location.hostname === "localhost")
          ? "http://localhost:8000" : "";
    }
]]
    The result is [window.API_BASE] afterwards. *)
Definition api_base (preset : jsval) (loc : Location) : jsval :=
  if negb (truthy preset) || negb (is_string preset)
  then VStr (if jstring_eqb (protocol loc) (lit "file:")
                || jstring_eqb (hostname loc) (lit "localhost")
             then lit "http://localhost:8000"
             else [])
  else preset.

Definition instruction : jstring :=
  lit "To speak to me, press the microphone button, pause a second and then speak. Once finished, press Stop.".

(** [(fig.getAttribute("data-say") || (cap ? cap.textContent : "") || "").trim()] *)
Definition say (fig : Figure) : jstring :=
  trim (attr_or (data_say fig)
          (nonempty_or (match figcaption fig with Some t => t | None => [] end) [])).

(** [$("perfumeGrid").addEventListener("click", async (e) => { ... })];
    [target] is what [e.target.closest(".perfume-item")] gives. *)
Definition perfumeGrid_click (target : option Figure) : Async unit :=
  match target with
  | None => ret tt
  | Some fig =>
      if negb (truthy (VStr (say fig))) then ret tt
      else not_awaited (explainPerfume (say fig))
  end.

End FrontendPage.

Module Part000Page.

(** The first statement of the script:
[[
    const isLocal = location.protocol === "file:" ||
                    location.hostname === "localhost" ||
                    location.hostname.startsWith("127.");
    if (!window.API_BASE || typeof window.API_BASE !== "string" || !window.API_BASE.trim()) {
      window.API_BASE = isLocal ? "http://localhost:8000"
                                : "https://perfume-backend-yt2m.onrender.com";
    }
]] *)
Definition isLocal (loc : Location) : bool :=
  jstring_eqb (protocol loc) (lit "file:")
  || jstring_eqb (hostname loc) (lit "localhost")
  || startsWith (lit "127.") (hostname loc).

(** [!window.API_BASE.trim()], which is only reached for a string *)
Definition blank (v : jsval) : bool :=
  match v with
  | VStr s => negb (truthy (VStr (trim s)))
  | _ => true
  end.

Definition api_base (preset : jsval) (loc : Location) : jsval :=
  if negb (truthy preset) || negb (is_string preset) || blank preset
  then VStr (if isLocal loc
             then lit "http://localhost:8000"
             else lit "https://perfume-backend-yt2m.onrender.com")
  else preset.

Definition instruction : jstring :=
  lit "To speak to me, press " ++ sign_microphone
  ++ lit " Rec, pause a second and then speak. Press " ++ sign_stop
  ++ lit " End when finished.".

(** [fig.getAttribute("data-say") || fig.querySelector("figcaption")?.textContent || ""] *)
Definition say (fig : Figure) : jstring :=
  attr_or (data_say fig) (attr_or (figcaption fig) []).

(** [$("perfumeGrid").addEventListener("click", async (e) => { ... })] *)
Definition perfumeGrid_click (target : option Figure) : Async unit :=
  match target with
  | None => ret tt
  | Some fig =>
      if negb (truthy (VStr (trim (say fig)))) then ret tt
      else not_awaited (explainPerfume (say fig))
  end.

End Part000Page.

(** The handlers of each script, with those of this part. *)
Inductive frontend_handler_all : Async unit -> Prop :=
| fa_claimed h : frontend_handler h -> frontend_handler_all h
| fa_ping base : frontend_handler_all (ping base)
| fa_instr : frontend_handler_all (instrBtn_click FrontendPage.instruction)
| fa_grid target : frontend_handler_all (FrontendPage.perfumeGrid_click target)
| fa_data d : frontend_handler_all (ondataavailable d).

Inductive part000_handler_all : Async unit -> Prop :=
| pa_claimed h : part000_handler h -> part000_handler_all h
| pa_ping base : part000_handler_all (ping base)
| pa_instr : part000_handler_all (instrBtn_click Part000Page.instruction)
| pa_grid target : part000_handler_all (Part000Page.perfumeGrid_click target)
| pa_data d : part000_handler_all (ondataavailable d).

(** The data events of a recording, delivered one after the other. *)
Fixpoint deliver (o : oracle) (ds : list (option Blob)) (w : World) : World :=
  match ds with
  | [] => w
  | d :: ds' => deliver o ds' (exec o (ondataavailable d) w)
  end.

(** The blobs of a list of data events that have something in them. *)
Fixpoint kept (ds : list (option Blob)) : list Blob :=
  match ds with
  | [] => []
  | Some b :: ds' => if blob_size b =? 0 then kept ds' else b :: kept ds'
  | None :: ds' => kept ds'
  end.

Definition data_size (d : option Blob) : N :=
  match d with
  | Some b => blob_size b
  | None => 0
  end.

(* ===================================================================== *)
(** ** What every run of a handler leaves *)
(* ===================================================================== *)

(** [always R m]: in every environment and from every state, the state
    in which [m] ends is related by [R] to the one in which it began. *)
Definition always {A : Type} (R : World -> World -> Prop) (m : Async A) : Prop :=
  forall (o : oracle) (n : nat) (w : World), R w (snd (fst (run o n (m w)))).

(** A handler that settles in every environment: it never rejects. *)
Definition never_rejects {A : Type} (m : Async A) : Prop :=
  forall (o : oracle) (n : nat) (w : World),
    exists a, fst (fst (run o n (m w))) = inr a.

(** The same of the runs from the state [w0] only. *)
Definition always_at {A : Type} (w0 : World) (R : World -> World -> Prop)
    (m : Async A) : Prop :=
  forall (o : oracle) (n : nat), R w0 (snd (fst (run o n (m w0)))).

(** A send-task request that is complete: it carries an id and a token
    that are set, and a text that is not empty. *)
Definition complete_send_task (rq : request) : Prop :=
  exists id tok text,
    rq_body rq = JsonBody [("session_id", id); ("session_token", tok);
                           ("text", VStr text)] /\
    truthy id = true /\ truthy tok = true /\ text <> [].

(** An event of the input bridge: no connection is made or closed, and
    a send-task request, if it is one, is complete. *)
Definition bridge_event (ev : event) : Prop :=
  match ev with
  | EvPcCreated _ _ | EvPcClosed _ => False
  | EvFetch rq => rq_path rq = "/api/send-task" -> complete_send_task rq
  | _ => True
  end.

(** What the handlers outside the session controller leave alone: the
    session variables, the connection and the page's settings. *)
Definition bridge_frame (w w' : World) : Prop :=
  vars w' = vars w /\ conns w' = conns w /\ HEYGEN_FIXED w' = HEYGEN_FIXED w /\
  aname (page w') = aname (page w) /\
  audioGate (page w') = audioGate (page w) /\
  avatarPlaceholder (page w') = avatarPlaceholder (page w) /\
  exists t, trace w' = trace w ++ t /\ forall ev, In ev t -> bridge_event ev.

(** What the session controller leaves alone: the edit field, the
    recorder and the microphone button; and it sends no task. *)
Definition session_frame (w w' : World) : Prop :=
  editBox (page w') = editBox (page w) /\ recv w' = recv w /\
  micText (page w') = micText (page w) /\
  micRecording (page w') = micRecording (page w) /\
  HEYGEN_FIXED w' = HEYGEN_FIXED w /\
  exists t, trace w' = trace w ++ t /\ forall ev, In ev t -> is_send_task ev = false.

(** The negotiation works with the session as it was adopted: the
    session variables stay, a connection is made with the configuration
    in force, and the upload carries the identifiers in force. *)
Definition negotiates_adopted (w w' : World) : Prop :=
  SESSION_ID (vars w') = SESSION_ID (vars w) /\
  SESSION_TOKEN (vars w') = SESSION_TOKEN (vars w) /\
  OFFER_SDP (vars w') = OFFER_SDP (vars w) /\
  RTC_CONFIG (vars w') = RTC_CONFIG (vars w) /\
  aname (page w') = aname (page w) /\
  exists t, trace w' = trace w ++ t /\
    forall ev, In ev t ->
      match ev with
      | EvPcCreated _ cfg => cfg = RTC_CONFIG (vars w)
      | EvFetch rq =>
          rq_path rq = "/api/heygen/start" ->
          exists sdp,
            rq_body rq =
              FormBody [("session_id", FText (USVString (ToString (SESSION_ID (vars w)))));
                        ("session_token",
                         FText (USVString (ToString (SESSION_TOKEN (vars w)))));
                        ("answer_sdp", FText sdp)]
      | _ => True
      end.

(** Before a response is adopted [startSession] has only talked to the
    backend, about the session to start and to the log. *)
Definition quiet (w w' : World) : Prop :=
  vars w' = vars w /\ aname (page w') = aname (page w) /\
  exists t, trace w' = trace w ++ t /\
    forall ev, In ev t ->
      exists rq, ev = EvFetch rq /\
        (rq_path rq = "/api/log" \/ rq_path rq = "/api/start-session").

(** Over a whole run: a connection that was made was made with the
    configuration the script holds at the end, and an upload carried the
    identifiers it holds at the end. *)
Definition made_as_held (w w' : World) : Prop :=
  exists t, trace w' = trace w ++ t /\
    (forall c cfg, In (EvPcCreated c cfg) t -> cfg = RTC_CONFIG (vars w')) /\
    (forall rq, In (EvFetch rq) t -> rq_path rq = "/api/heygen/start" ->
       exists sdp,
         rq_body rq =
           FormBody [("session_id", FText (USVString (ToString (SESSION_ID (vars w')))));
                     ("session_token",
                      FText (USVString (ToString (SESSION_TOKEN (vars w')))));
                     ("answer_sdp", FText sdp)]).

(** The script holds what the response [j] gave: its identifiers and
    offer, its configuration if it has one and else the one held
    before, and the avatar's name or a dash. *)
Definition holds_response (j : jsval) (w w' : World) : Prop :=
  SESSION_ID (vars w') = opt_prop j "session_id" /\
  SESSION_TOKEN (vars w') = opt_prop j "session_token" /\
  OFFER_SDP (vars w') = opt_prop j "offer_sdp" /\
  RTC_CONFIG (vars w') = js_or (opt_prop j "rtc_config") (RTC_CONFIG (vars w)) /\
  aname (page w') = ToString (js_or (opt_prop j "avatar_name") (VStr dash)).

(** The chat backend answers with something that is not JSON. *)
Definition chat_not_json : oracle :=
  scripted [("/api/chat", Response 200 None)] None slow_gathering.

(** The send-task requests of a trace, in order. *)
Definition send_tasks (t : list event) : list event := filter is_send_task t.

(** The backend cannot be reached when the script is loaded. *)
Definition ping_unreachable : oracle :=
  scripted [("/api/ping", NetworkError unreachable)] None slow_gathering.

(** The send-task request is rejected. *)
Definition send_rejected : oracle :=
  scripted [("/api/start-session", Response 200 (Some session_s1));
            ("/api/send-task", NetworkError unreachable)] None slow_gathering.

(** The chat handler has reported the failure [e]: the status shows it,
    it is in the debug box and has gone to the log at level ERROR, and
    the reply, if there was one, has been dropped. *)
Definition chat_failed (e : exn) (w w' : World) : Prop :=
  viewerStatus (page w') = status_openai_error /\
  In (LogLine "chatgpt" "error" [("err", VStr (String_of_exn e))]) (uiDebug (page w')) /\
  In (EvFetch (log_request "chatgpt" "error" [("err", VStr (String_of_exn e))] ERROR))
     (trace w') /\
  reply_dropped (editBox (page w)) [] w w'.

(** The chat backend cannot be reached. *)
Definition chat_unreachable : oracle :=
  scripted [("/api/start-session", Response 200 (Some session_s1));
            ("/api/chat", NetworkError unreachable)] None slow_gathering.

(** What the send handler has written to the debug box when its request
    got the answer [r]. *)
Definition send_lines (text : jstring) (r : fetch_result) : list logline :=
  LogLine "viewer" "Send to avatar clicked"
    [("text_len", VNum (Z.of_nat (List.length text)))]
  :: match r with
     | NetworkError _ => []
     | Response st body =>
         [LogLine "viewer" "/api/send-task response"
            [("http", VNum (Z.of_N st)); ("body", body_or_empty body)]]
     end.

(** The upload of the first script's stop handler failed: the status
    shows it and the error has gone to the log. *)
Definition voicechat_failed (e : exn) (w w' : World) : Prop :=
  viewerStatus (page w') = lit "Voicechat error" /\
  In (LogLine "mic" "voicechat error" [("err", VStr (String_of_exn e))])
     (uiDebug (page w')) /\
  In (EvFetch (log_request "mic" "voicechat error"
                 [("err", VStr (String_of_exn e))] ERROR)) (trace w') /\
  editBox (page w') = editBox (page w).

(** The upload of the second script's stop handler failed: the status
    shows the error's message, and nothing about it is logged. *)
Definition transcription_failed (e : exn) (w w' : World) : Prop :=
  viewerStatus (page w') = Part000.transcription_error e /\
  (exists t, trace w' = trace w ++ t /\
     forall a m x, ~ In (EvFetch (log_request a m x ERROR)) t) /\
  (forall l, In l (uiDebug (page w')) ->
     In l (uiDebug (page w)) \/ log_message l = "sending to /api/transcribe") /\
  editBox (page w') = editBox (page w).

(** The data events of a recording in which 3000 and 1096 bytes arrive,
    with an empty event in between. *)
Definition some_data : list (option Blob) :=
  [Some (MkBlob 3000 (lit "audio/webm")); Some (MkBlob 0 (lit "audio/webm")); None;
   Some (MkBlob 1096 (lit "audio/webm"))].

(** A field of the start-session request: the page's value when
    [window.HEYGEN_FIXED] is an object that has one, and else the
    script's own. *)
Definition fixed_field (w : World) (k d : string) : jsval :=
  match HEYGEN_FIXED w with
  | VObj fs => if truthy (lookup_field k fs) then lookup_field k fs else VStr (lit d)
  | _ => VStr (lit d)
  end.

(** A session is started, the instruction button is pressed and a tile
    is clicked, and the session is started again. *)
Definition busy_page : World :=
  exec all_well Frontend.startSession
    (exec all_well (FrontendPage.perfumeGrid_click (Some (MkFigure (Some (lit "Rose")) None)))
       (exec all_well (instrBtn_click FrontendPage.instruction)
          (exec all_well Frontend.startSession initial_world))).

(** A page on which a session has been started. *)
Definition started : World := exec all_well Frontend.startSession initial_world.

(* ===================================================================== *)
(** ** The microphone button *)
(* ===================================================================== *)

(** What the media devices of the browser do while a recording is started
    or stopped, one field for each step of [startRecording] and
    [stopRecording] that can fail:
    - [getUserMedia]: what [navigator.mediaDevices.getUserMedia(...)]
      settles with, the captured stream or the reason of the refusal;
    - [newSourceNode s]: [new AudioContext()], [createAnalyser()] and
      [createMediaStreamSource(stream)];
    - [connectSource]: [sourceNode.connect(analyser)];
    - [supports]: [MediaRecorder.isTypeSupported];
    - [newMediaRecorder s m]: [new MediaRecorder(stream, m ? {mimeType: m} : {})];
    - [recorderStart t]: [mediaRecorder.start(t)];
    - [recorderStop]: [mediaRecorder.stop()].
    The scripts ask the backend for none of these, so the answers are
    handed to the handlers; the wait for [getUserMedia] is the only one
    among them, and the handlers are followed through it in one go. *)
Record MediaDevices := MkMediaDevices {
  getUserMedia : exn + stream;
  newSourceNode : stream -> option exn;
  connectSource : option exn;
  supports : jstring -> bool;
  newMediaRecorder : stream -> jstring -> exn + MediaRecorder;
  recorderStart : option N -> option exn;
  recorderStop : option exn
}.

Definition set_chunks (cs : list Blob) (r : RecVars) : RecVars :=
  MkRecVars (mediaRecorder r) cs (sourceNode r).
Definition set_sourceNode (b : bool) (r : RecVars) : RecVars :=
  MkRecVars (mediaRecorder r) (chunks r) b.

(** [`Mic permission denied / ${err.message || err}`] *)
Definition mic_denied (e : exn) : jstring :=
  lit "Mic permission denied / " ++ nonempty_or (exn_message e) (String_of_exn e).

(** The statements of [startRecording] from [getUserMedia] to the new
    recorder, the same in both scripts:
[[
    const stream = await navigator.mediaDevices.getUserMedia({...});
    audioCtx = new (window.AudioContext || window.webkitAudioContext)();
    analyser = audioCtx.createAnalyser(); analyser.fftSize = 2048;
    sourceNode = audioCtx.createMediaStreamSource(stream); sourceNode.connect(analyser);
    const mimeType = chooseMime(); chunks = [];
    mediaRecorder = new MediaRecorder(stream, mimeType ? { mimeType } : {});
]]
    The two handlers that are then put on the recorder are
    [ondataavailable] and [onstop stream mimeType] of the script. *)
Definition open_microphone (md : MediaDevices) : Async unit :=
  s <- lift (getUserMedia md) ;;
  may_throw (newSourceNode md s) ;;
  modify (with_recv (set_sourceNode true)) ;;
  may_throw (connectSource md) ;;
  let mime := chooseMime (supports md) in
  modify (with_recv (set_chunks [])) ;;
  r <- lift (newMediaRecorder md s mime) ;;
  modify (with_recv (set_mediaRecorder (Some r))).

(** [function stopRecording(){ if (mediaRecorder) { try { mediaRecorder.stop(); } catch {} } }] *)
Definition stopRecording (md : MediaDevices) : Async unit :=
  m <- gets (fun w => mediaRecorder (recv w)) ;;
  match m with
  | Some _ => try_catch (may_throw (recorderStop md)) (fun _ => ret tt)
  | None => ret tt
  end.

Module FrontendMic.

(** [async function startRecording()].  The clock reading [recT0] and the
    animation frame that [tick] asks for are left out. *)
Definition startRecording (md : MediaDevices) : Async unit :=
  flog "mic" "StartRecording pressed" [] INFO ;;
  try_catch
    (modify (with_page (set_editBox [])) ;;
     open_microphone md ;;
     may_throw (recorderStart md None) ;;
     setStatus (lit "Listening" ++ ellipsis ++ lit " press again to stop") ;;
     modify (with_page (fun p => set_mic (micText p) true p)) ;;
     modify (with_page (fun p =>
       set_mic (sign_stop_square ++ lit " End Recording") (micRecording p) p)))
    (fun err =>
       flog "mic" "permission/error" [("err", VStr (String_of_exn err))] ERROR ;;
       setStatus (mic_denied err) ;;
       modify (with_page (fun p => set_mic (micText p) false p)) ;;
       modify (with_page (fun p => set_mic Frontend.mic_idle_label (micRecording p) p))).

(** [micBtn.addEventListener("click", () => {
       if (mediaRecorder) { stopRecording(); } else { startRecording(); } })] *)
Definition micBtn_click (md : MediaDevices) : Async unit :=
  m <- gets (fun w => mediaRecorder (recv w)) ;;
  match m with
  | Some _ => stopRecording md
  | None => not_awaited (startRecording md)
  end.

End FrontendMic.

Module Part000Mic.

(** [async function startRecording()].  The animation frame that [tick]
    asks for is left out. *)
Definition startRecording (md : MediaDevices) : Async unit :=
  flog "mic" "Mic pressed" [] INFO ;;
  try_catch
    (open_microphone md ;;
     may_throw (recorderStart md (Some 150)) ;;
     setStatus (lit "Listening" ++ ellipsis ++ lit " press " ++ sign_stop
                ++ lit " End to stop") ;;
     modify (with_page (fun p => set_mic (micText p) true p)) ;;
     modify (with_page (fun p => set_mic (sign_stop ++ lit " End") (micRecording p) p)))
    (fun err =>
       flog "mic" "permission/error" [("err", VStr (String_of_exn err))] ERROR ;;
       setStatus (mic_denied err)).

(** [micBtn.addEventListener("click", () => {
       if (mediaRecorder) stopRecording(); else startRecording(); })] *)
Definition micBtn_click (md : MediaDevices) : Async unit :=
  m <- gets (fun w => mediaRecorder (recv w)) ;;
  match m with
  | Some _ => stopRecording md
  | None => not_awaited (startRecording md)
  end.

End Part000Mic.

(** The microphone button is pressed again and again, the media devices
    answering as the list says. *)
Fixpoint pressed (click : MediaDevices -> Async unit) (o : oracle)
    (mds : list MediaDevices) (w : World) : World :=
  match mds with
  | [] => w
  | md :: mds' => pressed click o mds' (exec o (click md) w)
  end.

(** The start of a recording has been refused with [e]: the status says
    so, the error has gone to the log, and the recorder's variables are
    what they were. *)
Definition mic_refused (e : exn) (w w' : World) : Prop :=
  viewerStatus (page w') = mic_denied e /\
  In (EvFetch (log_request "mic" "permission/error"
                 [("err", VStr (String_of_exn e))] ERROR)) (trace w') /\
  recv w' = recv w.

(** Every step of the start works: the stream is [s], the recorder [r]. *)
Definition devices_work (md : MediaDevices) (s : stream) (r : MediaRecorder) : Prop :=
  getUserMedia md = inr s /\
  newSourceNode md s = None /\
  connectSource md = None /\
  newMediaRecorder md s (chooseMime (supports md)) = inr r /\
  (forall t, recorderStart md t = None).

(** The recorder is made, and refuses to start with [e]. *)
Definition recorder_refuses (md : MediaDevices) (s : stream) (r : MediaRecorder)
    (e : exn) : Prop :=
  getUserMedia md = inr s /\
  newSourceNode md s = None /\
  connectSource md = None /\
  newMediaRecorder md s (chooseMime (supports md)) = inr r /\
  (forall t, recorderStart md t = Some e).

(** The sizes of the data that a list of data events carries. *)
Definition delivered (ds : list (option Blob)) : N :=
  fold_right (fun d acc => data_size d + acc) 0 ds.

(** A browser that records in every format. *)
Definition working_devices : MediaDevices :=
  MkMediaDevices (inr 7%nat) (fun _ => None) None (fun _ => true)
    (fun _ m => inr (MkRecorder m)) (fun _ => None) None.

(** A browser whose recorder reports its format in capitals. *)
Definition capital_devices : MediaDevices :=
  MkMediaDevices (inr 7%nat) (fun _ => None) None (fun _ => true)
    (fun _ _ => inr (MkRecorder (lit "Audio/MP4"))) (fun _ => None) None.

(** The user does not allow the microphone. *)
Definition no_permission : MediaDevices :=
  MkMediaDevices (inl (Exn (lit "NotAllowedError") (lit "Permission denied")))
    (fun _ => None) None (fun _ => true)
    (fun _ m => inr (MkRecorder m)) (fun _ => None) None.

(** The recorder is made and does not start. *)
Definition recorder_does_not_start : MediaDevices :=
  MkMediaDevices (inr 7%nat) (fun _ => None) None (fun _ => true)
    (fun _ m => inr (MkRecorder m))
    (fun _ => Some (Exn (lit "NotSupportedError") (lit "cannot record")))
    (Some (Exn (lit "InvalidStateError") (lit "not recording"))).

(** The edit field holds what it held. *)
Definition edit_kept (w w' : World) : Prop := editBox (page w') = editBox (page w).

(** The data events of a short recording: 800 and 200 bytes. *)
Definition short_take : list (option Blob) :=
  [Some (MkBlob 800 (lit "audio/webm;codecs=opus")); None;
   Some (MkBlob 200 (lit "audio/webm;codecs=opus"))].
(* ===================================================================== *)
(** * Values as text *)
(* ===================================================================== *)

(** Numbers are printed as JavaScript prints them: the double nearest to
    the literal, with the fewest digits that denote it. *)
Lemma ToString_of_numbers :
  ToString (VNum 42) = lit "42" /\
  ToString (VNum (-7)) = lit "-7" /\
  ToString (VNum 12345678901234567890) = lit "12345678901234567000" /\
  ToString (VNum (10 ^ 21)) = lit "1e+21" /\
  ToString (VDec 5 (-1)) = lit "0.5" /\
  ToString (VDec 1234 (-2)) = lit "12.34" /\
  ToString (VDec 1 (-7)) = lit "1e-7" /\
  ToString (VDec 1 400) = lit "Infinity" /\
  ToString (VDec (-1) (-400)) = lit "0" /\
  truthy (VDec 1 (-400)) = false /\
  ToString (VArr [VNum 1; VNull; VStr (lit "a")]) = lit "1,,a".
Proof. vm_compute. repeat split. Qed.

(** Text as a form, a text control and a blob take it. *)
Lemma text_as_the_page_takes_it :
  USVString [97; 55357; 98] = [97; 65533; 98] /\
  USVString [55357; 56832] = [55357; 56832] /\
  newlines [97; 13; 10; 98; 13; 99; 10] = [97; 10; 98; 10; 99; 10] /\
  Blob_type (lit "Audio/MP4") = lit "audio/mp4" /\
  Part000.extension (Blob_type (lit "Audio/MP4")) = "m4a".
Proof. vm_compute. repeat split. Qed.

(* ===================================================================== *)
(** * Running a handler: equations *)
(* ===================================================================== *)

Section RunEquations.

Variable o : oracle.

Lemma run_sbind {A B : Type} (s : Susp A) (f : A -> Async B) n :
  run o n (sbind s f) =
  match run o n s with
  | (inr a, w, n') => run o n' (f a w)
  | (inl e, w, n') => (inl e, w, n')
  end.
Proof.
  revert n. induction s as [a w | e w | c w k IH]; intros n; cbn; auto.
Qed.

Lemma run_scatch {A : Type} (s : Susp A) (h : exn -> Async A) n :
  run o n (scatch s h) =
  match run o n s with
  | (inr a, w, n') => (inr a, w, n')
  | (inl e, w, n') => run o n' (h e w)
  end.
Proof.
  revert n. induction s as [a w | e w | c w k IH]; intros n; cbn; auto.
Qed.

Lemma run_sfinally {A : Type} (s : Susp A) (fin : Async unit) n :
  run o n (sfinally s fin) =
  match run o n s with
  | (inr a, w, n') =>
      match run o n' (fin w) with
      | (inr _, w', n'') => (inr a, w', n'')
      | (inl e, w', n'') => (inl e, w', n'')
      end
  | (inl e, w, n') =>
      match run o n' (fin w) with
      | (inr _, w', n'') => (inl e, w', n'')
      | (inl e', w', n'') => (inl e', w', n'')
      end
  end.
Proof.
  revert n. induction s as [a w | e w | c w k IH]; intros n; cbn; auto;
    rewrite run_sbind; destruct (run o n (fin w)) as [[[e' | u] w'] n']; reflexivity.
Qed.

Lemma run_bind {A B : Type} (m : Async A) (f : A -> Async B) w n :
  run o n ((x <- m ;; f x) w) =
  match run o n (m w) with
  | (inr a, w', n') => run o n' (f a w')
  | (inl e, w', n') => (inl e, w', n')
  end.
Proof. apply run_sbind. Qed.

Lemma run_ret {A : Type} (a : A) w n : run o n (@ret Async _ A a w) = (inr a, w, n).
Proof. reflexivity. Qed.

Lemma run_throw {A : Type} (e : exn) w n : run o n (@throw A e w) = (inl e, w, n).
Proof. reflexivity. Qed.

Lemma run_gets {A : Type} (f : World -> A) w n : run o n (gets f w) = (inr (f w), w, n).
Proof. reflexivity. Qed.

Lemma run_modify f w n : run o n (modify f w) = (inr tt, f w, n).
Proof. reflexivity. Qed.

Lemma run_emit ev w n : run o n (emit ev w) = (inr tt, add_event ev w, n).
Proof. reflexivity. Qed.

Lemma run_perform c w n : run o n (perform c w) = (inr (o n c), w, S n).
Proof. reflexivity. Qed.

Lemma run_lift {A : Type} (x : exn + A) w n :
  run o n (lift x w) = (x, w, n).
Proof. destruct x; reflexivity. Qed.

Lemma run_try_catch {A : Type} (m : Async A) (h : exn -> Async A) w n :
  run o n (try_catch m h w) =
  match run o n (m w) with
  | (inr a, w', n') => (inr a, w', n')
  | (inl e, w', n') => run o n' (h e w')
  end.
Proof. apply run_scatch. Qed.

Lemma run_try_finally {A : Type} (m : Async A) (fin : Async unit) w n :
  run o n (try_finally m fin w) =
  match run o n (m w) with
  | (inr a, w', n') =>
      match run o n' (fin w') with
      | (inr _, w'', n'') => (inr a, w'', n'')
      | (inl e, w'', n'') => (inl e, w'', n'')
      end
  | (inl e, w', n') =>
      match run o n' (fin w') with
      | (inr _, w'', n'') => (inl e, w'', n'')
      | (inl e', w'', n'') => (inl e', w'', n'')
      end
  end.
Proof. apply run_sfinally. Qed.

Lemma run_setStatus msg w n :
  run o n (setStatus msg w) = (inr tt, with_page (set_viewerStatus msg) w, n).
Proof. reflexivity. Qed.

Lemma run_fetch rq w n :
  run o n (fetch rq w) =
  match o n (CFetch rq) with
  | NetworkError e => (inl e, add_event (EvFetch rq) w, S n)
  | Response status j => (inr (status, j), add_event (EvFetch rq) w, S n)
  end.
Proof.
  unfold fetch. rewrite run_bind, run_emit, run_bind, run_perform.
  destruct (o n (CFetch rq)); reflexivity.
Qed.

Lemma run_fetch_and_forget rq w n :
  run o n (fetch_and_forget rq w) = (inr tt, add_event (EvFetch rq) w, n).
Proof. reflexivity. Qed.

(** Whatever becomes of the log request, [flog] returns and leaves the
    same state. *)
Lemma run_flog area message extra level w n :
  run o n (flog area message extra level w) =
  (inr tt, logged area message extra level w, S n).
Proof.
  unfold flog, uiLog. rewrite run_bind, run_modify, run_try_catch, run_bind, run_fetch.
  unfold logged. destruct (o n (CFetch _)); reflexivity.
Qed.

Lemma run_json_or_empty r w n :
  run o n (json_or_empty r w) =
  (inr match snd r with Some j => j | None => VObj [] end, w, n).
Proof.
  unfold json_or_empty, json. rewrite run_try_catch.
  destruct (snd r); reflexivity.
Qed.

Lemma run_pc_close c w n :
  run o n (pc_close c w) = (inr tt, add_event (EvPcClosed c) w, n).
Proof. reflexivity. Qed.

Lemma run_the_pc w n :
  run o n (the_pc w) =
  (match pc (vars w) with
   | Some c => inr c
   | None => inl (TypeError "Cannot read properties of null")
   end, w, n).
Proof. unfold the_pc. rewrite run_bind, run_gets. destruct (pc (vars w)); reflexivity. Qed.

Lemma run_may_throw r w n :
  run o n (may_throw r w) =
  (match r with Some e => inl e | None => inr tt end, w, n).
Proof. destruct r; reflexivity. Qed.

Lemma run_prop v k w n : run o n (prop v k w) = (get_prop v k, w, n).
Proof. unfold prop. apply run_lift. Qed.

Lemma run_show_placeholder d w n :
  run o n (Part000.show_placeholder d w) =
  (inr tt, with_page (set_avatarPlaceholder (lit d)) w, n).
Proof. reflexivity. Qed.

End RunEquations.

Create Rewrite HintDb run.

#[export] Hint Rewrite @run_bind @run_ret @run_throw @run_gets @run_modify
  @run_emit @run_perform @run_lift @run_try_catch @run_try_finally
  run_setStatus run_fetch run_fetch_and_forget run_flog run_json_or_empty
  run_pc_close run_the_pc run_may_throw run_prop run_show_placeholder : run.

(** One step of a run: rewrite with the equations, reduce what they
    expose. *)
Ltac go := repeat (autorewrite with run; cbv beta iota).

(** Bring a goal about the trace of a final state to a list that extends
    the trace of the first state. *)
Ltac trace_norm := cbn [trace add_event with_page with_vars with_recv bump_conns logged];
  repeat rewrite <- app_assoc; cbn [app].

Ltac in_list := cbn [In]; repeat ((left; reflexivity) || right).
(* ===================================================================== *)
(** * The recorder's stop handler *)
(* ===================================================================== *)

Lemma frontend_upload_returns o n w m :
  exists w1 n1 t,
    run o n (Frontend.upload_recording m w) = (inr tt, w1, n1)
    /\ trace w1 = trace w ++ t.
Proof.
  unfold Frontend.upload_recording. go.
  destruct (o (S n) (CFetch _)) as [e | st body]; go.
  - do 3 eexists. split; [reflexivity |]. trace_norm. reflexivity.
  - destruct (if truthy _ then _ else _); go;
      (do 3 eexists; split; [reflexivity |]; trace_norm; reflexivity).
Qed.

Lemma part000_upload_returns o n w m :
  exists w1 n1 t,
    run o n (Part000.upload_recording m w) = (inr tt, w1, n1)
    /\ trace w1 = trace w ++ t.
Proof.
  unfold Part000.upload_recording, Part000.recording_type. go.
  destruct (mediaRecorder (recv w)) as [mr |]; go.
  - destruct (o (S n) (CFetch _)) as [e | st body]; go.
    + do 3 eexists. split; [reflexivity |]. trace_norm. reflexivity.
    + destruct (truthy _); go;
        (do 3 eexists; split; [reflexivity |]; trace_norm; reflexivity).
  - exists (with_page (set_viewerStatus
              (Part000.transcription_error
                 (TypeError "Cannot read properties of null"))) w), n, [].
    split; [reflexivity |]. cbn. now rewrite app_nil_r.
Qed.

Lemma frontend_release o n w s :
  run o n (Frontend.release_microphone s w) =
  (inr tt,
   with_page (set_mic Frontend.mic_idle_label false)
     (with_recv (set_mediaRecorder None) (add_event (EvTracksStopped s) w)), n).
Proof. unfold Frontend.release_microphone. go. reflexivity. Qed.

Lemma part000_release o n w s :
  run o n (Part000.release_microphone s w) =
  (inr tt,
   with_page (set_mic Part000.mic_idle_label false)
     (with_recv (set_mediaRecorder None) (add_event (EvTracksStopped s) w)), n).
Proof. unfold Part000.release_microphone. go. reflexivity. Qed.

Lemma run_disconnect o n w :
  run o n ((if sourceNode (recv w)
            then try_catch (emit EvSourceDisconnected) (fun _ => ret tt)
            else ret tt) w) =
  (inr tt, if sourceNode (recv w) then add_event EvSourceDisconnected w else w, n).
Proof. destruct (sourceNode (recv w)); go; reflexivity. Qed.

Lemma trace_disconnect w :
  exists t, trace (if sourceNode (recv w) then add_event EvSourceDisconnected w else w)
            = trace w ++ t.
Proof.
  destruct (sourceNode (recv w)); [exists [EvSourceDisconnected] | exists []];
    cbn; now rewrite ?app_nil_r.
Qed.

(** C5.  Whatever the backend does with the upload, and whatever the
    state in which the recorder stops, the stop handler of either script
    returns, and on its way out it has stopped the tracks of the captured
    stream, forgotten the recorder and put the microphone button back to
    its idle label without the [recording] class. *)
Theorem onstop_always_releases_microphone :
  forall (o : oracle) (w : World) (s : stream) (m : jstring),
    (outcome o (Frontend.onstop s m) w = inr tt /\
     released s Frontend.mic_idle_label w (exec o (Frontend.onstop s m) w)) /\
    (outcome o (Part000.onstop s m) w = inr tt /\
     released s Part000.mic_idle_label w (exec o (Part000.onstop s m) w)).
Proof.
  intros o w s m. unfold outcome, exec, released. split.
  - unfold Frontend.onstop. rewrite run_bind, run_emit. cbv beta iota.
    rewrite run_bind, run_gets. cbv beta iota.
    rewrite run_bind, run_disconnect. cbv beta iota.
    set (w1 := if sourceNode _ then _ else _).
    destruct (trace_disconnect (add_event EvAnimationCancelled w)) as [t1 Ht1].
    fold w1 in Ht1.
    rewrite run_bind, run_gets. cbv beta iota.
    rewrite run_bind, run_flog. cbv beta iota.
    rewrite run_try_finally.
    match goal with |- context [run o ?n (Frontend.upload_recording m ?w0)] =>
      destruct (frontend_upload_returns o n w0 m) as (w2 & n2 & t2 & -> & Ht2)
    end.
    rewrite frontend_release. cbn [fst snd].
    split; [reflexivity |]. repeat split; try reflexivity.
    cbn [trace with_page with_recv add_event]. rewrite Ht2.
    cbn [trace logged add_event with_page]. rewrite Ht1. cbn [trace add_event].
    repeat rewrite <- app_assoc. eexists. split; [reflexivity |].
    repeat (apply in_or_app; right). in_list.
  - unfold Part000.onstop. rewrite run_bind, run_emit. cbv beta iota.
    rewrite run_bind, run_gets. cbv beta iota.
    rewrite run_bind, run_disconnect. cbv beta iota.
    set (w1 := if sourceNode _ then _ else _).
    destruct (trace_disconnect (add_event EvAnimationCancelled w)) as [t1 Ht1].
    fold w1 in Ht1.
    rewrite run_try_finally.
    match goal with |- context [run o ?n (Part000.upload_recording m ?w0)] =>
      destruct (part000_upload_returns o n w0 m) as (w2 & n2 & t2 & -> & Ht2)
    end.
    rewrite part000_release. cbn [fst snd].
    split; [reflexivity |]. repeat split; try reflexivity.
    cbn [trace with_page with_recv add_event]. rewrite Ht2, Ht1.
    cbn [trace add_event].
    repeat rewrite <- app_assoc. eexists. split; [reflexivity |].
    repeat (apply in_or_app; right). in_list.
Qed.

(** The theorem on a recording whose upload is rejected: the tracks of
    the stream are stopped all the same, and the status tells of the
    error. *)
Lemma onstop_witness :
  released 7%nat Frontend.mic_idle_label recording
    (exec upload_rejected (Frontend.onstop 7%nat (lit "audio/webm")) recording) /\
  released 7%nat Part000.mic_idle_label recording
    (exec upload_rejected (Part000.onstop 7%nat (lit "audio/webm")) recording).
Proof.
  destruct (onstop_always_releases_microphone upload_rejected recording 7%nat
              (lit "audio/webm")) as [[_ H1] [_ H2]].
  split; [exact H1 | exact H2].
Defined.

Example rejected_upload_shows_error :
  viewerStatus (page (exec upload_rejected (Frontend.onstop 7%nat (lit "audio/webm"))
                        recording)) = lit "Voicechat error" /\
  viewerStatus (page (exec upload_rejected (Part000.onstop 7%nat (lit "audio/webm"))
                        recording)) = lit "Transcription error: Failed to fetch".
Proof. split; reflexivity. Qed.
(* ===================================================================== *)
(** * Stopping a session *)
(* ===================================================================== *)

Ltac page_norm := cbn [page uiDebug viewerStatus add_event with_page with_vars
  with_recv logged add_uiDebug set_viewerStatus set_avatarPlaceholder];
  repeat rewrite <- app_assoc; cbn [app].

Lemma stop_effect_common o w (tail : Async unit) :
  (forall n w0, exists w1,
      run o n (tail w0) = (inr tt, w1, n) /\ vars w1 = vars w0 /\
      trace w1 = trace w0 /\ uiDebug (page w1) = uiDebug (page w0) /\
      viewerStatus (page w1) = status_stopped) ->
  stop_effect o (flog "viewer" "Stop button pressed" [] INFO ;;
                 notify_stop ;; drop_connection ;; tail) w.
Proof.
  intros Htail. unfold stop_effect, outcome, exec, notify_stop, drop_connection.
  go.
  assert (Hfail : forall e', answers o "/api/stop-session" (eq (NetworkError e')) ->
            o 1%nat (CFetch (Request "POST" "/api/stop-session" NoBody)) = NetworkError e').
  { intros e' He'. symmetry. now apply He'. }
  destruct (o 1%nat (CFetch _)) as [e | st body]; go;
    (destruct (pc (vars w)) as [c |] eqn:Hpc; cbn [vars logged add_event with_page];
     rewrite Hpc; go;
     match goal with |- context [run o ?n (tail ?w0)] =>
       destruct (Htail n w0) as (w1 & -> & Hv & Ht & Hd & Hs)
     end; cbn [fst snd]; rewrite Hv, Ht, Hd, Hs;
     (repeat apply conj;
     [ reflexivity
     | cbn; try assumption; reflexivity
     | intros c' Hc';
       first [ discriminate Hc'
             | injection Hc' as <-; trace_norm; eexists; split; [reflexivity | in_list] ]
     | reflexivity
     | intros e' He'; specialize (Hfail e' He');
       first [ discriminate Hfail
             | injection Hfail as ->; page_norm; eexists; split; [reflexivity | in_list] ]
     | reflexivity
     | reflexivity ])).
Qed.

(** C2, as the code has it.  [stopSession] returns whether or not the
    backend could be told: a failed notification is written to the debug
    box and goes no further.  The connection that was held is closed and
    [pc] is [null] afterwards, and the status reads "stopped.".  The
    session id and the session token are not touched: they keep the
    values they had. *)
Theorem stopSession_closes_connection_keeps_identifiers :
  forall (o : oracle) (w : World),
    stop_effect o Frontend.stopSession w /\ stop_effect o Part000.stopSession w.
Proof.
  intros o w. split.
  - apply stop_effect_common. intros n w0. eexists. go. repeat split.
  - apply stop_effect_common
      with (tail := Part000.show_placeholder "" ;; setStatus status_stopped).
    intros n w0. eexists. unfold Part000.show_placeholder. go. repeat split.
Qed.

(** C2, the claim as worded, fails: a session is started with everything
    going well and then stopped; the identifiers of the session are still
    held after the stop, in both scripts. *)
Lemma stopSession_leaves_identifiers_set :
  (let w1 := exec all_well Frontend.startSession initial_world in
   let w2 := exec all_well Frontend.stopSession w1 in
   pc (vars w2) = None /\
   SESSION_ID (vars w2) = VStr (lit "s1") /\
   SESSION_TOKEN (vars w2) = VStr (lit "t1") /\
   ~ no_session w2) /\
  (let w1 := exec all_well Part000.startSession initial_world in
   let w2 := exec all_well Part000.stopSession w1 in
   pc (vars w2) = None /\
   SESSION_ID (vars w2) = VStr (lit "s1") /\
   SESSION_TOKEN (vars w2) = VStr (lit "t1") /\
   ~ no_session w2).
Proof.
  split; vm_compute; (repeat split; try reflexivity); intros [H _]; discriminate H.
Qed.

(** The theorem on a session that is stopped while the backend cannot be
    reached: the failure is in the debug box and the handler has
    returned with the connection closed. *)
Lemma stopSession_witness :
  outcome stop_unreachable Frontend.stopSession in_session = inr tt /\
  pc (vars (exec stop_unreachable Frontend.stopSession in_session)) = None /\
  (exists t, trace (exec stop_unreachable Frontend.stopSession in_session)
             = trace in_session ++ t /\ In (EvPcClosed 0%nat) t) /\
  (exists l, uiDebug (page (exec stop_unreachable Frontend.stopSession in_session))
             = uiDebug (page in_session) ++ l /\
             In (LogLine "viewer" "stop-session error"
                   [("err", VStr (String_of_exn unreachable))]) l).
Proof.
  destruct (stopSession_closes_connection_keeps_identifiers stop_unreachable in_session)
    as [(Hres & Hpc & Hclosed & _ & Hlogged & _) _].
  split; [exact Hres |]. split; [exact Hpc |]. split.
  - apply Hclosed. reflexivity.
  - apply Hlogged. intros n rq Hrq. cbn. rewrite Hrq. reflexivity.
Defined.
(* ===================================================================== *)
(** * Starting a session *)
(* ===================================================================== *)

Ltac proj := cbn [vars pc SESSION_ID SESSION_TOKEN OFFER_SDP RTC_CONFIG conns
  with_vars with_page with_recv add_event bump_conns logged set_pc set_session
  fst snd].

Ltac go' := repeat (autorewrite with run; proj; cbn [get_prop]; cbv beta iota).

(** Case analysis on the next reply of the environment. *)
Ltac split_reply o :=
  match goal with
  | |- context [o ?k (CFetch ?rq)] =>
      destruct (o k (CFetch rq)) as [? | ? ?] eqn:?
  | |- context [o ?k (CNewPeerConnection ?x)] =>
      destruct (o k (CNewPeerConnection x)) as [? |] eqn:?
  | |- context [o ?k (CAddTransceiver ?x ?y)] =>
      destruct (o k (CAddTransceiver x y)) as [? |]
  | |- context [o ?k (CSetRemoteDescription ?x ?y)] =>
      destruct (o k (CSetRemoteDescription x y)) as [? |] eqn:?
  | |- context [o ?k (CCreateAnswer ?x)] =>
      destruct (o k (CCreateAnswer x)) as [? | ?] eqn:?
  | |- context [o ?k (CSetLocalDescription ?x ?y)] =>
      destruct (o k (CSetLocalDescription x y)) as [? |] eqn:?
  | |- context [o ?k (CIceGathering ?x)] =>
      destruct (o k (CIceGathering x)) as [? ?]
  | |- context [get_prop (o ?k (CLocalDescription ?x)) ?f] =>
      destruct (get_prop (o k (CLocalDescription x)) f) as [? | ?] eqn:?
  end.

(** Follow a handler down every path the environment can take it. *)
Ltac walk o :=
  go';
  try (first [ split_reply o
             | match goal with |- context [400 <=? ?x] => destruct (400 <=? x) eqn:? end ];
       walk o).

Lemma open_conns_app t ev : open_conns (t ++ [ev]) = conn_step (open_conns t) ev.
Proof. unfold open_conns. now rewrite fold_left_app. Qed.

Ltac made_conn :=
  let c := fresh "c" in let cfg := fresh "cfg" in let H := fresh "H" in
  intros c cfg H; cbn [In] in H;
  repeat (destruct H as [H | H]; [try discriminate H |]);
  try contradiction;
  try (injection H as <- <-; split;
       [reflexivity
       | cbn [trace add_event with_page with_vars bump_conns logged];
         repeat rewrite open_conns_app; cbn [conn_step In]; auto]).

(** The promise of the wait is settled by the timeout at the latest. *)
Lemma wait_events_bounded changes elapsed :
  wait_events elapsed changes <= ICE_TIMEOUT.
Proof.
  revert elapsed. induction changes as [| [dt s] rest IH]; intros elapsed; cbn.
  - reflexivity.
  - destruct (ICE_TIMEOUT <=? elapsed + dt) eqn:H; [reflexivity |].
    apply N.leb_gt in H. destruct s; auto. lia.
Qed.

Lemma ice_wait_bounded tl : ice_wait tl <= ICE_TIMEOUT.
Proof.
  unfold ice_wait. destruct (ice_initial tl); try apply wait_events_bounded.
  unfold ICE_TIMEOUT. lia.
Qed.

Ltac waited_done :=
  let ms := fresh "ms" in let H := fresh "H" in
  intros ms H; cbn [In] in H;
  repeat (destruct H as [H | H]; [try discriminate H |]);
  try contradiction;
  try (injection H as <-; apply ice_wait_bounded).

Ltac negotiation_done :=
  unfold negotiation_effect; cbn [fst snd];
  repeat apply conj;
  [ reflexivity | reflexivity | reflexivity
  | eexists; split;
    [trace_norm; first [reflexivity | symmetry; apply app_nil_r]
    | split; [made_conn | waited_done] ]
  | eexists; cbn [page uiDebug with_page with_vars add_event bump_conns logged
                  add_uiDebug set_viewerStatus set_audioGate];
    repeat rewrite <- app_assoc; try reflexivity; symmetry; apply app_nil_r
  | intros Hres;
    first [ discriminate Hres | split; reflexivity ] ].

(** However the negotiation ends, it leaves the session identifiers as
    they are, and a connection it has made is held and open. *)
Lemma negotiation_effects o n w :
  match run o n (negotiation_steps w) with
  | (res, w', _) => negotiation_effect res w w'
  end.
Proof.
  unfold negotiation_steps, replace_connection, new_RTCPeerConnection,
    await_ice_gathering. go'.
  destruct (pc (vars w)) as [c0|]; walk o.
  all: negotiation_done.
Qed.

(** The calls of a run: equations, as for [run]. *)
Section AskedEquations.

Variable o : oracle.

Lemma asked_sbind {A B : Type} (s : Susp A) (f : A -> Async B) n :
  asked o n (sbind s f) =
  asked o n s ++ match run o n s with
                 | (inr a, w, n') => asked o n' (f a w)
                 | (inl _, _, _) => []
                 end.
Proof.
  revert n. induction s as [a w | e w | c w k IH]; intros n; cbn; auto.
  f_equal. apply IH.
Qed.

Lemma asked_scatch {A : Type} (s : Susp A) (h : exn -> Async A) n :
  asked o n (scatch s h) =
  asked o n s ++ match run o n s with
                 | (inr _, _, _) => []
                 | (inl e, w, n') => asked o n' (h e w)
                 end.
Proof.
  revert n. induction s as [a w | e w | c w k IH]; intros n; cbn; auto.
  f_equal. apply IH.
Qed.

Lemma asked_bind {A B : Type} (m : Async A) (f : A -> Async B) w n :
  asked o n ((x <- m ;; f x) w) =
  asked o n (m w) ++ match run o n (m w) with
                     | (inr a, w', n') => asked o n' (f a w')
                     | (inl _, _, _) => []
                     end.
Proof. apply asked_sbind. Qed.

Lemma asked_try_catch {A : Type} (m : Async A) (h : exn -> Async A) w n :
  asked o n (try_catch m h w) =
  asked o n (m w) ++ match run o n (m w) with
                     | (inr _, _, _) => []
                     | (inl e, w', n') => asked o n' (h e w')
                     end.
Proof. apply asked_scatch. Qed.

Lemma asked_ret {A : Type} (a : A) w n : asked o n (@ret Async _ A a w) = [].
Proof. reflexivity. Qed.

Lemma asked_throw {A : Type} (e : exn) w n : asked o n (@throw A e w) = [].
Proof. reflexivity. Qed.

Lemma asked_gets {A : Type} (f : World -> A) w n : asked o n (gets f w) = [].
Proof. reflexivity. Qed.

Lemma asked_modify f w n : asked o n (modify f w) = [].
Proof. reflexivity. Qed.

Lemma asked_emit ev w n : asked o n (emit ev w) = [].
Proof. reflexivity. Qed.

Lemma asked_perform c w n : asked o n (perform c w) = [existT reply c (o n c)].
Proof. reflexivity. Qed.

Lemma asked_lift {A : Type} (x : exn + A) w n : asked o n (lift x w) = [].
Proof. destruct x; reflexivity. Qed.

Lemma asked_setStatus msg w n : asked o n (setStatus msg w) = [].
Proof. reflexivity. Qed.

Lemma asked_fetch rq w n :
  asked o n (fetch rq w) = [existT reply (CFetch rq) (o n (CFetch rq))].
Proof.
  unfold fetch. rewrite asked_bind, asked_emit, run_emit, asked_bind, asked_perform,
    run_perform.
  destruct (o n (CFetch rq)); reflexivity.
Qed.

Lemma asked_flog area message extra level w n :
  asked o n (flog area message extra level w) =
  [existT reply (CFetch (log_request area message extra level))
     (o n (CFetch (log_request area message extra level)))].
Proof.
  unfold flog, uiLog.
  rewrite asked_bind, asked_modify, run_modify, asked_try_catch, asked_bind, asked_fetch,
    run_bind, run_fetch.
  destruct (o n (CFetch _)); reflexivity.
Qed.

Lemma asked_json_or_empty r w n : asked o n (json_or_empty r w) = [].
Proof. unfold json_or_empty, json. destruct (snd r); reflexivity. Qed.

Lemma asked_the_pc w n : asked o n (the_pc w) = [].
Proof. unfold the_pc. cbn. destruct (pc (vars w)); reflexivity. Qed.

Lemma asked_may_throw r w n : asked o n (may_throw r w) = [].
Proof. destruct r; reflexivity. Qed.

Lemma asked_prop v k w n : asked o n (prop v k w) = [].
Proof. unfold prop. apply asked_lift. Qed.

Lemma asked_pc_close c w n : asked o n (pc_close c w) = [].
Proof. reflexivity. Qed.

Lemma asked_show_placeholder d w n : asked o n (Part000.show_placeholder d w) = [].
Proof. reflexivity. Qed.

End AskedEquations.

Lemma some_step_failed_app l1 l2 :
  some_step_failed (l1 ++ l2) = some_step_failed l1 || some_step_failed l2.
Proof. apply existsb_app. Qed.

(** A log request is no step of the session. *)
Lemma log_request_is_no_step area message extra level r l :
  some_step_failed (existT reply (CFetch (log_request area message extra level)) r :: l)
  = some_step_failed l.
Proof. reflexivity. Qed.

(** One equation for the calls of a run, chosen by the head of the
    handler. *)
Ltac asked1 :=
  match goal with
  | |- context [@asked ?T ?o ?n (@bind Async ?I ?A ?B ?m ?f ?w)] =>
      rewrite (@asked_bind o A B m f w n
               : @asked T o n (@bind Async I A B m f w) = _)
  | |- context [@asked ?T ?o ?n (@try_catch ?A ?m ?h ?w)] =>
      rewrite (@asked_try_catch o A m h w n : @asked T o n (@try_catch A m h w) = _)
  | |- context [@asked ?T ?o ?n (@ret Async ?I ?A ?a ?w)] =>
      rewrite (@asked_ret o A a w n : @asked T o n (@ret Async I A a w) = _)
  | |- context [@asked ?T ?o ?n (@throw ?A ?e ?w)] =>
      rewrite (@asked_throw o A e w n : @asked T o n (@throw A e w) = _)
  | |- context [@asked ?T ?o ?n (@gets ?A ?f ?w)] =>
      rewrite (@asked_gets o A f w n : @asked T o n (@gets A f w) = _)
  | |- context [@asked ?T ?o ?n (@lift ?A ?x ?w)] =>
      rewrite (@asked_lift o A x w n : @asked T o n (@lift A x w) = _)
  | |- context [asked ?o ?n (modify ?f ?w)] => rewrite (asked_modify o f w n)
  | |- context [asked ?o ?n (emit ?ev ?w)] => rewrite (asked_emit o ev w n)
  | |- context [@asked ?T ?o ?n (perform ?c ?w)] =>
      rewrite (asked_perform o c w n : @asked T o n (perform c w) = _)
  | |- context [asked ?o ?n (setStatus ?msg ?w)] => rewrite (asked_setStatus o msg w n)
  | |- context [asked ?o ?n (fetch ?rq ?w)] => rewrite (asked_fetch o rq w n)
  | |- context [asked ?o ?n (flog ?a ?m ?e ?l ?w)] => rewrite (asked_flog o a m e l w n)
  | |- context [asked ?o ?n (json_or_empty ?r ?w)] => rewrite (asked_json_or_empty o r w n)
  | |- context [asked ?o ?n (the_pc ?w)] => rewrite (asked_the_pc o w n)
  | |- context [asked ?o ?n (may_throw ?r ?w)] => rewrite (asked_may_throw o r w n)
  | |- context [asked ?o ?n (prop ?v ?k ?w)] => rewrite (asked_prop o v k w n)
  | |- context [asked ?o ?n (pc_close ?c ?w)] => rewrite (asked_pc_close o c w n)
  | |- context [asked ?o ?n (Part000.show_placeholder ?d ?w)] =>
      rewrite (asked_show_placeholder o d w n)
  end.

Ltac go_steps :=
  repeat first [progress go' | progress (repeat asked1; cbn [app]; cbv beta iota)].

Ltac walk_steps o :=
  go_steps;
  try (first [ split_reply o
             | match goal with |- context [400 <=? ?x] => destruct (400 <=? x) eqn:? end ];
       walk_steps o).

Ltac steps_done :=
  cbn [app]; repeat rewrite log_request_is_no_step;
  unfold some_step_failed;
  cbn [existsb failed_step step_fails projT1 projT2 get_prop orb];
  repeat match goal with
         | H : (400 <=? _) = _ |- _ => rewrite H
         | H : get_prop _ _ = _ |- _ => rewrite H
         end;
  reflexivity.

(** The first [try] throws exactly when the start-session request is
    refused. *)
Lemma request_start_steps o n body w :
  some_step_failed (asked o n (request_start body w)) =
  match run o n (request_start body w) with
  | (inl _, _, _) => true
  | (inr _, _, _) => false
  end.
Proof.
  unfold request_start. go_steps.
  destruct (o n (CFetch _)) as [e | st body'] eqn:Ho; go_steps; [reflexivity |].
  cbn [fst snd]. unfold some_step_failed.
  cbn [existsb failed_step step_fails projT1 projT2 rq_path String.eqb Ascii.eqb Bool.eqb
       orb].
  destruct (400 <=? st) eqn:Hst; go_steps; [reflexivity |]. cbn [orb].
  destruct body' as [j |]; cbn [has_offer].
  - destruct (get_prop j "offer_sdp") as [e | v]; go_steps; [reflexivity |].
    destruct (truthy v); go_steps; reflexivity.
  - cbn. reflexivity.
Qed.

Lemma run_replace_connection o n w :
  run o n (replace_connection w) =
  match o n (CNewPeerConnection (RTC_CONFIG (vars w))) with
  | Some e =>
      (inl e,
       match pc (vars w) with Some c => add_event (EvPcClosed c) w | None => w end,
       S n)
  | None =>
      (inr tt,
       with_vars (set_pc (Some (conns w)))
         (add_event (EvPcCreated (conns w) (RTC_CONFIG (vars w)))
            (bump_conns
               match pc (vars w) with Some c => add_event (EvPcClosed c) w | None => w end)),
       S n)
  end.
Proof.
  unfold replace_connection, new_RTCPeerConnection. go'.
  destruct (pc (vars w)) as [c0 |]; go'; destruct (o n (CNewPeerConnection _)); go';
    reflexivity.
Qed.

Lemma asked_replace_connection o n w :
  asked o n (replace_connection w) =
  [existT reply (CNewPeerConnection (RTC_CONFIG (vars w)))
     (o n (CNewPeerConnection (RTC_CONFIG (vars w))))].
Proof.
  unfold replace_connection, new_RTCPeerConnection. go_steps.
  destruct (pc (vars w)) as [c0 |]; go_steps; destruct (o n (CNewPeerConnection _));
    go_steps; reflexivity.
Qed.

(** The second [try] throws exactly when one of its steps fails. *)
Lemma negotiation_steps_fail o n w :
  some_step_failed (asked o n (negotiation_steps w)) =
  match run o n (negotiation_steps w) with
  | (inl _, _, _) => true
  | (inr _, _, _) => false
  end.
Proof.
  unfold negotiation_steps, await_ice_gathering.
  rewrite asked_bind, run_bind, asked_replace_connection, run_replace_connection.
  destruct (o n (CNewPeerConnection _)) as [e |]; [reflexivity |].
  walk_steps o.
  all: steps_done.
Qed.

Lemma get_prop_defined j k0 :
  truthy (opt_prop j k0) = true -> forall k, get_prop j k = inr (opt_prop j k).
Proof. destruct j; cbn; intros H k; try discriminate H; reflexivity. Qed.

Lemma run_adopt_session o n j w :
  truthy (opt_prop j "offer_sdp") = true ->
  run o n (adopt_session j w) = (inr tt, adopted j w, n).
Proof.
  intros H. unfold adopt_session. go.
  repeat (rewrite (get_prop_defined j "offer_sdp" H); go). reflexivity.
Qed.

Ltac fetches_only :=
  let ev := fresh "ev" in let Hev := fresh "Hev" in
  intros ev Hev; cbn [In] in Hev;
  repeat (destruct Hev as [<- | Hev]; [eexists; reflexivity |]); contradiction.

Ltac trace_extends :=
  trace_norm; first [reflexivity | symmetry; apply app_nil_r].

Ltac debug_extends :=
  eexists; page_norm; first [reflexivity | symmetry; apply app_nil_r].

Ltac untouched_done :=
  unfold untouched, same_widgets; repeat apply conj; try reflexivity;
  [eexists; split; [trace_extends | fetches_only]].

Lemma request_start_effects o n body w :
  match run o n (request_start body w) with
  | (res, w', _) =>
      untouched w w' /\
      viewerStatus (page w') = viewerStatus (page w) /\
      avatarPlaceholder (page w') = avatarPlaceholder (page w) /\
      (exists l, uiDebug (page w') = uiDebug (page w) ++ l) /\
      match res with
      | inr j => truthy (opt_prop j "offer_sdp") = true
      | inl _ => True
      end /\
      (start_refused (o n (CFetch (Request "POST" "/api/start-session" (JsonBody body)))) ->
       exists e, res = inl e)
  end.
Proof.
  unfold request_start. go.
  destruct (o n (CFetch _)) as [e | st body'] eqn:Ho; go; cbn [fst snd].
  - split; [untouched_done |]. split; [reflexivity |]. split; [reflexivity |].
    split; [debug_extends |]. split; [exact I |]. intros _. eexists; reflexivity.
  - destruct (400 <=? st) eqn:Hst; go.
    + split; [untouched_done |]. split; [reflexivity |]. split; [reflexivity |].
      split; [debug_extends |]. split; [exact I |]. intros _. eexists; reflexivity.
    + destruct body' as [j |]; cbn [snd].
      * destruct (get_prop j "offer_sdp") as [e | v] eqn:Hj; go.
        -- split; [untouched_done |]. split; [reflexivity |]. split; [reflexivity |].
           split; [debug_extends |]. split; [exact I |]. intros _. eexists; reflexivity.
        -- destruct (truthy v) eqn:Hv; go.
           ++ split; [untouched_done |]. split; [reflexivity |]. split; [reflexivity |].
              split; [debug_extends |]. split.
              ** unfold opt_prop. now rewrite Hj.
              ** cbn. rewrite Hj, Hv. apply N.leb_gt in Hst. intros [H | H]; [lia | discriminate].
           ++ split; [untouched_done |]. split; [reflexivity |]. split; [reflexivity |].
              split; [debug_extends |]. split; [exact I |]. intros _. eexists; reflexivity.
      * cbn. go.
        split; [untouched_done |]. split; [reflexivity |]. split; [reflexivity |].
        split; [debug_extends |]. split; [exact I |]. intros _. eexists; reflexivity.
Qed.

(** The first [try] throws when the request is refused, and gives the
    body of the response when it is accepted. *)
Lemma request_start_decides o n body w :
  match run o n (request_start body w) with
  | (inl _, _, _) =>
      start_refused (o n (CFetch (Request "POST" "/api/start-session" (JsonBody body))))
  | (inr j, _, _) =>
      start_accepted (o n (CFetch (Request "POST" "/api/start-session" (JsonBody body)))) j
  end.
Proof.
  unfold request_start. go.
  destruct (o n (CFetch _)) as [e | st body'] eqn:Ho; go; cbn [fst snd]; [exact I |].
  destruct (400 <=? st) eqn:Hst; go.
  - left. now apply N.leb_le.
  - apply N.leb_gt in Hst. destruct body' as [j |]; cbn [snd].
    + destruct (get_prop j "offer_sdp") as [e | v] eqn:Hj; go.
      * right. cbn. now rewrite Hj.
      * destruct (truthy v) eqn:Hv; go.
        -- exists st. split; [reflexivity |]. split; [exact Hst |]. cbn. now rewrite Hj.
        -- right. cbn. now rewrite Hj.
    + cbn. go. now right.
Qed.

Lemma start_accepted_not_refused r j : start_accepted r j -> ~ start_refused r.
Proof.
  intros (st & -> & Hst & Ho) [H | H]; [lia | congruence].
Qed.

Lemma start_answer_log area message extra level r l :
  start_answer (existT reply (CFetch (log_request area message extra level)) r :: l)
  = start_answer l.
Proof. reflexivity. Qed.

Lemma start_answer_request body r l :
  start_answer
    (existT reply (CFetch (Request "POST" "/api/start-session" (JsonBody body))) r :: l)
  = Some r.
Proof. reflexivity. Qed.

Lemma extends_refl w : extends w w.
Proof. split; exists []; symmetry; apply app_nil_r. Qed.

Lemma extends_trans a b c : extends a b -> extends b c -> extends a c.
Proof.
  intros [[l1 H1] [t1 H2]] [[l2 H3] [t2 H4]]. split.
  - exists (l1 ++ l2). now rewrite H3, H1, app_assoc.
  - exists (t1 ++ t2). now rewrite H4, H2, app_assoc.
Qed.

Lemma extends_logged a m e l w : extends w (logged a m e l w).
Proof. split; eexists; reflexivity. Qed.

Lemma extends_page f w :
  uiDebug (f (page w)) = uiDebug (page w) -> extends w (with_page f w).
Proof. intros H. split; [exists [] | exists []]; cbn; rewrite ?H; symmetry; apply app_nil_r. Qed.

Lemma extends_vars f w : extends w (with_vars f w).
Proof. split; exists []; symmetry; apply app_nil_r. Qed.

Lemma untouched_extends a b :
  untouched a b -> (exists l, uiDebug (page b) = uiDebug (page a) ++ l) -> extends a b.
Proof. intros (_ & _ & _ & (t & Ht & _) & _) Hl. split; [exact Hl | now exists t]. Qed.

Lemma untouched_refl w : untouched w w.
Proof.
  unfold untouched, same_widgets. repeat apply conj; try reflexivity.
  exists []. split; [symmetry; apply app_nil_r | intros ev []].
Qed.

Lemma untouched_trans a b c : untouched a b -> untouched b c -> untouched a c.
Proof.
  intros (Hv1 & Hr1 & Hc1 & (t1 & Ht1 & Hf1) & Hw1) (Hv2 & Hr2 & Hc2 & (t2 & Ht2 & Hf2) & Hw2).
  unfold untouched. split; [congruence |]. split; [congruence |].
  split; [congruence |]. split.
  - exists (t1 ++ t2). split; [now rewrite Ht2, Ht1, app_assoc |].
    intros ev Hev. apply in_app_or in Hev as [Hev | Hev]; auto.
  - unfold same_widgets in *. intuition congruence.
Qed.

Lemma untouched_logged a m e l w : untouched w (logged a m e l w).
Proof. untouched_done. Qed.

Lemma untouched_status s w : untouched w (with_page (set_viewerStatus s) w).
Proof. untouched_done. Qed.

Lemma untouched_placeholder s w : untouched w (with_page (set_avatarPlaceholder s) w).
Proof. untouched_done. Qed.

Lemma error_logged_here m e w w2 :
  extends w w2 ->
  error_logged m e w (logged "viewer" m [("err", VStr (String_of_exn e))] ERROR w2).
Proof.
  intros [[l Hl] [t Ht]]. split.
  - exists (l ++ [LogLine "viewer" m [("err", VStr (String_of_exn e))]]). split.
    + cbn. now rewrite Hl, app_assoc.
    + apply in_or_app. right. now left.
  - eexists. split.
    + cbn. rewrite Ht, <- app_assoc. reflexivity.
    + apply in_or_app. right. now left.
Qed.

Lemma error_logged_later m e w w2 w3 :
  error_logged m e w w2 ->
  uiDebug (page w3) = uiDebug (page w2) -> trace w3 = trace w2 ->
  error_logged m e w w3.
Proof. intros [H1 H2] Hd Ht. unfold error_logged. now rewrite Hd, Ht. Qed.

Lemma frontend_is_core w :
  Frontend.startSession w =
  (body <- gets Frontend.start_body ;;
   flog "viewer" "Start button pressed" body INFO ;;
   setStatus status_requesting ;;
   start_core (ret tt) body) w.
Proof. reflexivity. Qed.

Lemma part000_is_core w :
  Part000.startSession w =
  (Part000.show_placeholder "none" ;;
   body <- gets Part000.start_body ;;
   flog "viewer" "Start button pressed" body INFO ;;
   setStatus status_requesting ;;
   start_core (Part000.show_placeholder "") body) w.
Proof. reflexivity. Qed.

Lemma extends_adopted j w : extends w (adopted j w).
Proof. split; exists []; cbn; symmetry; apply app_nil_r. Qed.

Lemma asked_adopt_session o n j w : asked o n (adopt_session j w) = [].
Proof.
  unfold adopt_session.
  repeat (go_steps;
          try match goal with
              | |- context [get_prop ?v ?k] => destruct (get_prop v k)
              end);
    reflexivity.
Qed.

(** A step of [startSession] fails exactly when one of its two [try]
    blocks throws. *)
Lemma start_core_steps o n restore r body w :
  (forall n w, run o n (restore w) = (inr tt, r w, n)) ->
  (forall n w, asked o n (restore w) = []) ->
  some_step_failed (asked o n (start_core restore body w)) =
  match run o n (request_start body w) with
  | (inl _, _, _) => true
  | (inr j, w1, n1) =>
      match run o n1 (negotiation_steps (adopted j w1)) with
      | (inl _, _, _) => true
      | (inr _, _, _) => false
      end
  end.
Proof.
  intros Hrun Hquiet. unfold start_core.
  rewrite asked_bind, asked_try_catch, asked_bind, run_try_catch, run_bind.
  rewrite !some_step_failed_app, request_start_steps.
  pose proof (request_start_effects o n body w) as HA.
  destruct (run o n (request_start body w)) as [[[e | j] w1] n1];
    destruct HA as (_ & _ & _ & _ & Hoffer & _).
  - reflexivity.
  - go_steps. rewrite asked_adopt_session, (run_adopt_session o n1 j w1 Hoffer).
    cbv beta iota. cbn [app orb].
    rewrite asked_try_catch, some_step_failed_app, negotiation_steps_fail.
    destruct (run o n1 (negotiation_steps (adopted j w1))) as [[[e | []] w2] n2].
    + reflexivity.
    + reflexivity.
Qed.

(** The start-session request of a run is the first call of its first
    [try]. *)
Lemma start_core_answer o n restore body w :
  start_answer (asked o n (start_core restore body w)) =
  Some (o n (CFetch (Request "POST" "/api/start-session" (JsonBody body)))).
Proof.
  unfold start_core, request_start.
  rewrite asked_bind, asked_try_catch, asked_bind, asked_bind, asked_fetch.
  cbn [app]. apply start_answer_request.
Qed.

Lemma start_result_same_failures steps steps' r w w' :
  some_step_failed steps' = some_step_failed steps ->
  start_result steps r w w' -> start_result steps' r w w'.
Proof.
  intros Hs [j Ha Hf Hst Hg Hh | e Hr Hf Hst Hl Hu | e j Ha Hf Hst Hl Hh];
    rewrite <- Hs in Hf.
  - now apply went_through with (j := j).
  - now apply request_failed with (e := e).
  - now apply negotiation_failed with (e := e) (j := j).
Qed.

Lemma start_core_result o n restore r body w0 w :
  (forall n w, run o n (restore w) = (inr tt, r w, n)) ->
  (forall n w, asked o n (restore w) = []) ->
  keeps_all_but_placeholder r ->
  untouched w0 w -> extends w0 w ->
  match run o n (start_core restore body w) with
  | (res, w', _) =>
      res = inr tt /\
      start_result (asked o n (start_core restore body w))
        (o n (CFetch (Request "POST" "/api/start-session" (JsonBody body)))) w0 w' /\
      (viewerStatus (page w') = status_waiting_media \/ exists w2, w' = r w2) /\
      (start_refused (o n (CFetch (Request "POST" "/api/start-session" (JsonBody body)))) ->
       viewerStatus (page w') = status_init_error_start /\ untouched w0 w' /\
       exists w2, w' = r w2 /\ avatarPlaceholder (page w2) = avatarPlaceholder (page w))
  end.
Proof.
  intros Hrestore Hquiet Hr Hu He.
  pose proof (@start_core_steps o n restore r body w Hrestore Hquiet) as Hsteps.
  set (steps := asked o n (start_core restore body w)) in *.
  unfold start_core.
  rewrite run_bind, run_try_catch, run_bind.
  pose proof (request_start_effects o n body w) as HA.
  pose proof (request_start_decides o n body w) as HD.
  destruct (run o n (request_start body w)) as [[[e | j] w1] n1];
    destruct HA as (Hu1 & Hs1 & Hp1 & Hd1 & Hoffer & Hrefused).
  - (* the first catch *)
    go. rewrite Hrestore. go.
    destruct (Hr (with_page (set_viewerStatus status_init_error_start)
                 (logged "viewer" "start-session failed"
                    [("err", VStr (String_of_exn e))] ERROR w1)))
      as (Hrv & Hrt & Hrd & Hrs & Hru).
    assert (Hunt : untouched w0
              (r (with_page (set_viewerStatus status_init_error_start)
                    (logged "viewer" "start-session failed"
                       [("err", VStr (String_of_exn e))] ERROR w1)))).
    { eapply untouched_trans; [exact Hu |].
      eapply untouched_trans; [exact Hu1 |].
      eapply untouched_trans; [apply untouched_logged |].
      eapply untouched_trans; [apply untouched_status | exact Hru]. }
    split; [reflexivity |]. split; [| split; [right; eexists; reflexivity |]].
    + apply request_failed with (e := e).
      * exact HD.
      * exact Hsteps.
      * rewrite Hrs. reflexivity.
      * eapply error_logged_later; [| exact Hrd | exact Hrt].
        eapply error_logged_later;
          [apply error_logged_here | reflexivity | reflexivity].
        eapply extends_trans; [exact He |]. now apply untouched_extends.
      * exact Hunt.
    + intros _. split; [rewrite Hrs; reflexivity |]. split; [exact Hunt |].
      eexists. split; [reflexivity | exact Hp1].
  - (* the session is adopted *)
    assert (He2 : extends w0 (adopted j w1)).
    { eapply extends_trans; [exact He |].
      eapply extends_trans; [apply (untouched_extends Hu1 Hd1) |].
      apply extends_adopted. }
    go. rewrite (run_adopt_session o n1 j w1 Hoffer). cbv beta iota.
    rewrite run_try_catch.
    pose proof (negotiation_effects o n1 (adopted j w1)) as HB.
    destruct (untouched_trans Hu Hu1) as (_ & _ & _ & (t0 & Ht0 & Hf0) & _).
    destruct (run o n1 (negotiation_steps (adopted j w1))) as [[[e | []] w2] n2];
      destruct HB as (Hid & Htok & Hoff & (t & Ht & Hmade & _) & Hdbg & Hok).
    + (* the second catch *)
      go. rewrite Hrestore.
      destruct (Hr (with_page (set_viewerStatus status_init_error_webrtc)
                 (logged "viewer" "webrtc/start error"
                    [("err", VStr (String_of_exn e))] ERROR w2)))
        as (Hrv & Hrt & Hrd & Hrs & Hru).
      split; [reflexivity |]. split; [| split; [right; eexists; reflexivity |]].
      * apply negotiation_failed with (e := e) (j := j).
        -- exact HD.
        -- exact Hsteps.
        -- rewrite Hrs. reflexivity.
        -- eapply error_logged_later; [| exact Hrd | exact Hrt].
           eapply error_logged_later;
             [apply error_logged_here | reflexivity | reflexivity].
           eapply extends_trans; [exact He2 |].
           split; [exact Hdbg | now exists t].
        -- unfold left_half_way. rewrite Hrv, Hrt. cbn [vars with_page logged add_event trace].
           rewrite Hid, Htok, Hoff.
           split; [exact Hoffer |]. split; [reflexivity |]. split; [reflexivity |].
           split; [reflexivity |].
           exists (t0 ++ t ++ [EvFetch (log_request "viewer" "webrtc/start error"
                                          [("err", VStr (String_of_exn e))] ERROR)]).
           split.
           ++ rewrite Ht. change (trace (adopted j w1)) with (trace w1).
              rewrite Ht0. now rewrite <- !app_assoc.
           ++ intros c cfg Hin. rewrite open_conns_app. cbn [conn_step].
              apply in_app_or in Hin as [Hin | Hin].
              { apply Hf0 in Hin as [rq Hrq]. discriminate Hrq. }
              apply in_app_or in Hin as [Hin | [Hin | []]]; [| discriminate Hin].
              now apply Hmade in Hin.
      * intros Href. apply Hrefused in Href as [e' He']. discriminate He'.
    + (* all the way *)
      destruct (Hok eq_refl) as (Hst & Hgate).
      split; [reflexivity |]. split; [| split; [left; exact Hst |]].
      * apply went_through with (j := j); [exact HD | exact Hsteps | exact Hst | exact Hgate |].
        unfold left_half_way. rewrite Hid, Htok, Hoff.
        split; [exact Hoffer |]. split; [reflexivity |]. split; [reflexivity |].
        split; [reflexivity |].
        exists (t0 ++ t). split.
        -- rewrite Ht. change (trace (adopted j w1)) with (trace w1).
           rewrite Ht0. now rewrite <- !app_assoc.
        -- intros c cfg Hin. apply in_app_or in Hin as [Hin | Hin].
           { apply Hf0 in Hin as [rq Hrq]. discriminate Hrq. }
           now apply Hmade in Hin.
      * intros Href. apply Hrefused in Href as [e' He']. discriminate He'.
Qed.

Lemma keeps_id : keeps_all_but_placeholder (fun w => w).
Proof. intros w. repeat split; try reflexivity. apply untouched_refl. Qed.

Lemma keeps_placeholder s :
  keeps_all_but_placeholder (with_page (set_avatarPlaceholder s)).
Proof. intros w. repeat split; try reflexivity. apply untouched_placeholder. Qed.

Lemma frontend_start o w :
  match run o 0 (Frontend.startSession w) with
  | (res, w', _) =>
      res = inr tt /\
      (exists r, start_answer (asked o 0 (Frontend.startSession w)) = Some r /\
         start_result (asked o 0 (Frontend.startSession w)) r w w') /\
      (answers o "/api/start-session" start_refused ->
       viewerStatus (page w') = status_init_error_start /\ untouched w w' /\
       avatarPlaceholder (page w') = avatarPlaceholder (page w))
  end.
Proof.
  set (w1 := with_page (set_viewerStatus status_requesting)
               (logged "viewer" "Start button pressed" (Frontend.start_body w) INFO w)).
  assert (Hsame : some_step_failed (asked o 0 (Frontend.startSession w)) =
                  some_step_failed
                    (asked o 1 (start_core (@ret Async _ unit tt) (Frontend.start_body w) w1))).
  { rewrite frontend_is_core. go_steps. reflexivity. }
  assert (Hans : start_answer (asked o 0 (Frontend.startSession w)) =
                 Some (o 1%nat (CFetch (Request "POST" "/api/start-session"
                                          (JsonBody (Frontend.start_body w)))))).
  { rewrite frontend_is_core. go_steps. rewrite start_answer_log.
    apply start_core_answer. }
  set (steps := asked o 0 (Frontend.startSession w)) in *.
  rewrite frontend_is_core. go. fold w1.
  assert (Hu : untouched w w1).
  { eapply untouched_trans; [apply untouched_logged | apply untouched_status]. }
  assert (He : extends w w1).
  { split; eexists; cbn; reflexivity. }
  pose proof (@start_core_result o 1 (@ret Async _ unit tt) (fun w => w) (Frontend.start_body w) w w1
                (fun _ _ => eq_refl) (fun _ _ => eq_refl) keeps_id Hu He) as H.
  destruct (run o 1 _) as [[res w'] n'].
  destruct H as (Hres & Hsr & _ & Href).
  split; [exact Hres |]. split.
  { eexists. split; [exact Hans |].
    exact (@start_result_same_failures _ _ _ _ _ Hsame Hsr). }
  intros Ha. destruct Href as (Hs & Hun & w2 & -> & Hp); [apply Ha; reflexivity |].
  split; [exact Hs |]. split; [exact Hun |]. rewrite Hp. reflexivity.
Qed.

Lemma part000_start o w :
  match run o 0 (Part000.startSession w) with
  | (res, w', _) =>
      res = inr tt /\
      (exists r, start_answer (asked o 0 (Part000.startSession w)) = Some r /\
         start_result (asked o 0 (Part000.startSession w)) r w w') /\
      (viewerStatus (page w') = status_waiting_media \/ avatarPlaceholder (page w') = []) /\
      (answers o "/api/start-session" start_refused ->
       viewerStatus (page w') = status_init_error_start /\ untouched w w' /\
       avatarPlaceholder (page w') = [])
  end.
Proof.
  set (w1 := with_page (set_viewerStatus status_requesting)
               (logged "viewer" "Start button pressed"
                  (Part000.start_body (with_page (set_avatarPlaceholder (lit "none")) w))
                  INFO (with_page (set_avatarPlaceholder (lit "none")) w))).
  assert (Hsame : some_step_failed (asked o 0 (Part000.startSession w)) =
                  some_step_failed
                    (asked o 1 (start_core (Part000.show_placeholder "")
                       (Part000.start_body (with_page (set_avatarPlaceholder (lit "none")) w))
                       w1))).
  { rewrite part000_is_core. go_steps. reflexivity. }
  assert (Hans : start_answer (asked o 0 (Part000.startSession w)) =
                 Some (o 1%nat
                         (CFetch (Request "POST" "/api/start-session"
                            (JsonBody (Part000.start_body
                               (with_page (set_avatarPlaceholder (lit "none")) w))))))).
  { rewrite part000_is_core. go_steps. rewrite start_answer_log.
    apply start_core_answer. }
  set (steps := asked o 0 (Part000.startSession w)) in *.
  rewrite part000_is_core. go. fold w1.
  assert (Hu : untouched w w1).
  { eapply untouched_trans; [apply untouched_placeholder |].
    eapply untouched_trans; [apply untouched_logged | apply untouched_status]. }
  assert (He : extends w w1).
  { split; eexists; cbn; reflexivity. }
  pose proof (@start_core_result o 1 (Part000.show_placeholder "")
                (with_page (set_avatarPlaceholder (lit "")))
                (Part000.start_body (with_page (set_avatarPlaceholder (lit "none")) w))
                w w1
                (fun _ _ => eq_refl) (fun _ _ => eq_refl) (keeps_placeholder _) Hu He) as H.
  destruct (run o 1 _) as [[res w'] n'].
  destruct H as (Hres & Hsr & Hph & Href).
  split; [exact Hres |]. split.
  { eexists. split; [exact Hans |].
    exact (@start_result_same_failures _ _ _ _ _ Hsame Hsr). }
  split.
  - destruct Hph as [Hph | [w2 ->]]; [now left | now right].
  - intros Ha. destruct Href as (Hs & Hun & w2 & -> & Hp); [apply Ha; reflexivity |].
    split; [exact Hs |]. split; [exact Hun |]. reflexivity.
Qed.

Lemma untouched_idle w w' : untouched w w' -> idle w -> idle w'.
Proof.
  intros (Hv & _ & _ & (t & Ht & Hf) & _) ((Hid & Htok) & Hpc & Hopen).
  unfold idle, no_session. rewrite Hv. repeat split; try assumption.
  rewrite Ht. clear Ht. induction t as [| ev t IH] using rev_ind.
  - now rewrite app_nil_r.
  - rewrite app_assoc, open_conns_app.
    rewrite IH by (intros x Hx; apply Hf, in_or_app; now left).
    destruct (Hf ev) as [rq ->]; [apply in_or_app; right; now left | reflexivity].
Qed.


Lemma start_result_failed steps r w w' :
  start_result steps r w w' ->
  (some_step_failed steps = true <-> start_failed w') /\
  (start_refused r <-> viewerStatus (page w') = status_init_error_start).
Proof.
  intros [j Ha Hf Hst _ _ | e Hr Hf Hst _ _ | e j Ha Hf Hst _ _];
    unfold start_failed; rewrite Hst, Hf; split.
  - split; [discriminate |]. intros [H | H]; vm_compute in H; discriminate H.
  - split; [intros H; now apply start_accepted_not_refused in Ha |].
    intros H; vm_compute in H; discriminate H.
  - split; [now left | reflexivity].
  - split; [reflexivity | intros _; exact Hr].
  - split; [now right | reflexivity].
  - split; [intros H; now apply start_accepted_not_refused in Ha |].
    intros H; vm_compute in H; discriminate H.
Qed.




(* ===================================================================== *)
(** * What every run of a handler leaves: rules *)
(* ===================================================================== *)

Section Always.

Variable R : World -> World -> Prop.
Hypothesis R_refl : forall w, R w w.
Hypothesis R_trans : forall a b c, R a b -> R b c -> R a c.

Lemma always_bind {A B} (m : Async A) (f : A -> Async B) :
  always R m -> (forall a, always R (f a)) -> always R (x <- m ;; f x).
Proof.
  intros Hm Hf o n w. rewrite run_bind. specialize (Hm o n w).
  destruct (run o n (m w)) as [[[e | a] w1] n1]; cbn [fst snd] in *; [exact Hm |].
  eapply R_trans; [exact Hm | apply Hf].
Qed.

Lemma always_try_catch {A} (m : Async A) (h : exn -> Async A) :
  always R m -> (forall e, always R (h e)) -> always R (try_catch m h).
Proof.
  intros Hm Hh o n w. rewrite run_try_catch. specialize (Hm o n w).
  destruct (run o n (m w)) as [[[e | a] w1] n1]; cbn [fst snd] in *; [| exact Hm].
  eapply R_trans; [exact Hm | apply Hh].
Qed.

Lemma always_try_finally {A} (m : Async A) (fin : Async unit) :
  always R m -> always R fin -> always R (try_finally m fin).
Proof.
  intros Hm Hf o n w. rewrite run_try_finally. specialize (Hm o n w).
  destruct (run o n (m w)) as [[[e | a] w1] n1]; cbn [fst snd] in *;
    specialize (Hf o n1 w1);
    destruct (run o n1 (fin w1)) as [[[e' | u] w2] n2]; cbn [fst snd] in *;
    eapply R_trans; eauto.
Qed.

Lemma always_ret {A} (a : A) : always R (ret a).
Proof. intros o n w. apply R_refl. Qed.

Lemma always_throw {A} (e : exn) : always R (@throw A e).
Proof. intros o n w. apply R_refl. Qed.

Lemma always_gets {A} (f : World -> A) : always R (gets f).
Proof. intros o n w. apply R_refl. Qed.

Lemma always_lift {A} (x : exn + A) : always R (lift x).
Proof. intros o n w. rewrite run_lift. apply R_refl. Qed.

Lemma always_perform c : always R (perform c).
Proof. intros o n w. apply R_refl. Qed.

Lemma always_modify f : (forall w, R w (f w)) -> always R (modify f).
Proof. intros H o n w. apply H. Qed.

Lemma always_emit ev : (forall w, R w (add_event ev w)) -> always R (emit ev).
Proof. intros H o n w. apply H. Qed.

Lemma always_fetch rq : (forall w, R w (add_event (EvFetch rq) w)) -> always R (fetch rq).
Proof.
  intros H o n w. rewrite run_fetch. destruct (o n (CFetch rq)); apply H.
Qed.

Lemma always_flog a m e l :
  (forall w, R w (logged a m e l w)) -> always R (flog a m e l).
Proof. intros H o n w. rewrite run_flog. apply H. Qed.

Lemma always_json r : always R (json r).
Proof. intros o n w. unfold json. destruct (snd r); apply R_refl. Qed.

Lemma always_json_or_empty r : always R (json_or_empty r).
Proof. intros o n w. rewrite run_json_or_empty. apply R_refl. Qed.

Lemma always_the_pc : always R the_pc.
Proof. intros o n w. rewrite run_the_pc. apply R_refl. Qed.

Lemma always_may_throw r : always R (may_throw r).
Proof. intros o n w. rewrite run_may_throw. apply R_refl. Qed.

Lemma always_prop v k : always R (prop v k).
Proof. intros o n w. rewrite run_prop. apply R_refl. Qed.

(** The same from one state only, for a handler that has read the state
    and goes on with what it read. *)
Lemma always_bind_gets {A B} (g : World -> A) (f : A -> Async B) :
  (forall w0, always_at w0 R (f (g w0))) -> always R (x <- gets g ;; f x).
Proof. intros H o n w. rewrite run_bind, run_gets. apply H. Qed.

Lemma always_at_bind {A B} w0 (m : Async A) (f : A -> Async B) :
  always_at w0 R m -> (forall a, always R (f a)) -> always_at w0 R (x <- m ;; f x).
Proof.
  intros Hm Hf o n. rewrite run_bind. specialize (Hm o n).
  destruct (run o n (m w0)) as [[[e | a] w1] n1]; cbn [fst snd] in *; [exact Hm |].
  eapply R_trans; [exact Hm | apply Hf].
Qed.

Lemma always_at_bind_same {A B} w0 (m : Async A) (f : A -> Async B) :
  (forall o n, snd (fst (run o n (m w0))) = w0) ->
  (forall a, always_at w0 R (f a)) -> always_at w0 R (x <- m ;; f x).
Proof.
  intros Hm Hf o n. rewrite run_bind. specialize (Hm o n).
  destruct (run o n (m w0)) as [[[e | a] w1] n1]; cbn [fst snd] in *; subst w1.
  - apply R_refl.
  - apply Hf.
Qed.

Lemma always_at_bind_gets {A B} w0 (g : World -> A) (f : A -> Async B) :
  always_at w0 R (f (g w0)) -> always_at w0 R (x <- gets g ;; f x).
Proof. intros H o n. rewrite run_bind, run_gets. apply H. Qed.

Lemma always_at_any {A} w0 (m : Async A) : always R m -> always_at w0 R m.
Proof. intros H o n. apply H. Qed.

End Always.

Create HintDb always.

(** One statement of a handler, for a relation that is reflexive ([rf])
    and transitive ([tr]) and holds of the single steps ([stp]). *)
Ltac always1 rf tr stp :=
  lazymatch goal with
  | |- always _ (setStatus _) => apply always_modify; stp
  | |- always _ (flog _ _ _ _) => apply always_flog; stp
  | |- always _ (fetch _) => apply always_fetch; stp
  | |- always _ (fetch_and_forget _) => apply always_emit; stp
  | |- always _ (json_or_empty _) => apply always_json_or_empty; exact rf
  | |- always _ (json _) => apply always_json; exact rf
  | |- always _ the_pc => apply always_the_pc; exact rf
  | |- always _ (may_throw _) => apply always_may_throw; exact rf
  | |- always _ (prop _ _) => apply always_prop; exact rf
  | |- always _ (Part000.show_placeholder _) => apply always_modify; stp
  | |- always _ (ret _) => apply always_ret; exact rf
  | |- always _ (throw _) => apply always_throw; exact rf
  | |- always _ (gets _) => apply always_gets; exact rf
  | |- always _ (lift _) => apply always_lift; exact rf
  | |- always _ (perform _) => apply always_perform; exact rf
  | |- always _ (emit _) => apply always_emit; stp
  | |- always _ (modify _) => apply always_modify; stp
  | |- always _ (bind _ _) => apply always_bind; [exact tr | |]
  | |- always _ (try_catch _ _) => apply always_try_catch; [exact tr | |]
  | |- always _ (not_awaited _) => apply always_try_catch; [exact tr | |]
  | |- always _ (try_finally _ _) => apply always_try_finally; [exact tr | |]
  | |- always _ (if ?b then _ else _) => destruct b
  | |- always _ (match ?x with _ => _ end) => destruct x
  | |- always _ _ => solve [auto 1 with always nocore]
  | |- _ => intro; cbv beta zeta
  end.
(* ===================================================================== *)
(** * The input bridge *)
(* ===================================================================== *)

Lemma edit_text v : trim_of (js_or (VStr v) (VStr [])) = inr (trim v).
Proof. destruct v; reflexivity. Qed.

Lemma truthy_text s : truthy (VStr s) = false <-> s = [].
Proof. destruct s; cbn; split; intros H; congruence. Qed.

(** C6.  The send handler reads the edit field and trims it.  With
    nothing left, it ends at once and the page is as it was; with text
    but no session (id and token are not both set) it ends at once
    having only set the status: in both cases no request of any kind is
    made.  With text and a session it logs and then posts one send-task
    request that carries the session's id and token and the trimmed
    text as it is; nothing it does afterwards is a send-task request. *)
Theorem direct_send_only_with_session_and_text :
  forall (o : oracle) (w : World),
    let text := trim (editBox (page w)) in
    (text = [] -> sendBtn_click w = Finished tt w) /\
    (text <> [] -> session_active w = false ->
     sendBtn_click w = Finished tt (with_page (set_viewerStatus status_start_first) w)) /\
    (text <> [] -> session_active w = true ->
     exists t,
       trace (exec o sendBtn_click w) =
         trace w ++ EvFetch (send_log text) :: EvFetch (send_task_request w text) :: t /\
       forall ev, In ev t -> is_send_task ev = false).
Proof.
  intros o w text. unfold sendBtn_click.
  repeat apply conj.
  - intros Ht. cbn. rewrite edit_text. fold text. rewrite Ht. reflexivity.
  - intros Ht Hs. cbn -[session_active]. rewrite edit_text. fold text. cbn -[session_active].
    destruct text; [congruence |]. cbn -[session_active]. rewrite Hs. reflexivity.
  - intros Ht Hs. unfold exec. go. rewrite edit_text. fold text. go.
    destruct text as [| c text'] eqn:Etext; [congruence |]. cbn [truthy negb]. go.
    rewrite Hs. cbn [negb]. go.
    destruct (o 1%nat (CFetch _)) as [e | st body]; go; cbn [fst snd].
    + exists []. split; [trace_norm; reflexivity | intros ev []].
    + eexists. split; [trace_norm; reflexivity |].
      intros ev [<- | []]. reflexivity.
Qed.

(** The theorem on a fresh page, where nothing is typed, and on a page
    with a session running and "Hello" typed in. *)
Lemma direct_send_witness :
  sendBtn_click initial_world = Finished tt initial_world /\
  exists t,
    trace (exec all_well sendBtn_click in_session) =
      trace in_session
        ++ EvFetch (send_log (trim (editBox (page in_session))))
        :: EvFetch (send_task_request in_session (trim (editBox (page in_session))))
        :: t /\
    forall ev, In ev t -> is_send_task ev = false.
Proof.
  destruct (direct_send_only_with_session_and_text all_well initial_world) as (H1 & _ & _).
  destruct (direct_send_only_with_session_and_text all_well in_session) as (_ & _ & H3).
  split.
  - apply H1. reflexivity.
  - apply H3; [vm_compute; discriminate | reflexivity].
Defined.

Lemma show_and_forward_blank w : show_and_forward [] w = Finished tt w.
Proof. reflexivity. Qed.

Lemma run_reply_step_blank o n s w :
  trim s = [] ->
  run o n (reply_step (VStr s) w) =
  (inr tt, with_page (set_viewerStatus status_ready) w, n).
Proof.
  intros H. unfold reply_step, show_and_forward. go. cbn [trim_of]. rewrite H. go.
  reflexivity.
Qed.

Lemma run_reply_step_shown o n s w :
  trim s <> [] ->
  run o n (reply_step (VStr s) w) = (inr tt, shown (trim s) w, n).
Proof.
  intros H. unfold reply_step, show_and_forward, shown. go. cbn [trim_of].
  destruct (trim s) as [| c r]; [congruence |]. go. cbn [truthy].
  go. change (session_active (with_page (set_editBox (c :: r)) w)) with (session_active w).
  destruct (session_active w); go; reflexivity.
Qed.

Lemma replies_object j s : replies j s -> exists fs, j = VObj fs.
Proof. unfold replies. destruct j; cbn; intros H; try discriminate H. eauto. Qed.

Lemma frontend_reply_value j s :
  replies j s ->
  (if truthy (js_and j (opt_prop j "response")) then opt_prop j "response" else VStr [])
  = VStr s.
Proof.
  intros H. destruct (replies_object H) as [fs ->]. unfold replies in H.
  rewrite H. cbn. destruct s; reflexivity.
Qed.

Lemma part000_reply_value j s :
  replies j s ->
  get_prop j "response" = inr (VStr s) /\ js_or (VStr s) (VStr []) = VStr s.
Proof.
  intros H. destruct (replies_object H) as [fs ->]. unfold replies in H.
  cbn in *. rewrite H. split; [reflexivity | destruct s; reflexivity].
Qed.

(** What the first script takes for the reply of a body whose reply is
    blank: a string with nothing but white space. *)
Lemma frontend_blank_value j :
  blank_reply j ->
  exists s0,
    (if truthy (js_and j (opt_prop j "response")) then opt_prop j "response" else VStr [])
    = VStr s0 /\ trim s0 = [].
Proof.
  unfold blank_reply, js_and. intros H.
  destruct (truthy j) eqn:Hj.
  - destruct (opt_prop j "response") as [| | b | n | m e | s | fs | l];
      try (rewrite H; exists []; split; reflexivity);
      try (exists []; split; reflexivity).
    destruct s as [| c s]; [exists []; split; reflexivity |].
    exists (c :: s). split; [reflexivity | exact H].
  - cbv iota. rewrite Hj. exists []. split; reflexivity.
Qed.

(** The same in the second script, when the body is one that has
    properties. *)
Lemma part000_blank_value j resp :
  blank_reply j -> get_prop j "response" = inr resp ->
  exists s0, js_or resp (VStr []) = VStr s0 /\ trim s0 = [].
Proof.
  unfold blank_reply, opt_prop, js_or. intros H Hr. rewrite Hr in H.
  destruct resp as [| | b | n | m e | s | fs | l];
    try (rewrite H; exists []; split; reflexivity);
    try (exists []; split; reflexivity).
  destruct s as [| c s]; [exists []; split; reflexivity |].
  exists (c :: s). split; [reflexivity | exact H].
Qed.

Lemma chat_request_text text :
  chat_request text =
  Request "POST" "/api/chat"
    (FormBody [("text",
                FText (USVString (match text with [] => lit "Hello" | _ => text end)))]).
Proof. destruct text; reflexivity. Qed.

Lemma frontend_chat_run o w st json s0 :
  answers o "/api/chat" (eq (Response st json)) ->
  (if truthy (js_and (body_or_empty json) (opt_prop (body_or_empty json) "response"))
   then opt_prop (body_or_empty json) "response" else VStr []) = VStr s0 ->
  exists w1,
    editBox (page w1) = editBox (page w) /\ vars w1 = vars w /\
    session_active w1 = session_active w /\
    (exists t, trace w1 = trace w ++ t /\ no_send_task t) /\
    exec o Frontend.gptBtn_click w =
      if 400 <=? st
      then with_page (set_viewerStatus (lit "OpenAI error (see debug box)")) w1
      else if match trim s0 with [] => true | _ => false end
           then with_page (set_viewerStatus status_ready) w1
           else shown (trim s0) w1.
Proof.
  intros Ha Hj. unfold exec, Frontend.gptBtn_click. go. rewrite edit_text. go.
  set (text := trim (editBox (page w))).
  destruct (negb (truthy (VStr text))); go;
    rewrite <- (Ha 1%nat (chat_request text) eq_refl); go; cbn [fst snd];
    change (match json with Some j => j | None => VObj [] end) with (body_or_empty json);
    rewrite Hj;
    (eexists; split; [| split; [| split; [| split]]];
     [ | | |
     | destruct (400 <=? st); go; [reflexivity |];
       destruct (trim s0) eqn:Hs;
       [rewrite run_reply_step_blank by exact Hs
       | rewrite run_reply_step_shown by (rewrite Hs; discriminate); rewrite Hs];
       reflexivity ];
     [ reflexivity | reflexivity | reflexivity
     | eexists; split; [trace_norm; reflexivity |];
       intros ev Hev; cbn [In] in Hev;
       repeat (destruct Hev as [<- | Hev]; [reflexivity |]); contradiction ]).
Qed.

Lemma length_or_empty t :
  js_length (js_or (VStr t) (VStr [])) = inr (VNum (Z.of_nat (List.length t))).
Proof. destruct t; reflexivity. Qed.

Lemma part000_chat_run o w st j resp s0 :
  answers o "/api/chat" (eq (Response st (Some j))) ->
  get_prop j "response" = inr resp ->
  js_or resp (VStr []) = VStr s0 ->
  exists w1,
    editBox (page w1) = editBox (page w) /\ vars w1 = vars w /\
    session_active w1 = session_active w /\
    (exists t, trace w1 = trace w ++ t /\ no_send_task t) /\
    exec o Part000.gptBtn_click w =
      if match trim s0 with [] => true | _ => false end
      then with_page (set_viewerStatus status_ready) w1
      else shown (trim s0) w1.
Proof.
  intros Ha Hj Hr. unfold exec, Part000.gptBtn_click. go. rewrite edit_text. go.
  set (text := trim (editBox (page w))).
  rewrite length_or_empty. go.
  rewrite <- (Ha 1%nat (chat_request text) eq_refl). go.
  unfold json. cbn [fst snd]. go.
  unfold opt_prop.
  repeat first [rewrite Hj | rewrite Hr | progress go | progress cbn [js_length]].
  eexists; split; [| split; [| split; [| split]]];
     [ | | |
     | destruct (trim s0) eqn:Hs;
       [rewrite run_reply_step_blank by exact Hs
       | rewrite run_reply_step_shown by (rewrite Hs; discriminate); rewrite Hs];
       reflexivity ];
     [ reflexivity | reflexivity | reflexivity
     | eexists; split; [trace_norm; reflexivity |];
       intros ev Hev; cbn [In] in Hev;
       repeat (destruct Hev as [<- | Hev]; [reflexivity |]); contradiction ].
Qed.

(** The second script on a body that is not JSON, or that is [null]:
    the [try] throws before the reply is looked at. *)
Lemma part000_chat_caught o w st bd :
  answers o "/api/chat" (eq (Response st bd)) ->
  match bd with
  | Some j => exists e, get_prop j "response" = inl e
  | None => True
  end ->
  exists w1,
    editBox (page w1) = editBox (page w) /\ vars w1 = vars w /\
    (exists t, trace w1 = trace w ++ t /\ no_send_task t) /\
    exec o Part000.gptBtn_click w = with_page (set_viewerStatus status_openai_error) w1.
Proof.
  intros Ha Hj. unfold exec, Part000.gptBtn_click. go. rewrite edit_text. go.
  set (text := trim (editBox (page w))).
  rewrite length_or_empty. go.
  rewrite <- (Ha 1%nat (chat_request text) eq_refl). go.
  unfold json. cbn [fst snd].
  destruct bd as [j |]; go.
  - destruct Hj as [e He]. unfold opt_prop. rewrite He. cbn [js_or truthy js_length]. go.
    rewrite He. go. cbn [fst snd].
    eexists; split; [| split; [| split]]; [ | | | reflexivity ];
      [ reflexivity | reflexivity
      | eexists; split; [trace_norm; reflexivity |];
        intros ev Hev; cbn [In] in Hev;
        repeat (destruct Hev as [<- | Hev]; [reflexivity |]); contradiction ].
  - cbn [fst snd].
    eexists; split; [| split; [| split]]; [ | | | reflexivity ];
      [ reflexivity | reflexivity
      | eexists; split; [trace_norm; reflexivity |];
        intros ev Hev; cbn [In] in Hev;
        repeat (destruct Hev as [<- | Hev]; [reflexivity |]); contradiction ].
Qed.

Lemma explain_run o w name st json s0 :
  trim name <> [] ->
  answers o "/api/perfume-explain" (eq (Response st json)) ->
  (if truthy (js_and (body_or_empty json) (opt_prop (body_or_empty json) "response"))
   then opt_prop (body_or_empty json) "response" else VStr []) = VStr s0 ->
  exists w1,
    editBox (page w1) = newlines (trim name) /\ vars w1 = vars w /\
    session_active w1 = session_active w /\
    (exists t, trace w1 = trace w ++ t /\
       (forall ev, In ev t -> is_send_task ev = true ->
                   In ev [EvFetch (send_task_request w (trim name))])) /\
    exec o (explainPerfume name) w =
      if 400 <=? st
      then with_page (set_viewerStatus (lit "OpenAI error (see debug)")) w1
      else if match trim s0 with [] => true | _ => false end
           then with_page (set_viewerStatus status_ready) w1
           else shown (trim s0) w1.
Proof.
  intros Hn Ha Hj. unfold exec, explainPerfume. go. rewrite edit_text. go.
  set (nm := trim name) in *.
  destruct nm as [| c nm'] eqn:Enm; [congruence |]. cbn [truthy negb]. go.
  change (session_active (logged _ _ _ _ (with_page _ w))) with (session_active w).
  destruct (session_active w) eqn:Hact; go;
    rewrite <- (Ha 1%nat (explain_request (c :: nm')) eq_refl); go; cbn [fst snd];
    change (match json with Some j => j | None => VObj [] end) with (body_or_empty json);
    rewrite Hj;
    (eexists; split; [| split; [| split; [| split]]];
     [ | | |
     | destruct (400 <=? st); go; [reflexivity |];
       destruct (trim s0) eqn:Hs;
       [rewrite run_reply_step_blank by exact Hs
       | rewrite run_reply_step_shown by (rewrite Hs; discriminate); rewrite Hs];
       reflexivity ];
     [ reflexivity | reflexivity | first [reflexivity | exact Hact]
     | eexists; split; [trace_norm; reflexivity |];
       intros ev Hev Hst; cbn [In] in Hev;
       repeat (destruct Hev as [<- | Hev];
               [first [discriminate Hst | now left] |]); contradiction ]).
Qed.

Lemma send_task_request_vars w1 w r :
  vars w1 = vars w -> send_task_request w1 r = send_task_request w r.
Proof. unfold send_task_request. now intros ->. Qed.

Lemma shown_facts r w :
  editBox (page (shown r w)) = newlines r /\
  viewerStatus (page (shown r w)) = status_ready /\
  vars (shown r w) = vars w /\
  trace (shown r w) =
    trace w ++ (if session_active w then [EvFetch (send_task_request w r)] else []).
Proof.
  unfold shown. destruct (session_active w); cbn; repeat split.
  symmetry. apply app_nil_r.
Qed.

Lemma chat_shown_from o click r w w1 :
  r <> [] ->
  editBox (page w1) = editBox (page w) -> vars w1 = vars w ->
  session_active w1 = session_active w ->
  (exists t, trace w1 = trace w ++ t /\ no_send_task t) ->
  exec o click w = shown r w1 ->
  chat_shown o click r w.
Proof.
  intros Hr He Hv Hs (t & Ht & Hno) Hx. unfold chat_shown. rewrite Hx.
  destruct (shown_facts r w1) as (H1 & H2 & H3 & H4).
  split; [exact H1 |]. split; [exact H2 |].
  rewrite H4, Ht, Hs, (@send_task_request_vars w1 w r Hv), <- app_assoc.
  eexists. split; [reflexivity |]. split.
  - intros ->. apply in_or_app. right. now left.
  - intros ->. rewrite app_nil_r. exact Hno.
Qed.

(** Every press of the chat button: one chat request *)

Lemma no_more_chat_refl w : no_more_chat w w.
Proof. exists []. split; [symmetry; apply app_nil_r | intros rq []]. Qed.

Lemma no_more_chat_trans a b c : no_more_chat a b -> no_more_chat b c -> no_more_chat a c.
Proof.
  intros (t1 & H1 & N1) (t2 & H2 & N2). exists (t1 ++ t2).
  split; [now rewrite H2, H1, app_assoc |].
  intros rq Hin. apply in_app_or in Hin as [Hin | Hin]; auto.
Qed.

Ltac no_more_chat_step :=
  intros; unfold no_more_chat;
  first [ exists []; split; [symmetry; apply app_nil_r | intros ? []]
        | eexists; split; [trace_norm; reflexivity |];
          let rq := fresh "rq" in let Hin := fresh "Hin" in
          intros rq Hin; cbn [In] in Hin;
          repeat (destruct Hin as [Hin | Hin];
                  [injection Hin as <-; cbn; discriminate |]);
          contradiction ].

Ltac no_more_chat_all :=
  repeat always1 no_more_chat_refl no_more_chat_trans no_more_chat_step.

Lemma no_more_chat_show_and_forward reply :
  always no_more_chat (show_and_forward reply).
Proof.
  intros o n w. unfold show_and_forward. destruct (truthy (VStr reply)).
  - go. destruct (session_active _); go; cbn [fst snd]; no_more_chat_step.
  - apply no_more_chat_refl.
Qed.

Lemma no_more_chat_reply_step v : always no_more_chat (reply_step v).
Proof.
  unfold reply_step.
  apply always_bind; [exact no_more_chat_trans | no_more_chat_all | intros reply].
  apply always_bind;
    [exact no_more_chat_trans | apply no_more_chat_show_and_forward | intros _].
  no_more_chat_all.
Qed.

(** A [try] that starts with the chat request, where nothing after the
    request and nothing in the [catch] is a chat request: over the whole
    of it, the request is made once. *)
Lemma asks_chat_once {A} text (rest : N * option jsval -> Async A) (h : exn -> Async A) :
  (forall r, always no_more_chat (rest r)) ->
  (forall e, always no_more_chat (h e)) ->
  forall o n w,
    no_more_chat (add_event (EvFetch (chat_request text)) w)
      (snd (fst (run o n (try_catch (r <- fetch (chat_request text) ;; rest r) h w)))).
Proof.
  intros Hrest Hh o n w. rewrite run_try_catch, run_bind, run_fetch.
  destruct (o n (CFetch (chat_request text))) as [e | st json]; cbv beta iota.
  - apply Hh.
  - specialize (Hrest (st, json) o (S n) (add_event (EvFetch (chat_request text)) w)).
    destruct (run o (S n) (rest (st, json) _)) as [[[e | a] w1] n1]; cbn [fst snd] in *.
    + eapply no_more_chat_trans; [exact Hrest | apply Hh].
    + exact Hrest.
Qed.

Lemma chat_submits_from o click w w0 text :
  submitted_text w = USVString (match text with [] => lit "Hello" | _ => text end) ->
  no_more_chat w w0 ->
  no_more_chat (add_event (EvFetch (chat_request text)) w0) (exec o click w) ->
  chat_submits o click w.
Proof.
  intros Htext (t0 & Ht0 & N0) (t1 & Ht1 & N1). unfold chat_submits. cbv zeta.
  rewrite Htext, <- chat_request_text.
  exists (t0 ++ EvFetch (chat_request text) :: t1). split; [| split].
  - rewrite Ht1. cbn [trace add_event]. rewrite Ht0, <- !app_assoc. reflexivity.
  - apply in_or_app. right. now left.
  - intros rq' Hin Hp. apply in_app_or in Hin as [Hin | [Hin | Hin]].
    + now apply N0 in Hin.
    + now injection Hin as <-.
    + now apply N1 in Hin.
Qed.

Lemma frontend_chat_submits o w : chat_submits o Frontend.gptBtn_click w.
Proof.
  set (text := trim (editBox (page w))).
  assert (Hpre : exists w0, no_more_chat w w0 /\
            exec o Frontend.gptBtn_click w =
            snd (fst (run o 1
              (try_catch
                 (r <- fetch (chat_request text) ;;
                  j <- json_or_empty r ;;
                  flog "chatgpt" "/api/chat response"
                       [("http", http r); ("body_len", body_len j "response")] INFO ;;
                  if 400 <=? fst r then setStatus (lit "OpenAI error (see debug box)")
                  else
                    reply_step (if truthy (js_and j (opt_prop j "response"))
                                then opt_prop j "response" else VStr []))
                 (fun e =>
                    flog "chatgpt" "error" [("err", VStr (String_of_exn e))] ERROR ;;
                    setStatus status_openai_error) w0)))).
  { unfold exec, Frontend.gptBtn_click.
    rewrite run_bind, run_gets. cbv beta iota.
    rewrite run_bind, edit_text, run_lift. cbv beta iota. fold text.
    rewrite run_bind.
    destruct (negb (truthy (VStr text))); rewrite run_flog; cbv beta iota;
      rewrite run_bind, run_setStatus; cbv beta iota;
      (eexists; split; [| reflexivity]); no_more_chat_step. }
  destruct Hpre as (w0 & H0 & Hx).
  apply chat_submits_from with (w0 := w0) (text := text); [reflexivity | exact H0 |].
  rewrite Hx. apply asks_chat_once.
  - intros r.
    repeat first [ apply no_more_chat_reply_step
                 | always1 no_more_chat_refl no_more_chat_trans no_more_chat_step ].
  - intros e. no_more_chat_all.
Qed.

Lemma part000_chat_submits o w : chat_submits o Part000.gptBtn_click w.
Proof.
  set (text := trim (editBox (page w))).
  assert (Hpre : exists w0, no_more_chat w w0 /\
            exec o Part000.gptBtn_click w =
            snd (fst (run o 1
              (try_catch
                 (r <- fetch (chat_request text) ;;
                  j <- json r ;;
                  len <- lift (js_length (js_or (opt_prop j "response") (VStr []))) ;;
                  flog "chatgpt" "/api/chat response"
                       [("http", http r); ("body_len", len)] INFO ;;
                  resp <- prop j "response" ;;
                  reply_step (js_or resp (VStr [])))
                 (fun e =>
                    flog "chatgpt" "error" [("err", VStr (String_of_exn e))] ERROR ;;
                    setStatus status_openai_error) w0)))).
  { unfold exec, Part000.gptBtn_click.
    rewrite run_bind, run_gets. cbv beta iota.
    rewrite run_bind, edit_text, run_lift. cbv beta iota zeta. fold text.
    rewrite run_bind, length_or_empty, run_lift. cbv beta iota.
    rewrite run_bind, run_flog. cbv beta iota.
    eexists; split; [| reflexivity]. no_more_chat_step. }
  destruct Hpre as (w0 & H0 & Hx).
  apply chat_submits_from with (w0 := w0) (text := text); [reflexivity | exact H0 |].
  rewrite Hx. apply asks_chat_once.
  - intros r.
    repeat first [ apply no_more_chat_reply_step
                 | always1 no_more_chat_refl no_more_chat_trans no_more_chat_step ].
  - intros e. no_more_chat_all.
Qed.


Lemma chat_says_answers st s path :
  path = "/api/chat" \/ path = "/api/perfume-explain" ->
  answers (chat_says st s) path
    (eq (Response st (Some (VObj [("response", VStr (lit s))])))).
Proof. intros [-> | ->] n rq H; cbn; rewrite H; reflexivity. Qed.



(** A reply of two lines: the edit field reads it with a line feed
    between them, the avatar is sent it as it came. *)
Lemma chat_reply_of_two_lines :
  let f := exec (backend_says (VStr two_lines)) Frontend.gptBtn_click in_session in
  let p := exec (backend_says (VStr two_lines)) Part000.gptBtn_click in_session in
  editBox (page f) = lit "Fresh." ++ [10] ++ lit "Floral." /\
  editBox (page p) = lit "Fresh." ++ [10] ++ lit "Floral." /\
  In (EvFetch (send_task_request in_session two_lines)) (trace f) /\
  In (EvFetch (send_task_request in_session two_lines)) (trace p).
Proof.
  vm_compute. repeat split; repeat ((left; reflexivity) || right).
Qed.

Lemma reply_dropped_from kept allowed w w1 f :
  editBox (page w1) = kept -> vars w1 = vars w ->
  (exists t, trace w1 = trace w ++ t /\
     forall ev, In ev t -> is_send_task ev = true -> In ev allowed) ->
  reply_dropped kept allowed w (with_page (set_viewerStatus f) w1).
Proof. intros He Hv Ht. unfold reply_dropped. cbn. auto. Qed.

Lemma no_send_task_allowed t :
  no_send_task t -> forall ev, In ev t -> is_send_task ev = true -> In ev [].
Proof. intros H ev Hin Hs. rewrite (H ev Hin) in Hs. discriminate Hs. Qed.

(** C10.  On a reply that is empty or only white space, the last step of
    the chat handler and of the tile handler changes the status line and
    nothing else.  Over the whole handler, whenever the backend answers
    and the reply is blank as the handlers take it (the body has no
    [response], or a falsy one, or one of nothing but white space, or is
    not JSON, or is [null]), with whatever status: the chat handler
    leaves the edit field as the user had it and makes no send-task
    request; the tile handler leaves in the edit field the tile's name it
    put there when the tile was pressed, and its only send-task request
    is the one that carried that name at once; the session variables are
    as they were.  This holds with a session running. *)
Theorem blank_reply_changes_only_status :
  (forall (s : jstring) (w : World),
     trim s = [] ->
     reply_step (VStr s) w = Finished tt (with_page (set_viewerStatus status_ready) w)) /\
  (forall (o : oracle) (w : World) (st : N) (json : option jsval),
     answers o "/api/chat" (eq (Response st json)) ->
     blank_reply (body_or_empty json) ->
     reply_dropped (editBox (page w)) [] w (exec o Frontend.gptBtn_click w) /\
     reply_dropped (editBox (page w)) [] w (exec o Part000.gptBtn_click w)) /\
  (forall (o : oracle) (w : World) (name : jstring) (st : N) (json : option jsval),
     trim name <> [] ->
     answers o "/api/perfume-explain" (eq (Response st json)) ->
     blank_reply (body_or_empty json) ->
     reply_dropped (newlines (trim name)) [EvFetch (send_task_request w (trim name))] w
       (exec o (explainPerfume name) w)).
Proof.
  split; [| split].
  - intros s w Hs. unfold reply_step. cbn -[trim status_ready]. now rewrite Hs.
  - intros o w st json Ha Hb. split.
    + destruct (@frontend_blank_value _ Hb) as (s0 & Hv0 & Hs).
      destruct (@frontend_chat_run o w st json s0 Ha Hv0)
        as (w1 & He & Hv & _ & (t & Ht & Hno) & ->).
      rewrite Hs. destruct (400 <=? st); apply reply_dropped_from; auto;
        exists t; split; auto; now apply no_send_task_allowed.
    + assert (Hcaught :
        match json with
        | Some j => exists e, get_prop j "response" = inl e
        | None => True
        end ->
        reply_dropped (editBox (page w)) [] w (exec o Part000.gptBtn_click w)).
      { intros Hc. destruct (part000_chat_caught w Ha Hc) as (w1 & He & Hv & (t & Ht & Hno) & ->).
        apply reply_dropped_from; auto.
        exists t; split; auto; now apply no_send_task_allowed. }
      destruct json as [j |]; [| now apply Hcaught].
      destruct (get_prop j "response") as [e | resp] eqn:Hg; [apply Hcaught; eauto |].
      destruct (@part000_blank_value _ _ Hb Hg) as (s0 & Hr & Hs).
      destruct (@part000_chat_run o w st j resp s0 Ha Hg Hr)
        as (w1 & He & Hv & _ & (t & Ht & Hno) & ->).
      rewrite Hs. apply reply_dropped_from; auto.
      exists t; split; auto; now apply no_send_task_allowed.
  - intros o w name st json Hn Ha Hb.
    destruct (@frontend_blank_value _ Hb) as (s0 & Hv0 & Hs).
    destruct (@explain_run o w name st json s0 Hn Ha Hv0) as (w1 & He & Hv & _ & Ht & ->).
    rewrite Hs. destruct (400 <=? st); now apply reply_dropped_from.
Qed.

(** The theorem with a session running, on a reply of two spaces and on
    a body that has no reply at all. *)
Lemma blank_reply_witness :
  (reply_dropped (editBox (page in_session)) [] in_session
     (exec (chat_says 200 "  ") Frontend.gptBtn_click in_session) /\
   reply_dropped (editBox (page in_session)) [] in_session
     (exec (chat_says 200 "  ") Part000.gptBtn_click in_session)) /\
  (reply_dropped (editBox (page in_session)) [] in_session
     (exec chat_not_json Frontend.gptBtn_click in_session) /\
   reply_dropped (editBox (page in_session)) [] in_session
     (exec chat_not_json Part000.gptBtn_click in_session)) /\
  reply_dropped (newlines (trim (lit " Rose ")))
    [EvFetch (send_task_request in_session (trim (lit " Rose ")))]
    in_session (exec (chat_says 200 "  ") (explainPerfume (lit " Rose ")) in_session).
Proof.
  destruct blank_reply_changes_only_status as (_ & Hchat & Htile).
  assert (Hs : blank_reply (body_or_empty (Some (VObj [("response", VStr (lit "  "))]))))
    by reflexivity.
  assert (Hn : blank_reply (body_or_empty None)) by reflexivity.
  split; [| split].
  - exact (Hchat (chat_says 200 "  ") in_session 200 _
             (chat_says_answers 200 "  " (or_introl eq_refl)) Hs).
  - apply (Hchat chat_not_json in_session 200 None); [| exact Hn].
    intros n rq H. cbn. rewrite H. reflexivity.
  - apply (Htile (chat_says 200 "  ") in_session (lit " Rose ") 200
             (Some (VObj [("response", VStr (lit "  "))]))).
    + vm_compute. discriminate.
    + apply chat_says_answers. now right.
    + exact Hs.
Defined.

(* ===================================================================== *)
(** * The transcript of a recording *)
(* ===================================================================== *)

Lemma frontend_onstop_transcript o w st m status json :
  answers o "/api/voicechat" (eq (Response status json)) ->
  frontend_transcript (body_or_empty json) w (exec o (Frontend.onstop st m) w).
Proof.
  intros Ha. unfold exec, Frontend.onstop, Frontend.upload_recording. go.
  rewrite run_disconnect. go.
  match goal with |- context [o 2%nat (CFetch ?rq)] =>
    rewrite <- (Ha 2%nat rq eq_refl)
  end. go. cbn [snd].
  unfold frontend_transcript, body_or_empty.
  destruct (if truthy _ then _ else _); go; rewrite frontend_release; cbn [fst snd];
    (split; [| reflexivity]); cbn; destruct (sourceNode (recv w)); reflexivity.
Qed.

Lemma part000_onstop_transcript o w st m status json :
  mediaRecorder (recv w) <> None ->
  answers o "/api/transcribe" (eq (Response status json)) ->
  part000_transcript (body_or_empty json) w (exec o (Part000.onstop st m) w).
Proof.
  intros Hrec Ha. unfold exec, Part000.onstop, Part000.upload_recording, Part000.recording_type. go.
  rewrite run_disconnect. go.
  assert (Hm : mediaRecorder (recv (if sourceNode (recv (add_event EvAnimationCancelled w))
                 then add_event EvSourceDisconnected (add_event EvAnimationCancelled w)
                 else add_event EvAnimationCancelled w)) = mediaRecorder (recv w)).
  { destruct (sourceNode _); reflexivity. }
  rewrite Hm. destruct (mediaRecorder (recv w)) as [mr |]; [| congruence]. go.
  match goal with |- context [o 1%nat (CFetch ?rq)] =>
    rewrite <- (Ha 1%nat rq eq_refl)
  end. go. cbn [snd].
  unfold part000_transcript, body_or_empty.
  destruct (truthy _); go; rewrite part000_release; cbn [fst snd].
  - split; reflexivity.
  - split; [reflexivity |]. cbn. destruct (sourceNode (recv w)); reflexivity.
Qed.


Lemma transcript_says_answers j path :
  path = "/api/voicechat" \/ path = "/api/transcribe" ->
  answers (transcript_says j) path (eq (Response 200 (Some j))).
Proof. intros [-> | ->] n rq H; cbn; rewrite H; reflexivity. Qed.



(** A transcript of two lines reads with a line feed between them; one
    that is a number is left alone by the first script and read by the
    second as JavaScript prints it. *)
Lemma transcript_of_two_lines_or_a_number :
  let stop_f v := exec (backend_says v) (Frontend.onstop 0%nat (lit "audio/webm")) recording in
  let stop_p v := exec (backend_says v) (Part000.onstop 0%nat (lit "audio/webm")) recording in
  editBox (page (stop_f (VStr two_lines))) = lit "Fresh." ++ [10] ++ lit "Floral." /\
  editBox (page (stop_p (VStr two_lines))) = lit "Fresh." ++ [10] ++ lit "Floral." /\
  editBox (page (stop_f (VDec 1 21))) = editBox (page recording) /\
  viewerStatus (page (stop_f (VDec 1 21))) = Frontend.status_no_text /\
  editBox (page (stop_p (VDec 1 21))) = lit "1e+21" /\
  editBox (page (stop_p (VDec 25 (-1)))) = lit "2.5".
Proof. vm_compute. repeat split. Qed.
(* ===================================================================== *)
(** * The wait for ICE gathering *)
(* ===================================================================== *)

Lemma first_complete_later changes elapsed t :
  first_complete elapsed changes = Some t -> elapsed <= t.
Proof.
  revert elapsed. induction changes as [| [dt s] rest IH]; intros elapsed; cbn.
  - discriminate.
  - destruct s; intros H; try (apply IH in H; lia). injection H as <-. lia.
Qed.

Lemma wait_events_first changes elapsed :
  wait_events elapsed changes =
  match first_complete elapsed changes with
  | Some t => N.min t ICE_TIMEOUT
  | None => ICE_TIMEOUT
  end.
Proof.
  revert elapsed. induction changes as [| [dt s] rest IH]; intros elapsed; cbn.
  - reflexivity.
  - destruct (ICE_TIMEOUT <=? elapsed + dt) eqn:H.
    + apply N.leb_le in H.
      destruct s; try (now rewrite N.min_r);
        (destruct (first_complete (elapsed + dt) rest) as [t |] eqn:E; [| reflexivity];
         apply first_complete_later in E; rewrite N.min_r; [reflexivity | lia]).
    + apply N.leb_gt in H. destruct s; auto. rewrite N.min_l; [reflexivity | lia].
Qed.

Lemma ice_wait_first tl : ice_wait tl = whichever_first tl.
Proof.
  unfold ice_wait, whichever_first.
  destruct (ice_initial tl); auto using wait_events_first.
Qed.

Lemma run_await_ice_gathering o n w c :
  pc (vars w) = Some c ->
  run o n (await_ice_gathering w) =
  (inr tt, add_event (EvWaited (ice_wait (o n (CIceGathering c)))) w, S n).
Proof. intros H. unfold await_ice_gathering. go. rewrite H. go. reflexivity. Qed.

(** C9.  The timeout of the wait is 1500 milliseconds.  Whatever the
    browser reports about gathering, even nothing at all, the promise of
    the wait is settled after at most that long, at the first of the two:
    the state change that announces [complete] (at once when gathering
    is complete already) or the timeout.  The wait then returns to the
    negotiation, which goes on; and in every run of the negotiation each
    wait recorded in the trace took 1500 milliseconds at most.  Timers
    are taken to fire when they are due. *)
Theorem ice_wait_ends_by_timeout :
  ICE_TIMEOUT = 1500 /\
  (forall tl : ice_timeline,
     ice_wait tl <= ICE_TIMEOUT /\ ice_wait tl = whichever_first tl) /\
  (forall (o : oracle) (n : nat) (w : World) (c : conn),
     pc (vars w) = Some c ->
     run o n (await_ice_gathering w) =
     (inr tt, add_event (EvWaited (ice_wait (o n (CIceGathering c)))) w, S n)) /\
  (forall (o : oracle) (n : nat) (w : World),
     exists t,
       trace (snd (fst (run o n (negotiation_steps w)))) = trace w ++ t /\
       forall ms, In (EvWaited ms) t -> ms <= 1500).
Proof.
  split; [reflexivity |]. split; [| split].
  - intros tl. split; [apply ice_wait_bounded | apply ice_wait_first].
  - intros o n w c H. now apply run_await_ice_gathering.
  - intros o n w. pose proof (negotiation_effects o n w) as H.
    destruct (run o n (negotiation_steps w)) as [[res w'] n']. cbn [fst snd].
    destruct H as (_ & _ & _ & (t & Ht & _ & Hw) & _). now exists t.
Qed.

(** The theorem on a page whose session has been started, where [pc]
    holds connection 0, with slow gathering. *)
Lemma ice_wait_witness :
  run all_well 0 (await_ice_gathering in_session) =
    (inr tt, add_event (EvWaited (ice_wait slow_gathering)) in_session, 1%nat) /\
  ice_wait slow_gathering <= ICE_TIMEOUT.
Proof.
  destruct ice_wait_ends_by_timeout as (_ & Hbound & Hwait & _).
  split.
  - apply (Hwait all_well 0%nat in_session 0%nat). reflexivity.
  - apply Hbound.
Defined.

Example slow_gathering_times_out : ice_wait slow_gathering = 1500.
Proof. reflexivity. Qed.

Example quick_gathering_goes_on :
  ice_wait (IceTimeline ice_new [(40, ice_gathering); (300, ice_complete)]) = 340.
Proof. reflexivity. Qed.

Example silent_gathering_times_out : ice_wait (IceTimeline ice_gathering []) = 1500.
Proof. reflexivity. Qed.

Example all_well_waits_for_the_timeout :
  In (EvWaited 1500) (trace (exec all_well Frontend.startSession initial_world)) /\
  viewerStatus (page (exec all_well Frontend.startSession initial_world))
    = status_waiting_media.
Proof. vm_compute. split; [in_list | reflexivity]. Qed.
(* ===================================================================== *)
(** * One connection at a time *)
(* ===================================================================== *)


Lemma wp_mono {A} (s : Susp A) (Q Q' : exn + A -> World -> Prop) :
  (forall r w, Q r w -> Q' r w) -> wp s Q -> wp s Q'.
Proof.
  intros HQ. induction s as [a w | e w | c w k IH]; cbn; auto.
  destruct (is_await c).
  - intros [Hw Hk]. split; auto.
  - intros Hk r. auto.
Qed.

Lemma wp_sbind {A B} (s : Susp A) (f : A -> Async B) Q :
  wp s (fun r w => match r with
                   | inr a => wp (f a w) Q
                   | inl e => Q (inl e) w
                   end) ->
  wp (sbind s f) Q.
Proof.
  induction s as [a w | e w | c w k IH]; cbn; auto.
  destruct (is_await c).
  - intros [Hw Hk]. split; auto.
  - intros Hk r. auto.
Qed.

Lemma wp_scatch {A} (s : Susp A) (h : exn -> Async A) Q :
  wp s (fun r w => match r with
                   | inr a => Q (inr a) w
                   | inl e => wp (h e w) Q
                   end) ->
  wp (scatch s h) Q.
Proof.
  induction s as [a w | e w | c w k IH]; cbn; auto.
  destruct (is_await c).
  - intros [Hw Hk]. split; auto.
  - intros Hk r. auto.
Qed.

Lemma wp_sfinally {A} (s : Susp A) (fin : Async unit) Q :
  wp s (fun r w => wp (fin w) (fun r' w' =>
                     match r' with
                     | inr _ => Q r w'
                     | inl e => Q (inl e) w'
                     end)) ->
  wp (sfinally s fin) Q.
Proof.
  induction s as [a w | e w | c w k IH]; cbn.
  - intros H. apply wp_sbind. eapply wp_mono; [| exact H]. intros [e | []] w'; auto.
  - intros H. apply wp_sbind. eapply wp_mono; [| exact H]. intros [e' | []] w'; auto.
  - destruct (is_await c).
    + intros [Hw Hk]. split; auto.
    + intros Hk r. auto.
Qed.

Lemma keeps_bind {A B} (m : Async A) (f : A -> Async B) :
  keeps m -> (forall a, keeps (f a)) -> keeps (x <- m ;; f x).
Proof.
  intros Hm Hf w Hw. unfold safe. apply wp_sbind.
  eapply wp_mono; [| apply (Hm w Hw)]. intros [e | a] w' Hw'; cbn in *; auto.
  now apply Hf.
Qed.

Lemma keeps_try_catch {A} (m : Async A) (h : exn -> Async A) :
  keeps m -> (forall e, keeps (h e)) -> keeps (try_catch m h).
Proof.
  intros Hm Hh w Hw. unfold safe. apply wp_scatch.
  eapply wp_mono; [| apply (Hm w Hw)]. intros [e | a] w' Hw'; cbn in *; auto.
  now apply Hh.
Qed.

Lemma keeps_try_finally {A} (m : Async A) (fin : Async unit) :
  keeps m -> keeps fin -> keeps (try_finally m fin).
Proof.
  intros Hm Hf w Hw. unfold safe. apply wp_sfinally.
  eapply wp_mono; [| apply (Hm w Hw)]. intros r w' Hw'. cbn in Hw'.
  eapply wp_mono; [| apply (Hf w' Hw')]. intros [e | []] w'' Hw''; exact Hw''.
Qed.

Lemma keeps_ret {A} (a : A) : keeps (@ret Async _ A a).
Proof. intros w Hw. exact Hw. Qed.

Lemma keeps_throw {A} e : keeps (@throw A e).
Proof. intros w Hw. exact Hw. Qed.

Lemma keeps_gets {A} (f : World -> A) : keeps (gets f).
Proof. intros w Hw. exact Hw. Qed.

Lemma keeps_lift {A} (x : exn + A) : keeps (lift x).
Proof. destruct x; [apply keeps_throw | apply keeps_ret]. Qed.

Lemma keeps_perform c : keeps (perform c).
Proof.
  intros w Hw. unfold safe. cbn. destruct (is_await c).
  - split; auto.
  - intros r. exact Hw.
Qed.

Lemma conn_inv_same w w' :
  trace w' = trace w -> pc (vars w') = pc (vars w) -> conn_inv w -> conn_inv w'.
Proof. unfold conn_inv. intros -> ->. auto. Qed.

Lemma keeps_modify f :
  (forall w, trace (f w) = trace w /\ pc (vars (f w)) = pc (vars w)) ->
  keeps (modify f).
Proof.
  intros Hf w Hw. destruct (Hf w) as [Ht Hp]. unfold safe. cbn.
  now apply conn_inv_same with (w := w).
Qed.


Lemma closes_before_creating_app t ev :
  closes_before_creating t ->
  (forall c cfg, ev = EvPcCreated c cfg -> open_conns t = []) ->
  closes_before_creating (t ++ [ev]).
Proof.
  intros H Hev t1 c cfg t2 E.
  destruct t2 as [| x t2] using rev_ind.
  - apply app_inj_tail in E as [-> ->]. eauto.
  - clear IHt2. change (t1 ++ EvPcCreated c cfg :: t2 ++ [x])
      with (t1 ++ (EvPcCreated c cfg :: t2) ++ [x]) in E.
    rewrite app_assoc in E. apply app_inj_tail in E as [-> _]. eauto.
Qed.

Lemma conn_inv_event ev w :
  (forall c cfg, ev <> EvPcCreated c cfg) -> (forall c, ev <> EvPcClosed c) ->
  conn_inv w -> conn_inv (add_event ev w).
Proof.
  intros H1 H2 [Hd Hp]. split; cbn [trace add_event vars].
  - apply closes_before_creating_app; auto. intros c cfg ->. now destruct (H1 c cfg).
  - rewrite open_conns_app. destruct ev; cbn [conn_step]; auto.
    + now destruct (H1 c cfg).
    + now destruct (H2 c).
Qed.

Lemma filter_all_out (c : conn) l :
  (forall x, In x l -> x = c) -> filter (fun x => negb (Nat.eqb x c)) l = [].
Proof.
  induction l as [| x l IH]; cbn; intros H; auto.
  rewrite (H x (or_introl eq_refl)), Nat.eqb_refl. cbn. apply IH. auto.
Qed.

Lemma conn_inv_closed w :
  conn_inv w ->
  closes_before_creating
    (trace (match pc (vars w) with Some c => add_event (EvPcClosed c) w | None => w end)) /\
  open_conns
    (trace (match pc (vars w) with Some c => add_event (EvPcClosed c) w | None => w end)) = [].
Proof.
  intros [Hd Hp]. destruct (pc (vars w)) as [c |] eqn:E; cbn [trace add_event].
  - split.
    + apply closes_before_creating_app; auto. discriminate.
    + rewrite open_conns_app. cbn [conn_step]. apply filter_all_out.
      intros x Hx. specialize (Hp x Hx). congruence.
  - split; auto. destruct (open_conns (trace w)) as [| x l]; auto.
    specialize (Hp x (or_introl eq_refl)). discriminate.
Qed.

Lemma conn_inv_replaced w c cfg :
  closes_before_creating (trace w) -> open_conns (trace w) = [] ->
  conn_inv (with_vars (set_pc (Some c)) (add_event (EvPcCreated c cfg) (bump_conns w))).
Proof.
  intros Hd Ho. split; cbn [trace add_event with_vars bump_conns vars pc set_pc].
  - apply closes_before_creating_app; auto.
  - rewrite open_conns_app, Ho. cbn. intros x [<- | []]. reflexivity.
Qed.

Lemma conn_inv_no_open w :
  closes_before_creating (trace w) -> open_conns (trace w) = [] -> conn_inv w.
Proof. intros Hd Ho. split; auto. rewrite Ho. intros c []. Qed.

Lemma keeps_emit ev :
  (forall c cfg, ev <> EvPcCreated c cfg) -> (forall c, ev <> EvPcClosed c) ->
  keeps (emit ev).
Proof. intros H1 H2 w Hw. unfold safe. cbn. now apply conn_inv_event. Qed.

Lemma keeps_setStatus s : keeps (setStatus s).
Proof. apply keeps_modify. intros w. split; reflexivity. Qed.

Lemma keeps_fetch rq : keeps (fetch rq).
Proof.
  unfold fetch. apply keeps_bind; [apply keeps_emit; discriminate |]. intros _.
  apply keeps_bind; [apply keeps_perform |]. intros [e | st j];
    [apply keeps_throw | apply keeps_ret].
Qed.

Lemma keeps_fetch_and_forget rq : keeps (fetch_and_forget rq).
Proof. apply keeps_emit; discriminate. Qed.

Lemma keeps_flog a m e l : keeps (flog a m e l).
Proof.
  unfold flog, uiLog. apply keeps_bind.
  - apply keeps_modify. intros w. split; reflexivity.
  - intros _. apply keeps_try_catch.
    + apply keeps_bind; [apply keeps_fetch | intros _; apply keeps_ret].
    + intros _. apply keeps_ret.
Qed.

Lemma keeps_json r : keeps (json r).
Proof. unfold json. destruct (snd r); [apply keeps_ret | apply keeps_throw]. Qed.

Lemma keeps_json_or_empty r : keeps (json_or_empty r).
Proof.
  unfold json_or_empty. apply keeps_try_catch; [apply keeps_json |].
  intros _. apply keeps_ret.
Qed.

Lemma keeps_the_pc : keeps the_pc.
Proof.
  unfold the_pc. apply keeps_bind; [apply keeps_gets |].
  intros [c |]; [apply keeps_ret | apply keeps_throw].
Qed.

Lemma keeps_may_throw r : keeps (may_throw r).
Proof. destruct r; [apply keeps_throw | apply keeps_ret]. Qed.

Lemma keeps_prop v k : keeps (prop v k).
Proof. apply keeps_lift. Qed.

Lemma keeps_show_placeholder d : keeps (Part000.show_placeholder d).
Proof. apply keeps_modify. intros w. split; reflexivity. Qed.

Lemma keeps_show_and_forward reply : keeps (show_and_forward reply).
Proof.
  unfold show_and_forward. destruct (truthy (VStr reply)); [| apply keeps_ret].
  apply keeps_bind; [apply keeps_modify; intros ?; split; reflexivity |]. intros _.
  apply keeps_bind; [apply keeps_gets |]. intros [|]; [| apply keeps_ret].
  apply keeps_bind; [apply keeps_gets |]. intros rq. apply keeps_fetch_and_forget.
Qed.

Lemma keeps_reply_step v : keeps (reply_step v).
Proof.
  unfold reply_step. apply keeps_bind; [apply keeps_lift |]. intros reply.
  apply keeps_bind; [apply keeps_show_and_forward |]. intros _. apply keeps_setStatus.
Qed.

Create HintDb keeps.

(** Go through a handler, one statement at a time. *)
Ltac keep1 :=
  lazymatch goal with
  | |- keeps (reply_step _) => apply keeps_reply_step
  | |- keeps (show_and_forward _) => apply keeps_show_and_forward
  | |- keeps (setStatus _) => apply keeps_setStatus
  | |- keeps (flog _ _ _ _) => apply keeps_flog
  | |- keeps (fetch _) => apply keeps_fetch
  | |- keeps (fetch_and_forget _) => apply keeps_fetch_and_forget
  | |- keeps (json_or_empty _) => apply keeps_json_or_empty
  | |- keeps (json _) => apply keeps_json
  | |- keeps the_pc => apply keeps_the_pc
  | |- keeps (may_throw _) => apply keeps_may_throw
  | |- keeps (prop _ _) => apply keeps_prop
  | |- keeps (Part000.show_placeholder _) => apply keeps_show_placeholder
  | |- keeps (ret _) => apply keeps_ret
  | |- keeps (throw _) => apply keeps_throw
  | |- keeps (gets _) => apply keeps_gets
  | |- keeps (lift _) => apply keeps_lift
  | |- keeps (perform _) => apply keeps_perform
  | |- keeps (emit _) => apply keeps_emit; discriminate
  | |- keeps (modify _) => apply keeps_modify; intros ?; split; reflexivity
  | |- keeps (bind _ _) => apply keeps_bind
  | |- keeps (try_catch _ _) => apply keeps_try_catch
  | |- keeps (try_finally _ _) => apply keeps_try_finally
  | |- keeps (if ?b then _ else _) => destruct b
  | |- keeps (match ?x with _ => _ end) => destruct x
  | |- keeps _ => solve [auto 1 with keeps nocore]
  | |- _ => intro; cbv beta zeta
  end.

Ltac keep := repeat keep1.

Lemma keeps_sendBtn : keeps sendBtn_click.
Proof. unfold sendBtn_click. keep. Qed.

Lemma keeps_explain name : keeps (explainPerfume name).
Proof. unfold explainPerfume. keep. Qed.

Lemma keeps_frontend_gpt : keeps Frontend.gptBtn_click.
Proof. unfold Frontend.gptBtn_click. keep. Qed.

Lemma keeps_part000_gpt : keeps Part000.gptBtn_click.
Proof. unfold Part000.gptBtn_click. keep. Qed.

Lemma keeps_frontend_onstop st m : keeps (Frontend.onstop st m).
Proof.
  unfold Frontend.onstop, Frontend.upload_recording, Frontend.release_microphone. keep.
Qed.

Lemma keeps_part000_onstop st m : keeps (Part000.onstop st m).
Proof.
  unfold Part000.onstop, Part000.upload_recording, Part000.release_microphone,
    Part000.recording_type. keep.
Qed.

Lemma keeps_replace_connection : keeps replace_connection.
Proof.
  intros w Hw. destruct (conn_inv_closed Hw) as [Hd Ho].
  unfold safe, replace_connection, new_RTCPeerConnection.
  destruct (pc (vars w)) as [c0 |] eqn:E;
    cbn -[conn_inv]; rewrite E; cbn -[conn_inv]; intros [e |].
  - now apply conn_inv_no_open.
  - now apply (@conn_inv_replaced (add_event (EvPcClosed c0) w)).
  - now apply conn_inv_no_open.
  - now apply (@conn_inv_replaced w).
Qed.

#[local] Hint Resolve keeps_replace_connection : keeps.

Lemma keeps_drop_connection : keeps drop_connection.
Proof.
  intros w Hw. destruct (conn_inv_closed Hw) as [Hd Ho].
  unfold safe, drop_connection.
  destruct (pc (vars w)) as [c0 |] eqn:E; cbn -[conn_inv]; rewrite E; cbn -[conn_inv].
  - now apply conn_inv_no_open.
  - exact Hw.
Qed.

#[local] Hint Resolve keeps_drop_connection : keeps.

Lemma keeps_await_ice : keeps await_ice_gathering.
Proof. unfold await_ice_gathering. keep. Qed.

#[local] Hint Resolve keeps_await_ice : keeps.

Lemma keeps_negotiation : keeps negotiation_steps.
Proof.
  unfold negotiation_steps. keep.
Qed.

#[local] Hint Resolve keeps_negotiation : keeps.

Lemma keeps_adopt j : keeps (adopt_session j).
Proof. unfold adopt_session. keep. Qed.

#[local] Hint Resolve keeps_adopt : keeps.

Lemma keeps_request_start body : keeps (request_start body).
Proof. unfold request_start. keep. Qed.

#[local] Hint Resolve keeps_request_start : keeps.

Lemma keeps_start_core restore body :
  keeps restore -> keeps (start_core restore body).
Proof.
  intros Hr. unfold start_core.
  keep; exact Hr.
Qed.

Lemma keeps_frontend_start : keeps Frontend.startSession.
Proof.
  change (keeps (body <- gets Frontend.start_body ;;
                 flog "viewer" "Start button pressed" body INFO ;;
                 setStatus status_requesting ;;
                 start_core (ret tt) body)).
  keep. apply keeps_start_core. apply keeps_ret.
Qed.

Lemma keeps_part000_start : keeps Part000.startSession.
Proof.
  change (keeps (Part000.show_placeholder "none" ;;
                 body <- gets Part000.start_body ;;
                 flog "viewer" "Start button pressed" body INFO ;;
                 setStatus status_requesting ;;
                 start_core (Part000.show_placeholder "") body)).
  keep. apply keeps_start_core. apply keeps_show_placeholder.
Qed.

Lemma keeps_notify_stop : keeps notify_stop.
Proof. unfold notify_stop. keep. Qed.

#[local] Hint Resolve keeps_notify_stop : keeps.

Lemma keeps_frontend_stop : keeps Frontend.stopSession.
Proof.
  unfold Frontend.stopSession. keep.
Qed.

Lemma keeps_part000_stop : keeps Part000.stopSession.
Proof.
  unfold Part000.stopSession. keep.
Qed.

Lemma frontend_handlers_keep h : frontend_handler h -> keeps h.
Proof.
  intros []; auto using keeps_frontend_start, keeps_frontend_stop, keeps_sendBtn,
    keeps_frontend_gpt, keeps_explain, keeps_frontend_onstop.
Qed.

Lemma part000_handlers_keep h : part000_handler h -> keeps h.
Proof.
  intros []; auto using keeps_part000_start, keeps_part000_stop, keeps_sendBtn,
    keeps_part000_gpt, keeps_explain, keeps_part000_onstop.
Qed.

Lemma settles_safe {A} (s s' : Susp A) : settles s s' -> safe s -> safe s'.
Proof.
  induction 1 as [a w | e w | c w k Hc | c w k r s' Hc Hs IH]; auto.
  unfold safe in *. cbn. rewrite Hc. auto.
Qed.

Lemma settles_settled {A} (s s' : Susp A) : settles s s' -> settled s'.
Proof. induction 1; cbn; auto. Qed.

Lemma park_ok (s : Susp unit) ts :
  settled s -> safe s -> pool_ok ts ->
  conn_inv (fst (park s ts)) /\ pool_ok (snd (park s ts)).
Proof.
  intros Hs Hsafe Hts. destruct s as [a w' | e w' | c w' k]; cbn in *; auto.
  unfold safe in Hsafe. cbn in Hsafe. rewrite Hs in Hsafe. destruct Hsafe as [Hw Hk].
  split; auto. intros th [<- | Hin]; cbn; auto.
Qed.

Lemma pool_ok_remove ts1 th ts2 : pool_ok (ts1 ++ th :: ts2) -> pool_ok (ts1 ++ ts2).
Proof.
  intros H th' Hin. apply H. apply in_app_or in Hin as [Hin | Hin];
    apply in_or_app; [now left | right; now right].
Qed.

Section Loop.

Variable handlers : Async unit -> Prop.
Hypothesis handlers_keep : forall h, handlers h -> keeps h.

Lemma loop_step_ok st st' :
  loop_step handlers st st' ->
  conn_inv (fst st) /\ pool_ok (snd st) ->
  conn_inv (fst st') /\ pool_ok (snd st').
Proof.
  intros Hstep [Hw Hts]. destruct Hstep as [h w ts s Hh Hs | w ts1 c k ts2 r s Hs];
    cbn [fst snd] in *.
  - apply park_ok; auto.
    + eapply settles_settled; eauto.
    + eapply settles_safe; eauto. now apply handlers_keep.
  - apply park_ok.
    + eapply settles_settled; eauto.
    + eapply settles_safe; eauto.
      apply (Hts (Thread c k)); auto. apply in_or_app. right. now left.
    + eapply pool_ok_remove; eauto.
Qed.

Lemma reachable_ok w0 st :
  conn_inv w0 -> reachable handlers w0 st ->
  conn_inv (fst st) /\ pool_ok (snd st).
Proof.
  intros H0. induction 1 as [| st st' Hr IH Hstep].
  - split; auto. intros th [].
  - eapply loop_step_ok; eauto.
Qed.

End Loop.

Lemma freshly_loaded_inv w : freshly_loaded w -> conn_inv w.
Proof.
  intros (_ & Ht & _). apply conn_inv_no_open; rewrite Ht; [| reflexivity].
  intros [| x t1] c cfg t2 E; discriminate E.
Qed.

Lemma at_most_one_from_discipline t :
  closes_before_creating t -> at_most_one_open t.
Proof.
  intros Hd t1. induction t1 as [| ev t1 IH] using rev_ind; intros t2 E.
  - cbn. lia.
  - rewrite open_conns_app.
    assert (Hlen : (List.length (open_conns t1) <= 1)%nat).
    { apply (IH (ev :: t2)). rewrite E, <- app_assoc. reflexivity. }
    subst t. rewrite <- app_assoc in Hd. cbn in Hd.
    destruct ev as [rq | c cfg | c | st | | | ms]; cbn [conn_step]; try exact Hlen.
    + rewrite (Hd t1 c cfg t2 eq_refl). cbn. lia.
    + eapply Nat.le_trans; [apply filter_length_le | exact Hlen].
Qed.

(** C4.  From the moment a script is loaded, whichever of its handlers
    are started (start, stop, send, chat, tile, recorder stop), however
    often, and in whatever order their replies come in, with handlers
    running in one another's waits: at every point of what has happened
    so far at most one connection is open; whenever a connection was
    made, none was open, the one before having been closed first; and a
    connection that is open is the one held in [pc], which holds one
    connection or none. *)
Theorem at_most_one_connection_at_any_time :
  forall (w0 w : World) (ts : list thread),
    freshly_loaded w0 ->
    reachable frontend_handler w0 (w, ts) \/ reachable part000_handler w0 (w, ts) ->
    at_most_one_open (trace w) /\
    closes_before_creating (trace w) /\
    (forall c, In c (open_conns (trace w)) -> pc (vars w) = Some c).
Proof.
  intros w0 w ts H0 Hr.
  assert (Hinv : conn_inv w).
  { apply freshly_loaded_inv in H0. destruct Hr as [Hr | Hr].
    - apply (reachable_ok frontend_handlers_keep H0 Hr).
    - apply (reachable_ok part000_handlers_keep H0 Hr). }
  destruct Hinv as [Hd Hp]. split; [now apply at_most_one_from_discipline |]. now split.
Qed.


(** A handler that runs from start to end with nothing in between is one
    of the ways the event loop can go. *)
Lemma run_in_loop handlers w0 o (s : Susp unit) :
  forall n ts st,
    reachable handlers w0 st ->
    (forall s', settles s s' -> loop_step handlers st (park s' ts)) ->
    reachable handlers w0 (snd (fst (run o n s)), ts).
Proof.
  induction s as [a w | e w | c w k IH]; intros n ts st Hst Hstep.
  - apply reach_step with (st := st); [exact Hst |].
    apply (Hstep (Finished a w)). constructor.
  - apply reach_step with (st := st); [exact Hst |].
    apply (Hstep (Thrown e w)). constructor.
  - cbn [run]. destruct (is_await c) eqn:Hc.
    + apply IH with (st := (w, Thread c k :: ts)).
      * apply reach_step with (st := st); [exact Hst |].
        apply (Hstep (Suspended c w k)). now constructor.
      * intros s' Hs'. apply (@step_resume handlers w [] c k ts (o n c) s' Hs').
    + apply IH with (st := st); [exact Hst |].
      intros s' Hs'. apply Hstep. now apply settles_sync with (r := o n c).
Qed.

Lemma sequential_reachable handlers w0 o h w ts :
  handlers h -> reachable handlers w0 (w, ts) ->
  reachable handlers w0 (exec o h w, ts).
Proof.
  intros Hh Hr. unfold exec. apply run_in_loop with (st := (w, ts)); [exact Hr |].
  intros s' Hs'. now apply step_event with (h := h).
Qed.

Lemma pressed_twice_reachable :
  reachable frontend_handler initial_world (fst pressed_twice, snd pressed_twice).
Proof.
  assert (H1 : reachable frontend_handler initial_world (fst pressed_once, snd pressed_once)).
  { apply reach_step with (st := (initial_world, [])); [apply reach_start |].
    refine (@step_event frontend_handler Frontend.startSession initial_world []
              (Frontend.startSession initial_world) fh_start _).
    apply settles_await. reflexivity. }
  apply reach_step with (st := (fst pressed_once, snd pressed_once)); [exact H1 |].
  refine (@step_event frontend_handler Frontend.startSession (fst pressed_once)
            (snd pressed_once) (Frontend.startSession (fst pressed_once)) fh_start _).
  apply settles_await. reflexivity.
Qed.

Lemma started_twice_reachable :
  reachable frontend_handler initial_world (started_twice, []).
Proof.
  unfold started_twice.
  do 2 (apply sequential_reachable; [apply fh_start |]). apply reach_start.
Qed.

(** The theorem on a session that is started twice in a row: the second
    start has closed the connection of the first. *)
Lemma at_most_one_connection_witness :
  at_most_one_open (trace started_twice) /\
  closes_before_creating (trace started_twice) /\
  (forall c, In c (open_conns (trace started_twice)) -> pc (vars started_twice) = Some c).
Proof.
  apply (@at_most_one_connection_at_any_time initial_world started_twice []).
  - repeat split.
  - left. exact started_twice_reachable.
Defined.

Example started_twice_holds_second_connection :
  open_conns (trace started_twice) = [1%nat] /\ pc (vars started_twice) = Some 1%nat /\
  In (EvPcClosed 0%nat) (trace started_twice).
Proof. vm_compute. repeat split. in_list. Qed.

Example pressed_twice_has_two_handlers_waiting :
  List.length (snd pressed_twice) = 2%nat /\ conn_inv (fst pressed_twice).
Proof.
  split; [reflexivity |].
  assert (H0 : conn_inv initial_world) by (apply freshly_loaded_inv; repeat split).
  exact (proj1 (reachable_ok frontend_handlers_keep H0 pressed_twice_reachable)).
Qed.
(* ===================================================================== *)
(** * Loading the script *)
(* ===================================================================== *)

Lemma trimStart_fixed c s : isWhiteSpace c = false -> trimStart (c :: s) = c :: s.
Proof. intros H. cbn [trimStart]. now rewrite H. Qed.

Lemma trimStart_head s :
  trimStart s = [] \/ exists c t, trimStart s = c :: t /\ isWhiteSpace c = false.
Proof.
  induction s as [| c s IH]; cbn [trimStart]; [now left |].
  destruct (isWhiteSpace c) eqn:E; [exact IH |]. right. now exists c, s.
Qed.

Lemma trimStart_idempotent s : trimStart (trimStart s) = trimStart s.
Proof.
  destruct (trimStart_head s) as [-> | (c & t & -> & H)]; [reflexivity |].
  now apply trimStart_fixed.
Qed.

Lemma trimStart_snoc l c :
  isWhiteSpace c = false -> trimStart (l ++ [c]) = trimStart l ++ [c].
Proof.
  intros H. induction l as [| a l IH]; cbn [app trimStart].
  - now rewrite H.
  - destruct (isWhiteSpace a); [exact IH | reflexivity].
Qed.

Lemma trimEnd_cons c s :
  isWhiteSpace c = false -> trimEnd (c :: s) = c :: trimEnd s.
Proof.
  intros H. unfold trimEnd. cbn [rev]. rewrite trimStart_snoc by exact H.
  rewrite rev_app_distr.
  reflexivity.
Qed.

Lemma trimEnd_idempotent s : trimEnd (trimEnd s) = trimEnd s.
Proof. unfold trimEnd. now rewrite rev_involutive, trimStart_idempotent. Qed.

Lemma trim_head s :
  trim s = [] \/ exists c t, trim s = c :: t /\ isWhiteSpace c = false.
Proof.
  unfold trim. destruct (trimStart_head s) as [-> | (c & t & -> & H)].
  - now left.
  - right. exists c, (trimEnd t). split; [now apply trimEnd_cons | exact H].
Qed.

(** Trimming what has been trimmed changes nothing. *)
Lemma trim_idempotent s : trim (trim s) = trim s.
Proof.
  destruct (trim_head s) as [E | (c & t & E & H)].
  - now rewrite E.
  - unfold trim at 1. rewrite E, trimStart_fixed by exact H. rewrite <- E.
    unfold trim. apply trimEnd_idempotent.
Qed.

Lemma jstring_eqb_eq a b : jstring_eqb a b = true <-> a = b.
Proof. unfold jstring_eqb. destruct (list_eq_dec N.eq_dec a b); split; congruence. Qed.

Lemma frontend_api_base_cases preset loc :
  (exists c s, preset = VStr (c :: s) /\ FrontendPage.api_base preset loc = preset) \/
  ((forall c s, preset <> VStr (c :: s)) /\
   FrontendPage.api_base preset loc =
   VStr (if jstring_eqb (protocol loc) (lit "file:")
            || jstring_eqb (hostname loc) (lit "localhost")
         then lit "http://localhost:8000" else [])).
Proof.
  unfold FrontendPage.api_base.
  destruct preset as [| | [] | n | m e | [| c s] | fs | l];
    try (right; split; [discriminate | reflexivity]);
    try (right; split; [discriminate |]; cbn [is_string negb]; now rewrite orb_true_r).
  left. now exists c, s.
Qed.

Lemma part000_api_base_cases preset loc :
  (Part000Page.api_base preset loc = preset /\
   exists s, preset = VStr s /\ trim s <> []) \/
  (exists b : bool,
     Part000Page.api_base preset loc =
     VStr (if b then lit "http://localhost:8000"
           else lit "https://perfume-backend-yt2m.onrender.com")).
Proof.
  unfold Part000Page.api_base.
  destruct preset as [| | [] | n | m e | [| c s] | fs | l];
    try (right; exists (Part000Page.isLocal loc); reflexivity);
    try (right; exists (Part000Page.isLocal loc); cbn [is_string negb];
         now rewrite orb_true_r).
  cbn -[trim lit]. destruct (trim (c :: s)) eqn:E; cbn -[trim lit].
  - right. exists (Part000Page.isLocal loc). reflexivity.
  - left. split; [reflexivity |]. exists (c :: s). split; [reflexivity |]. now rewrite E.
Qed.

Lemma part000_api_base_kept s loc :
  trim s <> [] -> Part000Page.api_base (VStr s) loc = VStr s.
Proof.
  intros H. unfold Part000Page.api_base. destruct s as [| c s]; [now destruct H |].
  cbn -[trim lit]. destruct (trim (c :: s)); [now destruct H | reflexivity].
Qed.

(** X1.  What [window.API_BASE] is once a script has run its first
    statement.  It is a string, whatever the page had put there.  A
    string that the page had put there is kept when it is not empty
    (first script) or not blank (second script); anything else is
    replaced by the address for the location.  Running the statement
    again changes nothing.  In the second script the result is never
    blank; in the first it is empty exactly when the page gave nothing
    usable and the location is neither a file nor [localhost]. *)
Theorem api_base_is_settled :
  forall (preset : jsval) (loc : Location),
    (is_string (FrontendPage.api_base preset loc) = true /\
     is_string (Part000Page.api_base preset loc) = true) /\
    (forall s, preset = VStr s -> s <> [] -> FrontendPage.api_base preset loc = preset) /\
    (forall s, preset = VStr s -> trim s <> [] -> Part000Page.api_base preset loc = preset) /\
    (FrontendPage.api_base (FrontendPage.api_base preset loc) loc
       = FrontendPage.api_base preset loc /\
     Part000Page.api_base (Part000Page.api_base preset loc) loc
       = Part000Page.api_base preset loc) /\
    Part000Page.blank (Part000Page.api_base preset loc) = false /\
    (FrontendPage.api_base preset loc = VStr [] <->
     (forall c s, preset <> VStr (c :: s)) /\
     protocol loc <> lit "file:" /\ hostname loc <> lit "localhost").
Proof.
  intros preset loc.
  pose proof (frontend_api_base_cases preset loc) as HF.
  pose proof (part000_api_base_cases preset loc) as HP.
  repeat apply conj.
  - destruct HF as [(c & s & -> & E) | [_ E]]; rewrite E; reflexivity.
  - destruct HP as [[E (s & -> & _)] | [b E]]; rewrite E; reflexivity.
  - intros s -> Hs. destruct s; [congruence | reflexivity].
  - intros s -> Hs. now apply part000_api_base_kept.
  - destruct HF as [(c & s & -> & E) | [_ E]]; rewrite E; [exact E |].
    unfold FrontendPage.api_base.
    destruct (jstring_eqb (protocol loc) (lit "file:")
              || jstring_eqb (hostname loc) (lit "localhost")); reflexivity.
  - destruct HP as [[E _] | [b E]]; rewrite E; [exact E |].
    apply part000_api_base_kept. destruct b; vm_compute; discriminate.
  - destruct HP as [[E (s & -> & Hs)] | [b E]]; rewrite E.
    + cbn -[trim]. destruct (trim s); [now destruct Hs | reflexivity].
    + destruct b; reflexivity.
  - intros H. destruct HF as [(c & s & -> & E) | [Hn E]];
      [rewrite E in H; discriminate H |].
    rewrite E in H. split; [exact Hn |].
    destruct (jstring_eqb (protocol loc) (lit "file:")) eqn:E1; [discriminate H |].
    destruct (jstring_eqb (hostname loc) (lit "localhost")) eqn:E2; [discriminate H |].
    split; intros Hx; apply jstring_eqb_eq in Hx; congruence.
  - intros (Hp & Hf & Hl). destruct HF as [(c & s & -> & E) | [_ E]];
      [now destruct (Hp c s) |].
    rewrite E.
    destruct (jstring_eqb (protocol loc) (lit "file:")) eqn:E1;
      [apply jstring_eqb_eq in E1; contradiction |].
    destruct (jstring_eqb (hostname loc) (lit "localhost")) eqn:E2;
      [apply jstring_eqb_eq in E2; contradiction |].
    reflexivity.
Qed.
(* ===================================================================== *)
(** * The handlers outside the session controller *)
(* ===================================================================== *)

Lemma bridge_refl w : bridge_frame w w.
Proof.
  unfold bridge_frame. repeat split; try reflexivity.
  exists []. split; [symmetry; apply app_nil_r | intros ev []].
Qed.

Lemma bridge_trans a b c : bridge_frame a b -> bridge_frame b c -> bridge_frame a c.
Proof.
  intros (Hv1 & Hc1 & Hh1 & Hn1 & Hg1 & Hp1 & t1 & Ht1 & He1)
         (Hv2 & Hc2 & Hh2 & Hn2 & Hg2 & Hp2 & t2 & Ht2 & He2).
  unfold bridge_frame. repeat split; try congruence.
  exists (t1 ++ t2). split; [now rewrite Ht2, Ht1, app_assoc |].
  intros ev Hev. apply in_app_or in Hev as [Hev | Hev]; auto.
Qed.

Ltac bridge_step :=
  intros; unfold bridge_frame; cbn;
  repeat (split; [reflexivity |]);
  first [ exists []; split; [symmetry; apply app_nil_r | intros ? []]
        | eexists; split; [reflexivity |];
          let ev := fresh "ev" in let Hev := fresh "Hev" in
          intros ev Hev; cbn [In] in Hev;
          repeat (destruct Hev as [<- | Hev];
                  [first [exact I | let H := fresh in intros H; discriminate H] |]);
          contradiction ].

Lemma session_active_ids w :
  session_active w = true ->
  truthy (SESSION_ID (vars w)) = true /\ truthy (SESSION_TOKEN (vars w)) = true.
Proof.
  unfold session_active, js_and.
  destruct (truthy (SESSION_ID (vars w))) eqn:E; [now split |]. congruence.
Qed.

Lemma complete_when_active w text :
  session_active w = true -> text <> [] -> complete_send_task (send_task_request w text).
Proof.
  intros Ha Ht. destruct (session_active_ids w Ha) as [Hi Hk].
  exists (SESSION_ID (vars w)), (SESSION_TOKEN (vars w)), text. now repeat split.
Qed.

Lemma bridge_send w text :
  session_active w = true -> text <> [] ->
  bridge_frame w (add_event (EvFetch (send_task_request w text)) w).
Proof.
  intros Ha Ht. unfold bridge_frame. cbn. repeat (split; [reflexivity |]).
  eexists. split; [reflexivity |]. intros ev [<- | []]. intros _.
  now apply complete_when_active.
Qed.

Lemma bridge_show_and_forward reply : always bridge_frame (show_and_forward reply).
Proof.
  intros o n w. unfold show_and_forward. destruct reply as [| c r]; cbn [truthy].
  - apply bridge_refl.
  - go. destruct (session_active (with_page (set_editBox (c :: r)) w)) eqn:Ha; go; cbn [fst snd].
    + eapply bridge_trans; [| apply bridge_send; [exact Ha | discriminate]]. bridge_step.
    + bridge_step.
Qed.

#[export] Hint Resolve bridge_show_and_forward : always.

Ltac bridge := repeat always1 bridge_refl bridge_trans bridge_step.

Lemma bridge_reply_step v : always bridge_frame (reply_step v).
Proof. unfold reply_step. bridge. Qed.

#[export] Hint Resolve bridge_reply_step : always.

Lemma bridge_sendBtn : always bridge_frame sendBtn_click.
Proof.
  intros o n w. unfold sendBtn_click. go. rewrite edit_text. go.
  destruct (trim (editBox (page w))) as [| c t] eqn:Et; cbn [truthy negb]; go;
    [apply bridge_refl |].
  destruct (session_active w) eqn:Ha; cbn [negb]; go; [| bridge_step].
  assert (Hs : bridge_frame w
           (add_event (EvFetch (send_task_request w (c :: t)))
              (logged "viewer" "Send to avatar clicked"
                 [("text_len", VNum (Z.of_nat (List.length (c :: t))))] INFO w))).
  { eapply bridge_trans; [| apply (@bridge_send (logged _ _ _ _ w) (c :: t));
                             [exact Ha | discriminate]].
    bridge_step. }
  destruct (o (S n) (CFetch _)) as [e | st body]; go; cbn [fst snd]; [exact Hs |].
  eapply bridge_trans; [exact Hs |]. bridge_step.
Qed.

Lemma bridge_frontend_gpt : always bridge_frame Frontend.gptBtn_click.
Proof. unfold Frontend.gptBtn_click. bridge. Qed.

Lemma bridge_part000_gpt : always bridge_frame Part000.gptBtn_click.
Proof. unfold Part000.gptBtn_click. bridge. Qed.

Lemma bridge_explain name : always bridge_frame (explainPerfume name).
Proof.
  unfold explainPerfume.
  apply always_bind; [exact bridge_trans | bridge |]. intros nm.
  destruct (negb (truthy (VStr nm))) eqn:Hnm; [bridge |].
  apply always_bind; [exact bridge_trans | bridge |]. intros _.
  apply always_bind; [exact bridge_trans | bridge |]. intros _.
  apply always_bind_gets. intros w0.
  apply always_at_bind; [exact bridge_trans | | intros _; bridge].
  intros o n. destruct (session_active w0) eqn:Ha; go; [| apply bridge_refl].
  apply bridge_send; [exact Ha |]. destruct nm; [discriminate Hnm | discriminate].
Qed.

Lemma bridge_ping base : always bridge_frame (ping base).
Proof. unfold ping. bridge. Qed.

Lemma bridge_instr msg : always bridge_frame (instrBtn_click msg).
Proof.
  unfold instrBtn_click.
  apply always_bind; [exact bridge_trans | bridge |]. intros _.
  apply always_bind; [exact bridge_trans | bridge |]. intros _.
  apply always_try_catch; [exact bridge_trans | apply bridge_sendBtn | intros e; bridge].
Qed.

Lemma bridge_frontend_grid target :
  always bridge_frame (FrontendPage.perfumeGrid_click target).
Proof.
  unfold FrontendPage.perfumeGrid_click. destruct target as [fig |]; [| bridge].
  destruct (negb _); [bridge |].
  apply always_try_catch; [exact bridge_trans | apply bridge_explain | intros e; bridge].
Qed.

Lemma bridge_part000_grid target :
  always bridge_frame (Part000Page.perfumeGrid_click target).
Proof.
  unfold Part000Page.perfumeGrid_click. destruct target as [fig |]; [| bridge].
  destruct (negb _); [bridge |].
  apply always_try_catch; [exact bridge_trans | apply bridge_explain | intros e; bridge].
Qed.

Lemma bridge_data d : always bridge_frame (ondataavailable d).
Proof. unfold ondataavailable. bridge. Qed.

Lemma bridge_frontend_onstop s m : always bridge_frame (Frontend.onstop s m).
Proof.
  unfold Frontend.onstop, Frontend.upload_recording, Frontend.release_microphone. bridge.
Qed.

Lemma bridge_part000_onstop s m : always bridge_frame (Part000.onstop s m).
Proof.
  unfold Part000.onstop, Part000.upload_recording, Part000.release_microphone,
    Part000.recording_type. bridge.
Qed.
(* ===================================================================== *)
(** * The session controller *)
(* ===================================================================== *)

Lemma session_refl w : session_frame w w.
Proof.
  unfold session_frame. repeat split; try reflexivity.
  exists []. split; [symmetry; apply app_nil_r | intros ev []].
Qed.

Lemma session_trans a b c : session_frame a b -> session_frame b c -> session_frame a c.
Proof.
  intros (He1 & Hr1 & Hm1 & Hk1 & Hh1 & t1 & Ht1 & Hs1)
         (He2 & Hr2 & Hm2 & Hk2 & Hh2 & t2 & Ht2 & Hs2).
  unfold session_frame. repeat split; try congruence.
  exists (t1 ++ t2). split; [now rewrite Ht2, Ht1, app_assoc |].
  intros ev Hev. apply in_app_or in Hev as [Hev | Hev]; auto.
Qed.

Ltac session_step :=
  intros; unfold session_frame; cbn;
  repeat (split; [reflexivity |]);
  first [ exists []; split; [symmetry; apply app_nil_r | intros ? []]
        | eexists; split; [reflexivity |];
          let ev := fresh "ev" in let Hev := fresh "Hev" in
          intros ev Hev; cbn [In] in Hev;
          repeat (destruct Hev as [<- | Hev]; [reflexivity |]);
          contradiction ].

Ltac session := repeat always1 session_refl session_trans session_step.

Lemma session_negotiation : always session_frame negotiation_steps.
Proof.
  unfold negotiation_steps, replace_connection, new_RTCPeerConnection, pc_close,
    await_ice_gathering. session.
Qed.

Lemma session_adopt j : always session_frame (adopt_session j).
Proof. unfold adopt_session. session. Qed.

Lemma session_request_start body : always session_frame (request_start body).
Proof. unfold request_start. session. Qed.

#[export] Hint Resolve session_negotiation session_adopt session_request_start : always.

Lemma session_frontend_start : always session_frame Frontend.startSession.
Proof. unfold Frontend.startSession. session. Qed.

Lemma session_part000_start : always session_frame Part000.startSession.
Proof. unfold Part000.startSession. session. Qed.

Lemma session_frontend_stop : always session_frame Frontend.stopSession.
Proof. unfold Frontend.stopSession, notify_stop, drop_connection, pc_close. session. Qed.

Lemma session_part000_stop : always session_frame Part000.stopSession.
Proof. unfold Part000.stopSession, notify_stop, drop_connection, pc_close. session. Qed.

Lemma adopted_refl w : negotiates_adopted w w.
Proof.
  unfold negotiates_adopted. repeat split; try reflexivity.
  exists []. split; [symmetry; apply app_nil_r | intros ev []].
Qed.

Lemma adopted_trans a b c :
  negotiates_adopted a b -> negotiates_adopted b c -> negotiates_adopted a c.
Proof.
  intros (Hi1 & Hk1 & Ho1 & Hc1 & Hn1 & t1 & Ht1 & He1)
         (Hi2 & Hk2 & Ho2 & Hc2 & Hn2 & t2 & Ht2 & He2).
  unfold negotiates_adopted. repeat split; try congruence.
  exists (t1 ++ t2). split; [now rewrite Ht2, Ht1, app_assoc |].
  intros ev Hev. apply in_app_or in Hev as [Hev | Hev]; [now apply He1 |].
  specialize (He2 ev Hev). rewrite Hi1, Hk1, Hc1 in He2. exact He2.
Qed.

Ltac adopted_step :=
  intros; unfold negotiates_adopted; cbn;
  repeat (split; [reflexivity |]);
  first [ exists []; split; [symmetry; apply app_nil_r | intros ? []]
        | eexists; split; [repeat rewrite <- app_assoc; cbn [app]; reflexivity |];
          let ev := fresh "ev" in let Hev := fresh "Hev" in
          intros ev Hev; cbn [In] in Hev;
          repeat (destruct Hev as [<- | Hev];
                  [first [exact I | reflexivity
                         | let H := fresh in intros H; discriminate H] |]);
          contradiction ].

Ltac adopted := repeat always1 adopted_refl adopted_trans adopted_step.

Lemma adopted_replace_connection : always negotiates_adopted replace_connection.
Proof.
  intros o n w. rewrite run_replace_connection.
  destruct (o n (CNewPeerConnection _)) as [e |]; destruct (pc (vars w)) as [c0 |];
    cbn [fst snd]; adopted_step.
Qed.

#[export] Hint Resolve adopted_replace_connection : always.

Lemma adopted_await_ice : always negotiates_adopted await_ice_gathering.
Proof. unfold await_ice_gathering. adopted. Qed.

#[export] Hint Resolve adopted_await_ice : always.

Lemma adopted_upload w0 sdp :
  negotiates_adopted w0
    (add_event
       (EvFetch (Request "POST" "/api/heygen/start"
                   (FormBody
                      [("session_id", FText (USVString (ToString (SESSION_ID (vars w0)))));
                       ("session_token",
                        FText (USVString (ToString (SESSION_TOKEN (vars w0)))));
                       ("answer_sdp", FText sdp)]))) w0).
Proof.
  unfold negotiates_adopted. cbn. repeat (split; [reflexivity |]).
  eexists. split; [reflexivity |]. intros ev [<- | []]. intros _. now exists sdp.
Qed.

Lemma adopted_negotiation : always negotiates_adopted negotiation_steps.
Proof.
  unfold negotiation_steps.
  do 21 (apply always_bind; [exact adopted_trans | adopted | cbv beta; intros ?]).
  apply always_bind_gets. intros w0.
  apply always_at_bind_gets.
  apply always_at_bind_same;
    [exact adopted_refl | intros o n; now rewrite run_the_pc | intros c].
  apply always_at_bind_same; [exact adopted_refl | reflexivity | intros ld].
  apply always_at_bind_same;
    [exact adopted_refl | intros o n; now rewrite run_prop | intros sdp].
  cbv zeta.
  apply always_at_bind; [exact adopted_trans | | intros rStart; adopted].
  intros o n. rewrite run_fetch.
  destruct (o n (CFetch _)); cbn [fst snd]; apply adopted_upload.
Qed.

Lemma quiet_refl w : quiet w w.
Proof.
  unfold quiet. repeat split; try reflexivity.
  exists []. split; [symmetry; apply app_nil_r | intros ev []].
Qed.

Lemma quiet_trans a b c : quiet a b -> quiet b c -> quiet a c.
Proof.
  intros (Hv1 & Hn1 & t1 & Ht1 & He1) (Hv2 & Hn2 & t2 & Ht2 & He2).
  unfold quiet. repeat split; try congruence.
  exists (t1 ++ t2). split; [now rewrite Ht2, Ht1, app_assoc |].
  intros ev Hev. apply in_app_or in Hev as [Hev | Hev]; auto.
Qed.

Ltac quiet_step :=
  intros; unfold quiet; cbn;
  repeat (split; [reflexivity |]);
  first [ exists []; split; [symmetry; apply app_nil_r | intros ? []]
        | eexists; split; [reflexivity |];
          let ev := fresh "ev" in let Hev := fresh "Hev" in
          intros ev Hev; cbn [In] in Hev;
          repeat (destruct Hev as [<- | Hev];
                  [eexists; split; [reflexivity | first [now left | now right]] |]);
          contradiction ].

Ltac quietly := repeat always1 quiet_refl quiet_trans quiet_step.

Lemma quiet_request_start body : always quiet (request_start body).
Proof. unfold request_start. quietly. Qed.

Lemma request_start_accepts (o : oracle) n body w st j :
  o n (CFetch (Request "POST" "/api/start-session" (JsonBody body))) = Response st (Some j) ->
  st < 400 -> has_offer (Some j) = true ->
  fst (fst (run o n (request_start body w))) = inr j.
Proof.
  intros Ho Hst Hj. unfold request_start. go. rewrite Ho. go. cbn [fst snd].
  apply N.leb_gt in Hst. rewrite Hst. go.
  cbn [has_offer] in Hj. destruct (get_prop j "offer_sdp") as [e | v]; [discriminate Hj |].
  go. rewrite Hj. go. reflexivity.
Qed.

Lemma quiet_made_as_held a b c : quiet a b -> made_as_held b c -> made_as_held a c.
Proof.
  intros (_ & _ & t1 & Ht1 & He1) (t2 & Ht2 & Hc & Hu).
  exists (t1 ++ t2). split; [now rewrite Ht2, Ht1, app_assoc |]. split.
  - intros c0 cfg Hin. apply in_app_or in Hin as [Hin | Hin]; [| now apply Hc with (c := c0)].
    destruct (He1 _ Hin) as (rq & Hrq & _). discriminate Hrq.
  - intros rq Hin Hp. apply in_app_or in Hin as [Hin | Hin]; [| now apply Hu].
    destruct (He1 _ Hin) as (rq' & Hrq & [Hl | Hl]); injection Hrq as <-;
      rewrite Hl in Hp; discriminate Hp.
Qed.

Lemma quiet_is_made_as_held a b : quiet a b -> made_as_held a b.
Proof.
  intros H. apply quiet_made_as_held with (b := b); [exact H |].
  exists []. split; [symmetry; apply app_nil_r |]. split; intros; contradiction.
Qed.

Lemma adopted_is_made_as_held a b : negotiates_adopted a b -> made_as_held a b.
Proof.
  intros (Hi & Hk & _ & Hc & _ & t & Ht & He). exists t. split; [exact Ht |]. split.
  - intros c cfg Hin. rewrite Hc. exact (He _ Hin).
  - intros rq Hin Hp. rewrite Hi, Hk. exact (He _ Hin Hp).
Qed.

Lemma restore_quiet r w : keeps_all_but_placeholder r -> quiet w (r w).
Proof.
  intros Hr. destruct (Hr w) as (Hv & Ht & _ & _ & (_ & _ & _ & _ & (_ & Hn & _))).
  unfold quiet. repeat split; [exact Hv | exact Hn |].
  exists []. split; [rewrite Ht; symmetry; apply app_nil_r | intros ev []].
Qed.

Lemma restore_adopted r w : keeps_all_but_placeholder r -> negotiates_adopted w (r w).
Proof.
  intros Hr. destruct (Hr w) as (Hv & Ht & _ & _ & (_ & _ & _ & _ & (_ & Hn & _))).
  unfold negotiates_adopted. rewrite Hv. repeat split; try reflexivity; [exact Hn |].
  exists []. split; [rewrite Ht; symmetry; apply app_nil_r | intros ev []].
Qed.

Lemma start_core_held (o : oracle) n restore r body w :
  (forall n w, run o n (restore w) = (inr tt, r w, n)) ->
  keeps_all_but_placeholder r ->
  match run o n (start_core restore body w) with
  | (_, w', _) =>
      made_as_held w w' /\
      (forall st j,
         o n (CFetch (Request "POST" "/api/start-session" (JsonBody body)))
           = Response st (Some j) ->
         st < 400 -> has_offer (Some j) = true -> holds_response j w w')
  end.
Proof.
  intros Hrestore Hr. unfold start_core.
  rewrite run_bind, run_try_catch, run_bind.
  pose proof (quiet_request_start body o n w) as Hq.
  pose proof (request_start_effects o n body w) as HA.
  pose proof (@request_start_accepts o n body w) as Hacc.
  destruct (run o n (request_start body w)) as [[[e | j] w1] n1]; cbn [fst snd] in *;
    destruct HA as (_ & _ & _ & _ & Hoffer & _).
  - go. rewrite Hrestore. go. split.
    + apply quiet_is_made_as_held.
      eapply quiet_trans; [exact Hq |].
      eapply quiet_trans; [| apply restore_quiet; exact Hr]. quiet_step.
    + intros st j Ho Hst Hj. specialize (Hacc st j Ho Hst Hj). discriminate Hacc.
  - go. rewrite (run_adopt_session o n1 j w1 Hoffer). cbv beta iota.
    rewrite run_try_catch.
    pose proof (adopted_negotiation o n1 (adopted j w1)) as HB.
    assert (Hqa : quiet w w1 /\ trace (adopted j w1) = trace w1) by (split; [exact Hq | reflexivity]).
    assert (Hfinal : forall w', negotiates_adopted (adopted j w1) w' ->
              made_as_held w w' /\
              (forall st j',
                 o n (CFetch (Request "POST" "/api/start-session" (JsonBody body)))
                   = Response st (Some j') ->
                 st < 400 -> has_offer (Some j') = true -> holds_response j' w w')).
    { intros w' Hw'. split.
      - apply quiet_made_as_held with (b := w1); [exact Hq |].
        apply adopted_is_made_as_held in Hw'.
        destruct Hw' as (t & Ht & Hc & Hu). exists t. now split.
      - intros st j' Ho Hst Hj. specialize (Hacc st j' Ho Hst Hj). injection Hacc as <-.
        destruct Hw' as (Hi & Hk & Hof & Hc & Hn & _).
        destruct Hq as (Hv & _).
        unfold holds_response. rewrite Hi, Hk, Hof, Hc, Hn. cbn. rewrite Hv.
        repeat split. }
    destruct (run o n1 (negotiation_steps (adopted j w1))) as [[[e | []] w2] n2];
      cbn [fst snd] in HB.
    + go. rewrite Hrestore. cbn [fst snd]. apply Hfinal.
      eapply adopted_trans; [exact HB |].
      eapply adopted_trans; [| apply restore_adopted; exact Hr]. adopted_step.
    + apply Hfinal. exact HB.
Qed.

(** X2.  The handlers outside the session controller (send, chat, tile,
    instruction, tile grid, recorder data, recorder stop, ping) leave the
    session alone, whatever the backend answers: the session variables
    and [pc] are what they were, no connection is made or closed, the
    avatar's name, the audio gate and the placeholder are not touched;
    and a send-task request, whenever one of them makes one, carries an
    id and a token that are set and a text that is not empty. *)
Theorem bridge_handlers_leave_the_session_alone :
  forall (o : oracle) (w : World) (name : jstring) (target : option Figure)
         (data : option Blob) (s : stream) (mime : jstring) (base : jsval),
    let left (h : Async unit) := bridge_frame w (exec o h w) in
    left sendBtn_click /\
    left Frontend.gptBtn_click /\ left Part000.gptBtn_click /\
    left (explainPerfume name) /\
    left (instrBtn_click FrontendPage.instruction) /\
    left (instrBtn_click Part000Page.instruction) /\
    left (FrontendPage.perfumeGrid_click target) /\
    left (Part000Page.perfumeGrid_click target) /\
    left (ondataavailable data) /\
    left (Frontend.onstop s mime) /\ left (Part000.onstop s mime) /\
    left (ping base).
Proof.
  intros o w name target data s mime base left. unfold left, exec.
  split; [apply bridge_sendBtn |].
  split; [apply bridge_frontend_gpt |].
  split; [apply bridge_part000_gpt |].
  split; [apply bridge_explain |].
  split; [apply bridge_instr |].
  split; [apply bridge_instr |].
  split; [apply bridge_frontend_grid |].
  split; [apply bridge_part000_grid |].
  split; [apply bridge_data |].
  split; [apply bridge_frontend_onstop |].
  split; [apply bridge_part000_onstop | apply bridge_ping].
Qed.

(** X3.  The session controller keeps to itself: whatever happens while
    a session is started or stopped, the edit field, the recorder's
    variables and the microphone button are what they were, and no
    send-task request is made. *)
Theorem session_controller_keeps_to_itself :
  forall (o : oracle) (w : World),
    session_frame w (exec o Frontend.startSession w) /\
    session_frame w (exec o Part000.startSession w) /\
    session_frame w (exec o Frontend.stopSession w) /\
    session_frame w (exec o Part000.stopSession w).
Proof.
  intros o w. unfold exec.
  split; [apply session_frontend_start |].
  split; [apply session_part000_start |].
  split; [apply session_frontend_stop | apply session_part000_stop].
Qed.

Lemma frontend_start_held (o : oracle) w :
  made_as_held w (exec o Frontend.startSession w) /\
  (forall st j,
     answers o "/api/start-session" (eq (Response st (Some j))) ->
     st < 400 -> has_offer (Some j) = true ->
     holds_response j w (exec o Frontend.startSession w)).
Proof.
  unfold exec. rewrite frontend_is_core. go.
  set (w1 := with_page _ _).
  assert (Hq : quiet w w1) by (subst w1; quiet_step).
  pose proof (@start_core_held o 1 (@ret Async _ unit tt) (fun w => w)
                (Frontend.start_body w) w1 (fun _ _ => eq_refl) keeps_id) as H.
  destruct (run o 1 _) as [[res w'] n']. cbn [fst snd]. destruct H as [Hm Hh]. split.
  - now apply quiet_made_as_held with (b := w1).
  - intros st j Ha Hst Hj.
    assert (Ho : o 1%nat (CFetch (Request "POST" "/api/start-session" (JsonBody (Frontend.start_body w))))
                 = Response st (Some j)) by (symmetry; now apply Ha).
    specialize (Hh st j Ho Hst Hj).
    destruct Hq as (Hv & _). unfold holds_response in *. now rewrite <- Hv.
Qed.

Lemma part000_start_held (o : oracle) w :
  made_as_held w (exec o Part000.startSession w) /\
  (forall st j,
     answers o "/api/start-session" (eq (Response st (Some j))) ->
     st < 400 -> has_offer (Some j) = true ->
     holds_response j w (exec o Part000.startSession w)).
Proof.
  unfold exec. rewrite part000_is_core. go.
  set (w1 := with_page (set_viewerStatus _) _).
  assert (Hq : quiet w w1) by (subst w1; quiet_step).
  pose proof (@start_core_held o 1 (Part000.show_placeholder "")
                (with_page (set_avatarPlaceholder (lit "")))
                (Part000.start_body (with_page (set_avatarPlaceholder (lit "none")) w))
                w1 (fun _ _ => eq_refl) (keeps_placeholder _)) as H.
  destruct (run o 1 _) as [[res w'] n']. cbn [fst snd]. destruct H as [Hm Hh]. split.
  - now apply quiet_made_as_held with (b := w1).
  - intros st j Ha Hst Hj.
    assert (Ho : o 1%nat (CFetch (Request "POST" "/api/start-session" (JsonBody (Part000.start_body (with_page (set_avatarPlaceholder (lit "none")) w)))))
                 = Response st (Some j)) by (symmetry; now apply Ha).
    specialize (Hh st j Ho Hst Hj).
    destruct Hq as (Hv & _). unfold holds_response in *. now rewrite <- Hv.
Qed.


Lemma all_well_hands_out_s1 :
  answers all_well "/api/start-session" (eq (Response 200 (Some session_s1))).
Proof. intros n rq H. cbn. rewrite H. reflexivity. Qed.


(** A response whose identifier and avatar name are numbers: the upload
    carries the identifier and the page shows the name as JavaScript
    prints them. *)
Lemma startSession_with_numbers :
  let f := exec numbers_handed_out Frontend.startSession initial_world in
  let p := exec numbers_handed_out Part000.startSession initial_world in
  let upload :=
    Request "POST" "/api/heygen/start"
      (FormBody [("session_id", FText (lit "12345678901234567000"));
                 ("session_token", FText (lit "t1"));
                 ("answer_sdp", FText (lit "<answer>"))]) in
  aname (page f) = lit "1e+21" /\ aname (page p) = lit "1e+21" /\
  In (EvFetch upload) (trace f) /\ In (EvFetch upload) (trace p).
Proof.
  vm_compute. repeat split; repeat ((left; reflexivity) || right).
Qed.
(* ===================================================================== *)
(** * Handlers that never reject *)
(* ===================================================================== *)

Lemma nr_bind {A B} (m : Async A) (f : A -> Async B) :
  never_rejects m -> (forall a, never_rejects (f a)) -> never_rejects (x <- m ;; f x).
Proof.
  intros Hm Hf o n w. rewrite run_bind. destruct (Hm o n w) as [a Ha].
  destruct (run o n (m w)) as [[[e | a'] w1] n1]; cbn [fst snd] in *; [discriminate Ha |].
  apply Hf.
Qed.

Lemma nr_try_catch {A} (m : Async A) (h : exn -> Async A) :
  (forall e, never_rejects (h e)) -> never_rejects (try_catch m h).
Proof.
  intros Hh o n w. rewrite run_try_catch.
  destruct (run o n (m w)) as [[[e | a] w1] n1]; cbn [fst snd]; [apply Hh | now exists a].
Qed.

Lemma nr_ret {A} (a : A) : never_rejects (ret a).
Proof. intros o n w. now exists a. Qed.

Lemma nr_gets {A} (f : World -> A) : never_rejects (gets f).
Proof. intros o n w. now exists (f w). Qed.

Lemma nr_modify f : never_rejects (modify f).
Proof. intros o n w. now exists tt. Qed.

Lemma nr_lift {A} (a : A) : never_rejects (lift (inr a)).
Proof. intros o n w. now exists a. Qed.

Lemma nr_flog a m e l : never_rejects (flog a m e l).
Proof. intros o n w. rewrite run_flog. now exists tt. Qed.

Ltac nr1 :=
  lazymatch goal with
  | |- never_rejects (setStatus _) => apply nr_modify
  | |- never_rejects (flog _ _ _ _) => apply nr_flog
  | |- never_rejects (fetch_and_forget _) => apply nr_modify
  | |- never_rejects (ret _) => apply nr_ret
  | |- never_rejects (gets _) => apply nr_gets
  | |- never_rejects (lift (inr _)) => apply nr_lift
  | |- never_rejects (modify _) => apply nr_modify
  | |- never_rejects (bind _ _) => apply nr_bind
  | |- never_rejects (try_catch _ _) => apply nr_try_catch
  | |- never_rejects (not_awaited _) => apply nr_try_catch
  | |- never_rejects (if ?b then _ else _) => destruct b
  | |- never_rejects (match ?x with _ => _ end) => destruct x
  | |- _ => intro; cbv beta zeta; rewrite ?edit_text, ?length_or_empty
  end.

Ltac nr := repeat nr1.

Lemma nr_frontend_gpt : never_rejects Frontend.gptBtn_click.
Proof. unfold Frontend.gptBtn_click. nr. Qed.

Lemma nr_part000_gpt : never_rejects Part000.gptBtn_click.
Proof. unfold Part000.gptBtn_click. nr. Qed.

Lemma nr_explain name : never_rejects (explainPerfume name).
Proof. unfold explainPerfume. rewrite edit_text. nr. Qed.

(** X5.  The chat handler, the tile handler, the instruction handler,
    the tile grid's handler, the recorder's data handler and the ping
    settle in every environment: whatever the backend answers, and
    whatever is in the edit field or in the reply, none of them rejects.
    (The instruction handler settles even when the send handler it
    triggers rejects.) *)
Theorem bridge_handlers_never_reject :
  forall (name : jstring) (target : option Figure) (data : option Blob) (base : jsval),
    never_rejects Frontend.gptBtn_click /\
    never_rejects Part000.gptBtn_click /\
    never_rejects (explainPerfume name) /\
    never_rejects (instrBtn_click FrontendPage.instruction) /\
    never_rejects (instrBtn_click Part000Page.instruction) /\
    never_rejects (FrontendPage.perfumeGrid_click target) /\
    never_rejects (Part000Page.perfumeGrid_click target) /\
    never_rejects (ondataavailable data) /\
    never_rejects (ping base).
Proof.
  intros name target data base.
  split; [apply nr_frontend_gpt |].
  split; [apply nr_part000_gpt |].
  split; [apply nr_explain |].
  split; [unfold instrBtn_click; nr |].
  split; [unfold instrBtn_click; nr |].
  split; [unfold FrontendPage.perfumeGrid_click; nr |].
  split; [unfold Part000Page.perfumeGrid_click; nr |].
  split; [unfold ondataavailable; nr | unfold ping; nr].
Qed.
(* ===================================================================== *)
(** * The ping and the logger *)
(* ===================================================================== *)

(** X6.  [flog] cannot fail and does not depend on the backend: whether
    the log request is rejected or answered, with whatever status, it
    returns having added one line to the debug box and made one request,
    to the log endpoint, and nothing else has changed. *)
Theorem flog_does_not_depend_on_the_backend :
  forall (o : oracle) (n : nat) (area message : string)
         (extra : list (string * jsval)) (level : string) (w : World),
    let r := run o n (flog area message extra level w) in
    let w' := snd (fst r) in
    fst (fst r) = inr tt /\
    uiDebug (page w') = uiDebug (page w) ++ [LogLine area message extra] /\
    trace w' = trace w ++ [EvFetch (log_request area message extra level)] /\
    asked o n (flog area message extra level w)
      = [existT reply (CFetch (log_request area message extra level))
           (o n (CFetch (log_request area message extra level)))] /\
    vars w' = vars w /\ recv w' = recv w /\
    viewerStatus (page w') = viewerStatus (page w) /\
    editBox (page w') = editBox (page w).
Proof.
  intros o n area message extra level w r w'. subst w' r.
  rewrite run_flog, asked_flog. cbn. repeat split.
Qed.

(** X7.  The ping at load time.  If the backend answers at all, with
    whatever status, the status line reads "Ready." and the answer's
    status is in the debug box.  Only when the request is rejected does
    the status line say that the backend is not reachable, with the
    address the script uses, and the error goes to the log at level
    ERROR. *)
Theorem ping_tells_whether_the_backend_answers :
  forall (o : oracle) (base : jsval) (w : World),
    let w' := exec o (ping base) w in
    match o 0%nat (CFetch (Request "GET" "/api/ping" NoBody)) with
    | Response st _ =>
        viewerStatus (page w') = status_ready /\
        uiDebug (page w') =
          uiDebug (page w)
            ++ [LogLine "frontend" "perfume.js loaded"
                  [("api_base", base); ("ping", VNum (Z.of_N st))]]
    | NetworkError e =>
        viewerStatus (page w') = lit "Backend not reachable at " ++ ToString base /\
        uiDebug (page w') =
          uiDebug (page w)
            ++ [LogLine "frontend" "perfume.js load error"
                  [("err", VStr (String_of_exn e)); ("api_base", base)]] /\
        In (EvFetch (log_request "frontend" "perfume.js load error"
                       [("err", VStr (String_of_exn e)); ("api_base", base)] ERROR))
           (trace w')
    end.
Proof.
  intros o base w w'. subst w'. unfold exec, ping. go.
  destruct (o 0%nat (CFetch _)) as [e | st body]; go; cbn [fst snd].
  - split; [reflexivity |]. split; [reflexivity |]. trace_norm.
    apply in_or_app. right. in_list.
  - split; reflexivity.
Qed.
(* ===================================================================== *)
(** * The input bridge: failures *)
(* ===================================================================== *)

(** X8.  The send handler does not catch a failure of its request.  With
    text and a session, when the send-task request is rejected the
    handler rejects with that error, and the debug box holds the line
    for the click and nothing about the request; when the request is
    answered, with whatever status, the handler returns and the answer
    is in the debug box.  Either way the edit field and the status line
    are left as they were. *)
Theorem send_failure_is_not_caught :
  forall (o : oracle) (w : World),
    trim (editBox (page w)) <> [] ->
    session_active w = true ->
    let text := trim (editBox (page w)) in
    let r := o 1%nat (CFetch (send_task_request w text)) in
    let w' := exec o sendBtn_click w in
    outcome o sendBtn_click w
      = match r with NetworkError e => inl e | Response _ _ => inr tt end /\
    uiDebug (page w') = uiDebug (page w) ++ send_lines text r /\
    editBox (page w') = editBox (page w) /\
    viewerStatus (page w') = viewerStatus (page w).
Proof.
  intros o w Ht Hs text r w'. subst w' r text. unfold outcome, exec, sendBtn_click.
  go. rewrite edit_text. go.
  destruct (trim (editBox (page w))) as [| c t] eqn:Et; [congruence |].
  cbn [truthy negb]. go. rewrite Hs. cbn [negb]. go.
  destruct (o 1%nat (CFetch (send_task_request w (c :: t)))) as [e | st body]; go;
    cbn [fst snd]; repeat split; cbn; rewrite <- ?app_assoc; reflexivity.
Qed.

(** The theorem on a session in which "Hello" is sent and the request
    is rejected. *)
Lemma send_failure_witness :
  trim (editBox (page in_session)) <> [] /\
  session_active in_session = true /\
  outcome send_rejected sendBtn_click in_session = inl unreachable /\
  editBox (page (exec send_rejected sendBtn_click in_session)) = lit "Hello".
Proof.
  assert (H1 : trim (editBox (page in_session)) <> []) by (vm_compute; discriminate).
  assert (H2 : session_active in_session = true) by reflexivity.
  split; [exact H1 |]. split; [exact H2 |].
  destruct (send_failure_is_not_caught send_rejected in_session H1 H2) as (Ho & _ & He & _).
  split; [exact Ho | exact He].
Defined.

Lemma frontend_chat_fails (o : oracle) w e :
  answers o "/api/chat" (eq (NetworkError e)) ->
  chat_failed e w (exec o Frontend.gptBtn_click w).
Proof.
  intros Ha. unfold exec, Frontend.gptBtn_click. go. rewrite edit_text. go.
  set (text := trim (editBox (page w))).
  destruct (negb (truthy (VStr text))); go;
    rewrite <- (Ha 1%nat (chat_request text) eq_refl); go; cbn [fst snd];
    (split; [reflexivity |]; split; [cbn; apply in_or_app; right; in_list |];
     split; [trace_norm; apply in_or_app; right; in_list |];
     split; [reflexivity |]; split; [reflexivity |];
     eexists; split; [trace_norm; reflexivity |];
     intros ev Hev Hs; cbn [In] in Hev;
     repeat (destruct Hev as [<- | Hev]; [discriminate Hs |]); contradiction).
Qed.

Lemma part000_chat_fails (o : oracle) w e :
  answers o "/api/chat" (eq (NetworkError e)) ->
  chat_failed e w (exec o Part000.gptBtn_click w).
Proof.
  intros Ha. unfold exec, Part000.gptBtn_click. go. rewrite edit_text. go.
  set (text := trim (editBox (page w))). rewrite length_or_empty. go.
  rewrite <- (Ha 1%nat (chat_request text) eq_refl); go; cbn [fst snd].
  split; [reflexivity |]. split; [cbn; apply in_or_app; right; in_list |].
  split; [trace_norm; apply in_or_app; right; in_list |].
  split; [reflexivity |]. split; [reflexivity |].
  eexists; split; [trace_norm; reflexivity |].
  intros ev Hev Hs; cbn [In] in Hev.
  repeat (destruct Hev as [<- | Hev]; [discriminate Hs |]); contradiction.
Qed.

(** X9.  When the chat request is rejected, the chat handler of either
    script reports it: the status reads "OpenAI error", the error is in
    the debug box and goes to the log at level ERROR; the edit field and
    the session variables are as they were and no send-task request is
    made. *)
Theorem chat_failure_is_reported :
  forall (o : oracle) (w : World) (e : exn),
    answers o "/api/chat" (eq (NetworkError e)) ->
    chat_failed e w (exec o Frontend.gptBtn_click w) /\
    chat_failed e w (exec o Part000.gptBtn_click w).
Proof.
  intros o w e Ha. split; [now apply frontend_chat_fails | now apply part000_chat_fails].
Qed.

Lemma chat_unreachable_answers :
  answers chat_unreachable "/api/chat" (eq (NetworkError unreachable)).
Proof. intros n rq H. cbn. rewrite H. reflexivity. Qed.

(** The theorem on a session in which the chat backend is down. *)
Lemma chat_failure_witness :
  answers chat_unreachable "/api/chat" (eq (NetworkError unreachable)) /\
  chat_failed unreachable in_session (exec chat_unreachable Frontend.gptBtn_click in_session) /\
  chat_failed unreachable in_session (exec chat_unreachable Part000.gptBtn_click in_session).
Proof.
  split; [exact chat_unreachable_answers |].
  exact (@chat_failure_is_reported chat_unreachable in_session unreachable
           chat_unreachable_answers).
Defined.

(** X10.  An answer of the chat backend whose body is not JSON.  The
    first script takes it for an empty object: below 400 the status ends
    on "Ready.", from 400 on it shows the error status of the answer; it
    reports no failure.  The second script fails on it whatever the
    status and reports the failure as it does for a rejected request.
    In both, the edit field is kept and nothing is sent to the
    session. *)
Theorem chat_body_that_is_not_json :
  forall (o : oracle) (w : World) (st : N),
    answers o "/api/chat" (eq (Response st None)) ->
    (let w' := exec o Frontend.gptBtn_click w in
     viewerStatus (page w') =
       (if 400 <=? st then lit "OpenAI error (see debug box)" else status_ready) /\
     reply_dropped (editBox (page w)) [] w w' /\
     forall l, In l (uiDebug (page w')) -> log_message l = "error" -> In l (uiDebug (page w))) /\
    (exists e, chat_failed e w (exec o Part000.gptBtn_click w)).
Proof.
  intros o w st Ha. split.
  - cbv zeta. unfold exec, Frontend.gptBtn_click. go. rewrite edit_text. go.
    set (text := trim (editBox (page w))).
    destruct (negb (truthy (VStr text))); go;
      rewrite <- (Ha 1%nat (chat_request text) eq_refl); go; cbn [fst snd];
      (destruct (400 <=? st); go;
       [| change (if truthy (js_and (VObj []) (opt_prop (VObj []) "response"))
                  then opt_prop (VObj []) "response" else VStr [])
            with (VStr []);
          rewrite run_reply_step_blank by reflexivity ];
       cbn [fst snd];
       (split; [reflexivity |]; split;
        [ split; [reflexivity |]; split; [reflexivity |];
          eexists; split; [trace_norm; reflexivity |];
          intros ev Hev Hs; cbn [In] in Hev;
          repeat (destruct Hev as [<- | Hev]; [discriminate Hs |]); contradiction
        | intros l Hl Hm; cbn in Hl; repeat rewrite <- app_assoc in Hl;
          apply in_app_or in Hl as [Hl | Hl]; [exact Hl |];
          cbn [In app] in Hl;
          repeat (destruct Hl as [<- | Hl]; [discriminate Hm |]); contradiction ])).
  - exists (Exn (lit "SyntaxError") (lit "Unexpected token")).
    unfold exec, Part000.gptBtn_click. go. rewrite edit_text. go.
    set (text := trim (editBox (page w))). rewrite length_or_empty. go.
    rewrite <- (Ha 1%nat (chat_request text) eq_refl); go; cbn [fst snd json].
    go. cbn [fst snd].
    split; [reflexivity |]. split; [cbn; apply in_or_app; right; in_list |].
    split; [trace_norm; apply in_or_app; right; in_list |].
    split; [reflexivity |]. split; [reflexivity |].
    eexists; split; [trace_norm; reflexivity |].
    intros ev Hev Hs; cbn [In] in Hev.
    repeat (destruct Hev as [<- | Hev]; [discriminate Hs |]); contradiction.
Qed.

Lemma chat_not_json_answers : answers chat_not_json "/api/chat" (eq (Response 200 None)).
Proof. intros n rq H. cbn. rewrite H. reflexivity. Qed.

(** The theorem on a fresh page. *)
Lemma chat_not_json_witness :
  answers chat_not_json "/api/chat" (eq (Response 200 None)) /\
  viewerStatus (page (exec chat_not_json Frontend.gptBtn_click initial_world)) = status_ready /\
  exists e, chat_failed e initial_world (exec chat_not_json Part000.gptBtn_click initial_world).
Proof.
  split; [exact chat_not_json_answers |].
  destruct (@chat_body_that_is_not_json chat_not_json initial_world 200 chat_not_json_answers)
    as [[H1 _] H2].
  split; [exact H1 | exact H2].
Defined.
(* ===================================================================== *)
(** * Tiles and the instruction button *)
(* ===================================================================== *)

Lemma explain_trimmed name w : explainPerfume (trim name) w = explainPerfume name w.
Proof. unfold explainPerfume. cbn [bind Monad_Async]. now rewrite !edit_text, trim_idempotent. Qed.

Lemma frontend_say_is_trimmed fig : FrontendPage.say fig = trim (Part000Page.say fig).
Proof.
  unfold FrontendPage.say, Part000Page.say.
  destruct (figcaption fig) as [t |]; reflexivity.
Qed.

(** X11.  The handler of the tile grid does the same in both scripts,
    although one trims the tile's text before it hands it on and the
    other does not.  A click outside a tile, or on a tile whose text is
    blank, does nothing at all.  The text is the tile's [data-say]
    attribute when it has one that is not empty, and else the text of
    its caption. *)
Theorem tile_click_is_the_same_in_both_scripts :
  forall (target : option Figure) (w : World),
    FrontendPage.perfumeGrid_click target w = Part000Page.perfumeGrid_click target w /\
    (target = None -> FrontendPage.perfumeGrid_click target w = Finished tt w) /\
    (forall fig, target = Some fig -> trim (Part000Page.say fig) = [] ->
       FrontendPage.perfumeGrid_click target w = Finished tt w) /\
    (forall fig c d, data_say fig = Some (c :: d) ->
       Part000Page.say fig = c :: d /\ FrontendPage.say fig = trim (c :: d)) /\
    (forall fig, data_say fig = None \/ data_say fig = Some [] ->
       Part000Page.say fig = match figcaption fig with Some t => t | None => [] end).
Proof.
  intros target w. repeat apply conj.
  - destruct target as [fig |]; [| reflexivity].
    unfold FrontendPage.perfumeGrid_click, Part000Page.perfumeGrid_click.
    rewrite frontend_say_is_trimmed.
    destruct (negb (truthy (VStr (trim (Part000Page.say fig))))); [reflexivity |].
    unfold not_awaited, try_catch. now rewrite explain_trimmed.
  - now intros ->.
  - intros fig -> H. unfold FrontendPage.perfumeGrid_click.
    now rewrite frontend_say_is_trimmed, H.
  - intros fig c d H. rewrite frontend_say_is_trimmed. unfold Part000Page.say.
    rewrite H. now split.
  - intros fig [H | H]; unfold Part000Page.say; rewrite H; cbn [attr_or nonempty_or truthy];
      destruct (figcaption fig) as [[| c t] |]; reflexivity.
Qed.

Lemma send_tasks_app a b : send_tasks (a ++ b) = send_tasks a ++ send_tasks b.
Proof. apply filter_app. Qed.

(** X12.  A tile that is pressed speaks its name at once and the
    explanation when it has come.  With a name that is not blank and an
    answer of the backend that carries a reply: the send-task requests
    of the run are, with a session, the name and then, when the answer
    is below 400 and the reply is not blank, the reply; without a
    session there is none.  The edit field ends on the reply if one was
    shown and on the name otherwise, and reads either with every line
    break as one line feed; the status ends on "Ready.", or on the error
    status for an answer from 400 on. *)
Theorem tile_speaks_the_name_then_the_reply :
  forall (o : oracle) (w : World) (name : jstring) (st : N) (j : jsval) (s : jstring),
    trim name <> [] ->
    answers o "/api/perfume-explain" (eq (Response st (Some j))) ->
    replies j s ->
    let nm := trim name in
    let shows := negb (400 <=? st) && truthy (VStr (trim s)) in
    let w' := exec o (explainPerfume name) w in
    (exists t, trace w' = trace w ++ t /\
       send_tasks t =
         if session_active w
         then EvFetch (send_task_request w nm)
              :: (if shows then [EvFetch (send_task_request w (trim s))] else [])
         else []) /\
    editBox (page w') = newlines (if shows then trim s else nm) /\
    viewerStatus (page w') =
      (if 400 <=? st then lit "OpenAI error (see debug)" else status_ready).
Proof.
  intros o w name st j s Hn Ha Hj nm shows w'. subst w' shows.
  unfold exec, explainPerfume. go. rewrite edit_text. go. fold nm.
  destruct nm as [| c nm'] eqn:Enm; [subst nm; congruence |]. cbn [truthy negb]. go.
  change (session_active (logged _ _ _ _ (with_page _ w))) with (session_active w).
  destruct (session_active w) eqn:Hact; go;
    rewrite <- (Ha 1%nat (explain_request (c :: nm')) eq_refl); go; cbn [fst snd];
    rewrite (frontend_reply_value Hj);
    (destruct (400 <=? st); cbn [negb andb]; go;
     [ | destruct (trim s) as [| c' r] eqn:Hs;
         [ rewrite run_reply_step_blank by exact Hs
         | rewrite run_reply_step_shown by (rewrite Hs; discriminate); rewrite Hs ] ];
     cbn [fst snd truthy]).
  all: try match goal with
           | |- context [shown ?r ?w0] =>
               destruct (shown_facts r w0) as (He & Hv & _ & Ht); rewrite He, Hv, Ht;
               change (session_active w0) with (session_active w); rewrite Hact
           end.
  all: (split; [eexists; split; [trace_norm; reflexivity | reflexivity] | split; reflexivity]).
Qed.

Lemma tile_says_answers st s :
  answers (chat_says st s) "/api/perfume-explain"
    (eq (Response st (Some (VObj [("response", VStr (lit s))])))).
Proof. apply chat_says_answers. now right. Qed.

(** The theorem on a session in which the tile "Rose" is pressed and the
    backend explains it. *)
Lemma tile_speaks_witness :
  exists t,
    trace (exec (chat_says 200 "A floral scent.") (explainPerfume (lit " Rose ")) in_session)
      = trace in_session ++ t /\
    send_tasks t = [EvFetch (send_task_request in_session (lit "Rose"));
                    EvFetch (send_task_request in_session (lit "A floral scent."))].
Proof.
  assert (Hn : trim (lit " Rose ") <> []) by (vm_compute; discriminate).
  destruct (@tile_speaks_the_name_then_the_reply (chat_says 200 "A floral scent.") in_session
              (lit " Rose ") 200 (VObj [("response", VStr (lit "A floral scent."))])
              (lit "A floral scent.") Hn (tile_says_answers 200 "A floral scent.") eq_refl)
    as [(t & Ht & Hs) _].
  exists t. split; [exact Ht | exact Hs].
Defined.

(** A tile whose explanation has two lines: the edit field reads it
    with a line feed between them. *)
Lemma tile_reply_of_two_lines :
  editBox (page (exec (backend_says (VStr two_lines)) (explainPerfume (lit " Rose "))
                   in_session))
  = lit "Fresh." ++ [10] ++ lit "Floral.".
Proof. vm_compute. reflexivity. Qed.

Lemma instr_run (o : oracle) w msg :
  trim msg = msg -> newlines msg = msg -> msg <> [] ->
  let w' := exec o (instrBtn_click msg) w in
  editBox (page w') = msg /\
  (exists t, trace w' = trace w ++ t /\
     send_tasks t = if session_active w then [EvFetch (send_task_request w msg)] else []) /\
  (session_active w = false -> viewerStatus (page w') = status_start_first).
Proof.
  intros Ht Hnl Hm. cbv zeta. unfold exec, instrBtn_click, not_awaited. go.
  unfold sendBtn_click. go.
  cbn [page editBox with_page set_editBox logged add_event add_uiDebug].
  rewrite Hnl, edit_text, Ht. go.
  destruct msg as [| c m]; [congruence |]. cbn [truthy negb]. go.
  change (session_active (logged _ _ _ _ (with_page _ w))) with (session_active w).
  change (send_task_request (logged _ _ _ _ (with_page _ w)) (c :: m))
    with (send_task_request w (c :: m)).
  destruct (session_active w) eqn:Ha; cbn [negb]; go.
  - destruct (o 2%nat (CFetch _)) as [e | st body]; go; cbn [fst snd];
      (split; [exact Hnl |]; split; [| discriminate];
       eexists; split; [trace_norm; reflexivity | reflexivity]).
  - cbn [fst snd]. split; [exact Hnl |]. split; [| reflexivity].
    eexists; split; [trace_norm; reflexivity | reflexivity].
Qed.

(** X13.  The instruction button puts its text in the edit field and has
    it sent: with a session, the run makes one send-task request, which
    carries that text as it is; without one it makes none and the status
    asks to start a session first.  The edit field holds the text
    either way, whatever it held before. *)
Theorem instruction_is_spoken_when_a_session_runs :
  forall (o : oracle) (w : World) (msg : jstring),
    msg = FrontendPage.instruction \/ msg = Part000Page.instruction ->
    let w' := exec o (instrBtn_click msg) w in
    editBox (page w') = msg /\
    (exists t, trace w' = trace w ++ t /\
       send_tasks t = if session_active w then [EvFetch (send_task_request w msg)] else []) /\
    (session_active w = false -> viewerStatus (page w') = status_start_first).
Proof.
  intros o w msg [-> | ->]; apply instr_run; try reflexivity; discriminate.
Qed.

(** The theorem on a running session and the second script's text. *)
Lemma instruction_witness :
  exists t,
    trace (exec all_well (instrBtn_click Part000Page.instruction) in_session)
      = trace in_session ++ t /\
    send_tasks t = [EvFetch (send_task_request in_session Part000Page.instruction)].
Proof.
  destruct (@instruction_is_spoken_when_a_session_runs all_well in_session
              Part000Page.instruction (or_intror eq_refl)) as (_ & (t & Ht & Hs) & _).
  exists t. split; [exact Ht | exact Hs].
Defined.
(* ===================================================================== *)
(** * The recorder: type, data, upload *)
(* ===================================================================== *)

Lemma first_supported_spec sup (c : list jstring) :
  (forall m, In m c -> m <> []) ->
  (first_supported sup c = [] /\ forall m, In m c -> sup m = false) \/
  (exists before after,
     c = before ++ first_supported sup c :: after /\
     sup (first_supported sup c) = true /\
     first_supported sup c <> [] /\
     forall m, In m before -> sup m = false).
Proof.
  induction c as [| m c IH]; intros Hne; cbn [first_supported].
  - left. split; [reflexivity | intros m []].
  - destruct (sup m) eqn:E.
    + right. exists [], c. repeat split; auto.
      * apply Hne. now left.
      * intros x [].
    + destruct IH as [[H1 H2] | (before & after & Hc & Hs & Hn & Hb)].
      * intros x Hx. apply Hne. now right.
      * left. split; [exact H1 |]. intros x [<- | Hx]; auto.
      * right. exists (m :: before), after. repeat split; auto.
        -- cbn. now rewrite <- Hc.
        -- intros x [<- | Hx]; auto.
Qed.

(** X14.  [chooseMime] gives the first of its six candidates, in the
    order of preference, that the browser says it supports, so that
    every candidate before it is unsupported; and the empty string
    exactly when the browser supports none of them. *)
Theorem chooseMime_takes_the_first_supported :
  forall (isTypeSupported : jstring -> bool),
    (chooseMime isTypeSupported = [] <->
     forall m, In m mime_candidates -> isTypeSupported m = false) /\
    (chooseMime isTypeSupported <> [] ->
     exists before after,
       mime_candidates = before ++ chooseMime isTypeSupported :: after /\
       isTypeSupported (chooseMime isTypeSupported) = true /\
       forall m, In m before -> isTypeSupported m = false).
Proof.
  intros sup. unfold chooseMime.
  assert (Hne : forall m, In m mime_candidates -> m <> []).
  { intros m Hm. cbn in Hm. repeat (destruct Hm as [<- | Hm]; [discriminate |]). contradiction. }
  destruct (first_supported_spec sup mime_candidates Hne)
    as [[H1 H2] | (before & after & Hc & Hs & Hn & Hb)].
  - split; [split; auto | congruence].
  - split.
    + split; [congruence |]. intros Hall.
      assert (Hin : In (first_supported sup mime_candidates)
                      (before ++ first_supported sup mime_candidates :: after))
        by (apply in_or_app; right; now left).
      rewrite <- Hc in Hin. rewrite (Hall _ Hin) in Hs. discriminate Hs.
    + intros _. now exists before, after.
Qed.

Lemma nonempty_or_nonempty a b : b <> [] -> nonempty_or a b <> [].
Proof. unfold nonempty_or. destruct a; cbn; [auto | intros _; discriminate]. Qed.

Lemma frontend_type_nonempty w mime : Frontend.recording_type w mime <> [].
Proof.
  unfold Frontend.recording_type.
  destruct (mediaRecorder (recv w)) as [m |]; destruct (chunks (recv w)) as [| b l];
    repeat apply nonempty_or_nonempty; discriminate.
Qed.

Lemma run_ondataavailable o n d w :
  run o n (ondataavailable d w) =
  (inr tt,
   match d with
   | Some b => if blob_size b =? 0 then w else with_recv (push_chunk b) w
   | None => w
   end, n).
Proof. destruct d as [b |]; cbn; [destruct (blob_size b =? 0) |]; reflexivity. Qed.

Lemma total_size_from l acc :
  fold_left (fun a b => a + blob_size b) l acc = acc + total_size l.
Proof.
  unfold total_size. revert acc. induction l as [| x l IH]; intros acc; cbn [fold_left].
  - lia.
  - rewrite IH, (IH (0 + blob_size x)). lia.
Qed.

Lemma total_size_app a b : total_size (a ++ b) = total_size a + total_size b.
Proof. unfold total_size at 1. rewrite fold_left_app. apply total_size_from. Qed.

Lemma total_size_kept ds : total_size (kept ds) = fold_right (fun d acc => data_size d + acc) 0 ds.
Proof.
  induction ds as [| [b |] ds IH]; cbn [kept fold_right data_size]; [reflexivity | | lia].
  destruct (blob_size b =? 0) eqn:E.
  - apply N.eqb_eq in E. lia.
  - change (b :: kept ds) with ([b] ++ kept ds). rewrite total_size_app, IH.
    unfold total_size. cbn. lia.
Qed.

Lemma deliver_chunks o ds w :
  deliver o ds w =
  with_recv (fun r => MkRecVars (mediaRecorder r) (chunks r ++ kept ds) (sourceNode r)) w.
Proof.
  revert w. induction ds as [| d ds IH]; intros w; cbn [deliver kept].
  - destruct w as [h v [m c s] p t k]. unfold with_recv.
    cbn [recv mediaRecorder chunks sourceNode HEYGEN_FIXED vars page trace conns].
    now rewrite app_nil_r.
  - unfold exec. rewrite run_ondataavailable. cbn [fst snd]. rewrite IH.
    destruct d as [b |]; [| reflexivity].
    destruct (blob_size b =? 0); [reflexivity |].
    destruct w as [h v [m c s] p t k]. unfold with_recv, push_chunk.
    cbn [recv mediaRecorder chunks sourceNode HEYGEN_FIXED vars page trace conns].
    now rewrite <- app_assoc.
Qed.

(** X15.  The data of a recording.  Of the data events that the
    recorder delivers, the handler keeps those that carry a blob with
    something in it, in the order of arrival and behind the chunks it
    already holds, and it touches nothing else.  So no chunk it has kept
    is empty, and the chunks add up to the size of all that was
    delivered. *)
Theorem recorder_keeps_the_data_that_is_not_empty :
  forall (o : oracle) (ds : list (option Blob)) (w : World),
    let w' := deliver o ds w in
    chunks (recv w') = chunks (recv w) ++ kept ds /\
    (forall b, In b (kept ds) -> blob_size b <> 0 /\ In (Some b) ds) /\
    total_size (chunks (recv w'))
      = total_size (chunks (recv w)) + fold_right (fun d acc => data_size d + acc) 0 ds /\
    mediaRecorder (recv w') = mediaRecorder (recv w) /\
    sourceNode (recv w') = sourceNode (recv w) /\
    vars w' = vars w /\ page w' = page w /\ trace w' = trace w.
Proof.
  intros o ds w w'. subst w'. rewrite deliver_chunks.
  cbn [recv with_recv chunks mediaRecorder sourceNode vars page trace].
  split; [reflexivity |]. split.
  - clear. induction ds as [| [x |] ds IH]; cbn [kept]; intros b Hb; try contradiction.
    + destruct (blob_size x =? 0) eqn:E.
      * destruct (IH b Hb). split; [assumption | now right].
      * destruct Hb as [<- | Hb].
        -- split; [now apply N.eqb_neq | now left].
        -- destruct (IH b Hb). split; [assumption | now right].
    + destruct (IH b Hb). split; [assumption | now right].
  - split; [now rewrite total_size_app, total_size_kept |]. repeat split.
Qed.

Lemma frontend_upload_request (o : oracle) n w s mime :
  exists t,
    trace (snd (fst (run o n (Frontend.onstop s mime w)))) = trace w ++ t /\
    In (EvFetch (Frontend.voicechat_request (Frontend.recording_type w mime)
                   (total_size (chunks (recv w))))) t.
Proof.
  unfold Frontend.onstop. rewrite run_bind, run_emit. cbv beta iota.
  rewrite run_bind, run_gets. cbv beta iota.
  rewrite run_bind, run_disconnect. cbv beta iota.
  set (w1 := if sourceNode _ then _ else _).
  rewrite run_bind, run_gets. cbv beta iota.
  rewrite run_bind, run_flog. cbv beta iota.
  rewrite run_try_finally.
  unfold Frontend.upload_recording. go.
  assert (Hw1 : recv w1 = recv w /\ exists t1, trace w1 = trace w ++ t1).
  { subst w1. destruct (sourceNode (recv (add_event EvAnimationCancelled w)));
      (split; [reflexivity |]); eexists; trace_norm; reflexivity. }
  destruct Hw1 as [Hr (t1 & Ht1)].
  change (chunks (recv (logged ?a ?b ?c ?d w1))) with (chunks (recv w1)).
  assert (Hty : forall x, Frontend.recording_type (logged "mic" "EndRecording fired" x INFO w1) mime
                          = Frontend.recording_type w mime).
  { intros x. unfold Frontend.recording_type. cbn [recv logged add_event with_page].
    now rewrite Hr. }
  rewrite Hty, Hr.
  destruct (o (S (S n)) (CFetch _)) as [e | st body]; go; cbn [fst snd];
    [| destruct (if truthy _ then _ else _); go ];
    rewrite frontend_release; cbn [fst snd]; trace_norm; rewrite Ht1;
    repeat rewrite <- app_assoc;
    (eexists; split; [reflexivity |]; apply in_or_app; right; in_list).
Qed.

(** X16.  What the first script's stop handler uploads.  Whatever else
    happens, the run makes a voicechat request with one file, named
    "mic.webm", whose size is the total of the chunks held and whose
    type is never empty: it is the type of the first chunk, or else the
    recorder's, or else the one chosen at the start, or else
    "audio/webm".  So when the chunks are those kept from the data
    delivered since the recording began, the size uploaded is the size
    of all that was delivered. *)
Theorem upload_carries_the_whole_recording :
  forall (o : oracle) (w : World) (s : stream) (mime : jstring) (ds : list (option Blob)),
    Frontend.recording_type w mime <> [] /\
    (exists t,
       trace (exec o (Frontend.onstop s mime) w) = trace w ++ t /\
       In (EvFetch (Request "POST" "/api/voicechat"
                      (FormBody [("file", FFile (lit "mic.webm")
                                            (Frontend.recording_type w mime)
                                            (total_size (chunks (recv w))))]))) t) /\
    (chunks (recv w) = [] ->
     exists t,
       trace (exec o (Frontend.onstop s mime) (deliver o ds w)) = trace w ++ t /\
       In (EvFetch (Request "POST" "/api/voicechat"
                      (FormBody [("file", FFile (lit "mic.webm")
                                            (Frontend.recording_type (deliver o ds w) mime)
                                            (fold_right (fun d acc => data_size d + acc) 0 ds))])))
          t).
Proof.
  intros o w s mime ds. split; [apply frontend_type_nonempty |]. split.
  - apply frontend_upload_request.
  - intros Hc. destruct (frontend_upload_request o 0 (deliver o ds w) s mime) as (t & Ht & Hin).
    exists t. unfold exec. rewrite Ht. split.
    + now rewrite deliver_chunks.
    + rewrite deliver_chunks in Hin at 2. cbn [recv with_recv chunks] in Hin.
      rewrite Hc in Hin. cbn [app] in Hin. rewrite total_size_kept in Hin. exact Hin.
Qed.

(** The theorem on a recording that has just begun and receives
    4096 bytes in two blobs. *)
Lemma upload_witness :
  chunks (recv initial_world) = [] /\
  exists t,
    trace (exec all_well (Frontend.onstop 7%nat (lit "audio/webm"))
             (deliver all_well some_data initial_world)) = trace initial_world ++ t /\
    In (EvFetch (Request "POST" "/api/voicechat"
                   (FormBody [("file", FFile (lit "mic.webm") (lit "audio/webm") 4096)]))) t.
Proof.
  split; [reflexivity |].
  destruct (upload_carries_the_whole_recording all_well initial_world 7%nat
              (lit "audio/webm") some_data) as (_ & _ & H).
  exact (H eq_refl).
Defined.
(* ===================================================================== *)
(** * The recorder: failures of the upload *)
(* ===================================================================== *)

Lemma frontend_upload_fails (o : oracle) w s mime e :
  answers o "/api/voicechat" (eq (NetworkError e)) ->
  voicechat_failed e w (exec o (Frontend.onstop s mime) w).
Proof.
  intros Ha. unfold exec, Frontend.onstop. rewrite run_bind, run_emit. cbv beta iota.
  rewrite run_bind, run_gets. cbv beta iota.
  rewrite run_bind, run_disconnect. cbv beta iota.
  set (w1 := if sourceNode _ then _ else _).
  assert (Hw1 : page w1 = page w).
  { subst w1. destruct (sourceNode _); reflexivity. }
  rewrite run_bind, run_gets. cbv beta iota.
  rewrite run_bind, run_flog. cbv beta iota.
  rewrite run_try_finally.
  unfold Frontend.upload_recording. go.
  match goal with |- context [o ?k (CFetch ?rq)] =>
    rewrite <- (Ha k rq eq_refl)
  end.
  go. rewrite frontend_release. cbn [fst snd].
  unfold voicechat_failed. cbn. rewrite Hw1.
  split; [reflexivity |]. split; [apply in_or_app; right; in_list |].
  split; [| reflexivity]. repeat rewrite <- app_assoc. cbn [app].
  apply in_or_app; right. in_list.
Qed.

Lemma part000_upload_fails (o : oracle) w s mime e m :
  answers o "/api/transcribe" (eq (NetworkError e)) ->
  mediaRecorder (recv w) = Some m ->
  transcription_failed e w (exec o (Part000.onstop s mime) w).
Proof.
  intros Ha Hm. unfold exec, Part000.onstop. rewrite run_bind, run_emit. cbv beta iota.
  rewrite run_bind, run_gets. cbv beta iota.
  rewrite run_bind, run_disconnect. cbv beta iota.
  set (w1 := if sourceNode _ then _ else _).
  assert (Hw1 : page w1 = page w /\ recv w1 = recv w /\
                exists t1, trace w1 = trace w ++ t1 /\
                  forall a x y, ~ In (EvFetch (log_request a x y ERROR)) t1).
  { subst w1. destruct (sourceNode _); (split; [reflexivity |]; split; [reflexivity |]);
      eexists; (split; [trace_norm; reflexivity |]); intros a x y Hin; cbn [In] in Hin;
      repeat (destruct Hin as [Hin | Hin]; [discriminate Hin |]); contradiction. }
  destruct Hw1 as (Hp & Hr & t1 & Ht1 & Hn1).
  rewrite run_try_finally.
  unfold Part000.upload_recording, Part000.recording_type. go. rewrite Hr, Hm. go.
  match goal with |- context [o ?k (CFetch ?rq)] =>
    rewrite <- (Ha k rq eq_refl)
  end.
  go. rewrite part000_release. cbn [fst snd].
  unfold transcription_failed. cbn. rewrite Hp, Ht1.
  split; [reflexivity |]. split; [| split; [| reflexivity]].
  - repeat rewrite <- app_assoc. eexists. split; [reflexivity |].
    intros a x y Hin. apply in_app_or in Hin as [Hin | Hin]; [now apply (Hn1 a x y) |].
    cbn [In] in Hin.
    repeat (destruct Hin as [Hin | Hin]; [discriminate Hin |]); contradiction.
  - intros l Hl. apply in_app_or in Hl as [Hl | [<- | []]]; [now left | now right].
Qed.

(** X17.  When the upload of a recording is rejected.  The first script
    shows "Voicechat error" and sends the error to the log at level
    ERROR.  The second script shows the error's message in the status
    line and logs nothing about it: no request at level ERROR goes out
    and the debug box gets no line about the failure.  Neither touches
    the edit field. *)
Theorem rejected_upload_is_shown :
  forall (o : oracle) (w : World) (s : stream) (mime : jstring) (e : exn),
    (answers o "/api/voicechat" (eq (NetworkError e)) ->
     voicechat_failed e w (exec o (Frontend.onstop s mime) w)) /\
    (answers o "/api/transcribe" (eq (NetworkError e)) ->
     forall m, mediaRecorder (recv w) = Some m ->
       transcription_failed e w (exec o (Part000.onstop s mime) w)).
Proof.
  intros o w s mime e. split.
  - now apply frontend_upload_fails.
  - intros Ha m Hm. now apply part000_upload_fails with (m := m).
Qed.

Lemma upload_rejected_answers path :
  path = "/api/voicechat" \/ path = "/api/transcribe" ->
  answers upload_rejected path (eq (NetworkError unreachable)).
Proof. intros [-> | ->] n rq H; cbn; rewrite H; reflexivity. Qed.

(** The theorem on a recording under way. *)
Lemma rejected_upload_witness :
  voicechat_failed unreachable recording
    (exec upload_rejected (Frontend.onstop 7%nat (lit "audio/webm")) recording) /\
  transcription_failed unreachable recording
    (exec upload_rejected (Part000.onstop 7%nat (lit "audio/webm")) recording).
Proof.
  destruct (rejected_upload_is_shown upload_rejected recording 7%nat (lit "audio/webm")
              unreachable) as [H1 H2].
  split.
  - apply H1. apply upload_rejected_answers. now left.
  - apply H2 with (m := MkRecorder (lit "audio/webm")).
    + apply upload_rejected_answers. now right.
    + reflexivity.
Defined.
(* ===================================================================== *)
(** * Stopping, again *)
(* ===================================================================== *)

Lemma fetches_keep_inv t : forall w w',
  conn_inv w -> pc (vars w') = pc (vars w) -> trace w' = trace w ++ t -> only_fetches t ->
  conn_inv w' /\ open_conns (trace w') = open_conns (trace w).
Proof.
  induction t as [| ev t IH] using rev_ind; intros w w' Hw Hp Ht Hf.
  - rewrite app_nil_r in Ht. split; [| now rewrite Ht].
    now apply conn_inv_same with (w := w).
  - destruct (Hf ev) as [rq ->]; [apply in_or_app; right; now left |].
    set (wm := MkWorld (HEYGEN_FIXED w) (vars w) (recv w) (page w) (trace w ++ t) (conns w)).
    destruct (IH w wm Hw eq_refl eq_refl) as [Hm Ho].
    { intros x Hx. apply Hf. apply in_or_app. now left. }
    assert (He : conn_inv (add_event (EvFetch rq) wm)).
    { apply conn_inv_event; [discriminate | discriminate | exact Hm]. }
    split.
    + apply conn_inv_same with (w := add_event (EvFetch rq) wm); [| exact Hp | exact He].
      rewrite Ht. cbn. now rewrite app_assoc.
    + rewrite Ht, app_assoc, open_conns_app. cbn [conn_step]. exact Ho.
Qed.

Ltac untouched_step := intros; untouched_done.

Lemma untouched_notify_stop : always untouched notify_stop.
Proof.
  unfold notify_stop.
  repeat always1 untouched_refl untouched_trans untouched_step.
Qed.

Lemma nr_notify_stop : never_rejects notify_stop.
Proof. unfold notify_stop. nr. Qed.

Lemma stop_closes (o : oracle) w (tail : Async unit) (f : World -> World) :
  (forall n w, run o n (tail w) = (inr tt, f w, n)) ->
  (forall w, trace (f w) = trace w /\ vars (f w) = vars w) ->
  conn_inv w ->
  let w' := exec o (flog "viewer" "Stop button pressed" [] INFO ;;
                    notify_stop ;; drop_connection ;; tail) w in
  open_conns (trace w') = [] /\ pc (vars w') = None /\ conn_inv w'.
Proof.
  intros Htail Hf Hw. cbv zeta. unfold exec. rewrite run_bind, run_flog. cbv beta iota.
  rewrite run_bind.
  pose proof (untouched_notify_stop o 1%nat
                (logged "viewer" "Stop button pressed" [] INFO w)) as Hu.
  destruct (nr_notify_stop o 1%nat (logged "viewer" "Stop button pressed" [] INFO w)) as [[] Hr].
  destruct (run o 1%nat (notify_stop _)) as [[res wA] nA]. cbn [fst snd] in *. subst res.
  assert (HA : untouched w wA).
  { eapply untouched_trans; [apply untouched_logged | exact Hu]. }
  destruct HA as (Hv & _ & _ & (t & Ht & Hfe) & _).
  destruct (@fetches_keep_inv t w wA Hw (f_equal pc Hv) Ht Hfe) as [HiA _].
  destruct (conn_inv_closed HiA) as [Hd Ho].
  unfold drop_connection. go.
  destruct (pc (vars wA)) as [c |] eqn:Epc; go; rewrite Htail; cbn [fst snd];
    destruct (Hf (with_vars (set_pc None) (add_event (EvPcClosed c) wA))) as [Ht1 Hv1] ||
    destruct (Hf wA) as [Ht1 Hv1];
    rewrite Ht1, Hv1; cbn [trace vars pc with_vars set_pc add_event] in *.
  - split; [exact Ho |]. split; [reflexivity |]. apply conn_inv_no_open; rewrite Ht1; assumption.
  - split; [exact Ho |]. split; [exact Epc |]. apply conn_inv_no_open; rewrite Ht1; assumption.
Qed.

(** X18.  After [stopSession] no connection is open.  From a state in
    which the open connection, if there is one, is the one held in [pc]
    (the invariant of the session controller), the run ends with no
    connection open and none held, whatever the backend said, and the
    invariant still holds. *)
Theorem stopSession_leaves_no_connection_open :
  forall (o : oracle) (w : World),
    conn_inv w ->
    (open_conns (trace (exec o Frontend.stopSession w)) = [] /\
     pc (vars (exec o Frontend.stopSession w)) = None /\
     conn_inv (exec o Frontend.stopSession w)) /\
    (open_conns (trace (exec o Part000.stopSession w)) = [] /\
     pc (vars (exec o Part000.stopSession w)) = None /\
     conn_inv (exec o Part000.stopSession w)).
Proof.
  intros o w Hw. split.
  - apply (@stop_closes o w (setStatus status_stopped)
             (with_page (set_viewerStatus status_stopped))); auto.
  - apply (@stop_closes o w (Part000.show_placeholder "" ;; setStatus status_stopped)
             (fun x => with_page (set_viewerStatus status_stopped)
                         (with_page (set_avatarPlaceholder (lit "")) x))); auto.
Qed.

Lemma reachable_inv (handlers : Async unit -> Prop) w0 w ts :
  (forall h, handlers h -> keeps h) ->
  conn_inv w0 -> reachable handlers w0 (w, ts) -> conn_inv w.
Proof. intros Hk H0 Hr. exact (proj1 (reachable_ok Hk H0 Hr)). Qed.

Lemma started_inv : conn_inv started.
Proof.
  apply reachable_inv with (handlers := frontend_handler) (w0 := initial_world) (ts := []).
  - exact frontend_handlers_keep.
  - apply freshly_loaded_inv; repeat split.
  - unfold started. apply sequential_reachable; [apply fh_start | apply reach_start].
Qed.

(** The theorem on a session that has been started: connection 0 was
    open and is closed. *)
Lemma stop_witness :
  open_conns (trace started) = [0%nat] /\
  open_conns (trace (exec all_well Frontend.stopSession started)) = [] /\
  open_conns (trace (exec all_well Part000.stopSession started)) = [].
Proof.
  split; [vm_compute; reflexivity |].
  destruct (stopSession_leaves_no_connection_open all_well started_inv)
    as [(H1 & _) (H2 & _)].
  split; [exact H1 | exact H2].
Defined.
(* ===================================================================== *)
(** * The start-session request *)
(* ===================================================================== *)

Lemma fixed_or_agree hf k d :
  Frontend.fixed_or hf k d = Part000.fixed_or hf k d /\
  Frontend.fixed_or hf k d =
    match hf with
    | VObj fs => if truthy (lookup_field k fs) then lookup_field k fs else VStr (lit d)
    | _ => VStr (lit d)
    end.
Proof.
  unfold Frontend.fixed_or, Part000.fixed_or, js_and, js_or, opt_prop.
  destruct hf as [| | [] | n | m e | [| c s] | fs | l]; cbn [get_prop];
    try (split; reflexivity).
  - destruct (truthy (VNum n)) eqn:E; cbv iota; rewrite ?E; split; reflexivity.
  - destruct (truthy (VDec m e)) eqn:E; cbv iota; rewrite ?E; split; reflexivity.
Qed.

(** X19.  Both scripts ask for the same session.  The body of the
    start-session request is the same in the two, although they spell
    the choice differently; each of its three fields is the value that
    the page has put in [window.HEYGEN_FIXED], when that is an object
    with a truthy value for the field, and else the script's own
    default, field by field. *)
Theorem both_scripts_ask_for_the_same_session :
  forall (w : World),
    Frontend.start_body w = Part000.start_body w /\
    Frontend.start_body w =
      [("avatar_id", fixed_field w "avatar_id" "June_HR_public");
       ("voice_id", fixed_field w "voice_id" "68dedac41a9f46a6a4271a95c733823c");
       ("pose_name", fixed_field w "pose_name" "June HR")].
Proof.
  intros w. unfold Frontend.start_body, Part000.start_body, fixed_field.
  destruct (fixed_or_agree (HEYGEN_FIXED w) "avatar_id" "June_HR_public") as [A1 A2].
  destruct (fixed_or_agree (HEYGEN_FIXED w) "voice_id" "68dedac41a9f46a6a4271a95c733823c")
    as [B1 B2].
  destruct (fixed_or_agree (HEYGEN_FIXED w) "pose_name" "June HR") as [C1 C2].
  split.
  - now rewrite A1, B1, C1.
  - now rewrite A2, B2, C2.
Qed.
(* ===================================================================== *)
(** * One connection at a time, with every handler *)
(* ===================================================================== *)

Lemma keeps_ping base : keeps (ping base).
Proof. unfold ping. keep. Qed.

Lemma keeps_not_awaited m : keeps m -> keeps (not_awaited m).
Proof. intros H. apply keeps_try_catch; [exact H | intros e; apply keeps_ret]. Qed.

Lemma keeps_instr msg : keeps (instrBtn_click msg).
Proof.
  unfold instrBtn_click.
  apply keeps_bind; [keep | intros _].
  apply keeps_bind; [keep | intros _].
  apply keeps_not_awaited, keeps_sendBtn.
Qed.

Lemma keeps_frontend_grid target : keeps (FrontendPage.perfumeGrid_click target).
Proof.
  unfold FrontendPage.perfumeGrid_click. destruct target as [fig |]; [| keep].
  destruct (negb _); [keep |]. apply keeps_not_awaited, keeps_explain.
Qed.

Lemma keeps_part000_grid target : keeps (Part000Page.perfumeGrid_click target).
Proof.
  unfold Part000Page.perfumeGrid_click. destruct target as [fig |]; [| keep].
  destruct (negb _); [keep |]. apply keeps_not_awaited, keeps_explain.
Qed.

Lemma keeps_data d : keeps (ondataavailable d).
Proof. unfold ondataavailable. keep. Qed.

Lemma frontend_all_keep h : frontend_handler_all h -> keeps h.
Proof.
  intros [h' Hh | base | | target | d];
    auto using frontend_handlers_keep, keeps_ping, keeps_instr, keeps_frontend_grid, keeps_data.
Qed.

Lemma part000_all_keep h : part000_handler_all h -> keeps h.
Proof.
  intros [h' Hh | base | | target | d];
    auto using part000_handlers_keep, keeps_ping, keeps_instr, keeps_part000_grid, keeps_data.
Qed.

(** X20.  The invariant of the connection holds with every handler in
    play.  From the moment a script is loaded, whichever handlers are
    started (those of the session, the bridge and the recorder's stop,
    and also the ping, the instruction button, the tile grid and the
    recorder's data events) and however their waits interleave, at most
    one connection is open at any point of what has happened, one is
    only made when none is open, and an open one is the one in [pc]. *)
Theorem one_connection_with_every_handler_in_play :
  forall (w0 w : World) (ts : list thread),
    freshly_loaded w0 ->
    reachable frontend_handler_all w0 (w, ts) \/ reachable part000_handler_all w0 (w, ts) ->
    at_most_one_open (trace w) /\
    closes_before_creating (trace w) /\
    (forall c, In c (open_conns (trace w)) -> pc (vars w) = Some c).
Proof.
  intros w0 w ts H0 Hr.
  assert (Hinv : conn_inv w).
  { apply freshly_loaded_inv in H0. destruct Hr as [Hr | Hr].
    - exact (reachable_inv frontend_all_keep H0 Hr).
    - exact (reachable_inv part000_all_keep H0 Hr). }
  destruct Hinv as [Hd Hp]. split; [now apply at_most_one_from_discipline |]. now split.
Qed.

Lemma busy_page_reachable : reachable frontend_handler_all initial_world (busy_page, []).
Proof.
  unfold busy_page.
  apply sequential_reachable; [apply fa_claimed, fh_start |].
  apply sequential_reachable; [apply fa_grid |].
  apply sequential_reachable; [apply fa_instr |].
  apply sequential_reachable; [apply fa_claimed, fh_start |].
  apply reach_start.
Qed.

(** The theorem on a page on which a session is started, the
    instruction button and a tile are pressed, and the session is
    started again. *)
Lemma busy_page_witness :
  at_most_one_open (trace busy_page) /\
  closes_before_creating (trace busy_page) /\
  (forall c, In c (open_conns (trace busy_page)) -> pc (vars busy_page) = Some c).
Proof.
  apply (@one_connection_with_every_handler_in_play initial_world busy_page []).
  - repeat split.
  - left. exact busy_page_reachable.
Defined.
(* ===================================================================== *)
(** * The microphone button *)
(* ===================================================================== *)

Lemma open_microphone_refused o n w md e :
  getUserMedia md = inl e ->
  run o n (open_microphone md w) = (inl e, w, n).
Proof. intros H. unfold open_microphone. rewrite H. go. reflexivity. Qed.

Lemma open_microphone_works o n w md s r :
  getUserMedia md = inr s -> newSourceNode md s = None -> connectSource md = None ->
  newMediaRecorder md s (chooseMime (supports md)) = inr r ->
  run o n (open_microphone md w)
    = (inr tt, with_recv (fun _ => MkRecVars (Some r) [] true) w, n).
Proof.
  intros H1 H2 H3 H4. unfold open_microphone. rewrite H1. go. rewrite H2. go.
  rewrite H3. go. rewrite H4. go. reflexivity.
Qed.

(** X21.  When the microphone is refused.  If [getUserMedia] is
    rejected, [startRecording] of either script shows "Mic permission
    denied" with the error's message and sends the error to the log at
    level ERROR, and the recorder's variables are what they were.  The
    first script has by then emptied the edit field, and it puts the
    button back to its idle label; the second script touches neither. *)
Theorem refused_microphone_is_reported :
  forall (o : oracle) (w : World) (md : MediaDevices) (e : exn),
    getUserMedia md = inl e ->
    let wf := exec o (FrontendMic.startRecording md) w in
    let wp := exec o (Part000Mic.startRecording md) w in
    (mic_refused e w wf /\ mic_refused e w wp) /\
    (editBox (page wf) = [] /\
     micText (page wf) = Frontend.mic_idle_label /\ micRecording (page wf) = false) /\
    (editBox (page wp) = editBox (page w) /\
     micText (page wp) = micText (page w) /\ micRecording (page wp) = micRecording (page w)).
Proof.
  intros o w md e H. cbv zeta. unfold exec, FrontendMic.startRecording,
    Part000Mic.startRecording, mic_refused.
  go. rewrite !(open_microphone_refused _ _ _ _ H). go. cbn [fst snd].
  repeat split; try reflexivity; trace_norm; apply in_or_app; right; in_list.
Qed.

(** The theorem on a page whose user does not allow the microphone. *)
Lemma refused_microphone_witness :
  viewerStatus (page (exec all_well (FrontendMic.startRecording no_permission) in_session))
    = lit "Mic permission denied / Permission denied" /\
  editBox (page (exec all_well (FrontendMic.startRecording no_permission) in_session)) = [].
Proof.
  destruct (@refused_microphone_is_reported all_well in_session no_permission _ eq_refl)
    as [[(H1 & _) _] [(H2 & _) _]].
  split; [exact H1 | exact H2].
Defined.

Lemma click_with_recorder o w md r :
  mediaRecorder (recv w) = Some r ->
  exec o (FrontendMic.micBtn_click md) w = w /\
  exec o (Part000Mic.micBtn_click md) w = w.
Proof.
  intros H. unfold exec, FrontendMic.micBtn_click, Part000Mic.micBtn_click, stopRecording.
  go. rewrite H. go. rewrite H. destruct (recorderStop md); go; split; reflexivity.
Qed.

Lemma pressed_with_recorder o w r mds :
  mediaRecorder (recv w) = Some r ->
  pressed FrontendMic.micBtn_click o mds w = w /\
  pressed Part000Mic.micBtn_click o mds w = w.
Proof.
  intros H. induction mds as [| md mds IH]; [split; reflexivity |].
  cbn [pressed]. destruct (click_with_recorder o w md H) as [-> ->]. exact IH.
Qed.

(** X22.  A recorder that is made and does not start.  When
    [mediaRecorder.start] throws, [startRecording] reports it as a
    refused microphone, and the first script shows the idle button; but
    the variable [mediaRecorder] holds the recorder that was made.  From
    then on a press of the microphone button only asks that recorder to
    stop: however often the button is pressed, and whatever the media
    devices and the backend answer, the state of the script stays as it
    is and no recording is started.  In general a press while
    [mediaRecorder] is set changes nothing. *)
Theorem failed_start_leaves_the_button_dead :
  forall (o : oracle) (w : World) (md : MediaDevices) (s : stream) (r : MediaRecorder)
         (e : exn),
    recorder_refuses md s r e ->
    let wf := exec o (FrontendMic.startRecording md) w in
    let wp := exec o (Part000Mic.startRecording md) w in
    (viewerStatus (page wf) = mic_denied e /\
     micText (page wf) = Frontend.mic_idle_label /\ micRecording (page wf) = false /\
     recv wf = MkRecVars (Some r) [] true) /\
    (viewerStatus (page wp) = mic_denied e /\
     recv wp = MkRecVars (Some r) [] true) /\
    (forall (o' : oracle) (mds : list MediaDevices),
       pressed FrontendMic.micBtn_click o' mds wf = wf /\
       pressed Part000Mic.micBtn_click o' mds wp = wp) /\
    (forall (o' : oracle) (md' : MediaDevices) (w0 : World) (r0 : MediaRecorder),
       mediaRecorder (recv w0) = Some r0 ->
       exec o' (FrontendMic.micBtn_click md') w0 = w0 /\
       exec o' (Part000Mic.micBtn_click md') w0 = w0).
Proof.
  intros o w md s r e (H1 & H2 & H3 & H4 & H5). cbv zeta.
  assert (Hf : viewerStatus (page (exec o (FrontendMic.startRecording md) w)) = mic_denied e /\
               micText (page (exec o (FrontendMic.startRecording md) w))
                 = Frontend.mic_idle_label /\
               micRecording (page (exec o (FrontendMic.startRecording md) w)) = false /\
               recv (exec o (FrontendMic.startRecording md) w) = MkRecVars (Some r) [] true).
  { unfold exec, FrontendMic.startRecording. go.
    rewrite (open_microphone_works _ _ _ _ H1 H2 H3 H4). go. rewrite H5. go.
    repeat split; reflexivity. }
  assert (Hp : viewerStatus (page (exec o (Part000Mic.startRecording md) w)) = mic_denied e /\
               recv (exec o (Part000Mic.startRecording md) w) = MkRecVars (Some r) [] true).
  { unfold exec, Part000Mic.startRecording. go.
    rewrite (open_microphone_works _ _ _ _ H1 H2 H3 H4). go. rewrite H5. go.
    repeat split; reflexivity. }
  split; [exact Hf |]. split; [exact Hp |]. split.
  - intros o' mds. split.
    + apply (proj1 (@pressed_with_recorder o' _ r mds
                      (f_equal mediaRecorder (proj2 (proj2 (proj2 Hf)))))).
    + apply (proj2 (@pressed_with_recorder o' _ r mds
                      (f_equal mediaRecorder (proj2 Hp)))).
  - intros o' md' w0 r0 H0. now apply click_with_recorder with (r := r0).
Qed.

Lemma recorder_does_not_start_refused :
  recorder_refuses recorder_does_not_start 7%nat
    (MkRecorder (lit "audio/webm;codecs=opus"))
    (Exn (lit "NotSupportedError") (lit "cannot record")).
Proof. repeat split. Qed.

(** The theorem on a recorder that does not start: three more presses,
    with devices that would work, start nothing. *)
Lemma dead_button_witness :
  let w := exec all_well (FrontendMic.startRecording recorder_does_not_start) in_session in
  micText (page w) = Frontend.mic_idle_label /\
  mediaRecorder (recv w) = Some (MkRecorder (lit "audio/webm;codecs=opus")) /\
  pressed FrontendMic.micBtn_click all_well
    [working_devices; working_devices; working_devices] w = w.
Proof.
  cbv zeta.
  destruct (@failed_start_leaves_the_button_dead all_well in_session _ _ _ _
              recorder_does_not_start_refused) as ((_ & H1 & _ & H2) & _ & H3 & _).
  split; [exact H1 |]. split; [exact (f_equal mediaRecorder H2) |].
  exact (proj1 (H3 all_well [working_devices; working_devices; working_devices])).
Defined.

Lemma frontend_onstop_recording (o : oracle) w s mime :
  sourceNode (recv w) = true ->
  let w' := exec o (Frontend.onstop s mime) w in
  recv w' = MkRecVars None (chunks (recv w)) true /\
  micRecording (page w') = false /\
  exists t, trace w' = trace w ++ t /\
    In EvSourceDisconnected t /\ In (EvTracksStopped s) t /\
    In (EvFetch (Frontend.voicechat_request (Frontend.recording_type w mime)
                   (total_size (chunks (recv w))))) t.
Proof.
  intros H. cbv zeta. unfold exec, Frontend.onstop.
  rewrite run_bind, run_emit. cbv beta iota.
  rewrite run_bind, run_gets. cbv beta iota.
  cbn [recv add_event]. rewrite H. go.
  unfold Frontend.upload_recording. go.
  change (Frontend.recording_type (logged ?a ?b ?c ?d (add_event ?e (add_event ?f w))) mime)
    with (Frontend.recording_type w mime).
  change (chunks (recv (logged ?a ?b ?c ?d (add_event ?e (add_event ?f w)))))
    with (chunks (recv w)).
  destruct (o _ (CFetch _)) as [e | st body]; go; cbn [fst snd];
    [| destruct (if truthy _ then _ else _); go ];
    rewrite frontend_release; cbn [fst snd];
    (split; [transitivity (set_mediaRecorder None (recv w)); [reflexivity | unfold set_mediaRecorder; now rewrite H] |]); (split; [reflexivity |]);
    trace_norm; repeat rewrite <- app_assoc; cbn [app];
    (eexists; split; [reflexivity |]);
    (split; [in_list |]); (split; [in_list |]); in_list.
Qed.

Lemma part000_onstop_recording (o : oracle) w s mime r :
  sourceNode (recv w) = true -> mediaRecorder (recv w) = Some r ->
  let w' := exec o (Part000.onstop s mime) w in
  let type := Blob_type (nonempty_or (nonempty_or (mimeType r) mime) (lit "audio/webm")) in
  recv w' = MkRecVars None (chunks (recv w)) true /\
  micRecording (page w') = false /\
  exists t, trace w' = trace w ++ t /\
    In EvSourceDisconnected t /\ In (EvTracksStopped s) t /\
    In (EvFetch (Part000.transcribe_request type (total_size (chunks (recv w))))) t.
Proof.
  intros H Hm. cbv zeta. unfold exec, Part000.onstop.
  rewrite run_bind, run_emit. cbv beta iota.
  rewrite run_bind, run_gets. cbv beta iota.
  cbn [recv add_event]. rewrite H. go.
  unfold Part000.upload_recording, Part000.recording_type. go.
  cbn [recv add_event]. rewrite Hm. go.
  destruct (o _ (CFetch _)) as [e | st body]; go; cbn [fst snd];
    [| destruct (truthy _); go ];
    rewrite part000_release; cbn [fst snd];
    (split; [transitivity (set_mediaRecorder None (recv w)); [reflexivity | unfold set_mediaRecorder; now rewrite H] |]); (split; [reflexivity |]);
    trace_norm; repeat rewrite <- app_assoc; cbn [app];
    (eexists; split; [reflexivity |]);
    (split; [in_list |]); (split; [in_list |]); in_list.
Qed.

Lemma frontend_recording_started (o : oracle) w md s r :
  devices_work md s r ->
  let w1 := exec o (FrontendMic.startRecording md) w in
  recv w1 = MkRecVars (Some r) [] true /\ micRecording (page w1) = true /\
  editBox (page w1) = [].
Proof.
  intros (H1 & H2 & H3 & H4 & H5). cbv zeta. unfold exec, FrontendMic.startRecording. go.
  rewrite (open_microphone_works _ _ _ _ H1 H2 H3 H4). go. rewrite H5. go.
  repeat split; reflexivity.
Qed.

Lemma part000_recording_started (o : oracle) w md s r :
  devices_work md s r ->
  let w1 := exec o (Part000Mic.startRecording md) w in
  recv w1 = MkRecVars (Some r) [] true /\ micRecording (page w1) = true /\
  editBox (page w1) = editBox (page w).
Proof.
  intros (H1 & H2 & H3 & H4 & H5). cbv zeta. unfold exec, Part000Mic.startRecording. go.
  rewrite (open_microphone_works _ _ _ _ H1 H2 H3 H4). go. rewrite H5. go.
  repeat split; reflexivity.
Qed.

Lemma delivered_to_recording o ds w r :
  recv w = MkRecVars (Some r) [] true ->
  recv (deliver o ds w) = MkRecVars (Some r) (kept ds) true /\
  trace (deliver o ds w) = trace w /\ page (deliver o ds w) = page w.
Proof. intros H. rewrite deliver_chunks. cbn. rewrite H. repeat split. Qed.

(** X23.  A recording from the press of the button to the upload.  When
    the media devices work, [startRecording] leaves the new recorder in
    [mediaRecorder], the source node connected, no chunks, and the button
    in its recording state; the first script has emptied the edit field,
    the second has left it.  When the data events have been delivered and
    the recorder's stop handler has run, the stream that [getUserMedia]
    gave has been stopped and the source node disconnected, the upload
    has the size of the data delivered in this recording, whatever chunks
    an earlier one had left, [mediaRecorder] is null again and the button
    idle, and the chunks are still held.  The second script names and
    types its upload after the type of the blob it makes, which is the
    recorder's type (or the chosen one, or "audio/webm") as a blob keeps
    it: in lower case, and empty if a character of it is not printable
    ASCII. *)
Theorem recording_uploads_what_was_recorded :
  forall (o : oracle) (w : World) (md : MediaDevices) (s : stream) (r : MediaRecorder)
         (ds : list (option Blob)),
    devices_work md s r ->
    let mime := chooseMime (supports md) in
    let f1 := exec o (FrontendMic.startRecording md) w in
    let f2 := exec o (Frontend.onstop s mime) (deliver o ds f1) in
    let p1 := exec o (Part000Mic.startRecording md) w in
    let p2 := exec o (Part000.onstop s mime) (deliver o ds p1) in
    (recv f1 = MkRecVars (Some r) [] true /\ micRecording (page f1) = true /\
     editBox (page f1) = []) /\
    (recv p1 = MkRecVars (Some r) [] true /\ micRecording (page p1) = true /\
     editBox (page p1) = editBox (page w)) /\
    (recv f2 = MkRecVars None (kept ds) true /\ micRecording (page f2) = false /\
     exists t, trace f2 = trace f1 ++ t /\
       In EvSourceDisconnected t /\ In (EvTracksStopped s) t /\
       In (EvFetch (Frontend.voicechat_request
                      (Frontend.recording_type (deliver o ds f1) mime) (delivered ds))) t) /\
    (recv p2 = MkRecVars None (kept ds) true /\ micRecording (page p2) = false /\
     exists t, trace p2 = trace p1 ++ t /\
       In EvSourceDisconnected t /\ In (EvTracksStopped s) t /\
       In (EvFetch (Part000.transcribe_request
                      (Blob_type
                         (nonempty_or (nonempty_or (mimeType r) mime) (lit "audio/webm")))
                      (delivered ds))) t).
Proof.
  intros o w md s r ds Hd. cbv zeta.
  pose proof (frontend_recording_started o w Hd) as Hf. cbv zeta in Hf.
  pose proof (part000_recording_started o w Hd) as Hp. cbv zeta in Hp.
  split; [exact Hf |]. split; [exact Hp |].
  destruct Hf as (Hf & _ & _). destruct Hp as (Hp & _ & _).
  destruct (delivered_to_recording o ds _ Hf) as (Hfr & Hft & _).
  destruct (delivered_to_recording o ds _ Hp) as (Hpr & Hpt & _).
  unfold delivered. rewrite <- total_size_kept. split.
  - pose proof (@frontend_onstop_recording o _ s (chooseMime (supports md))
                  (f_equal sourceNode Hfr)) as H. cbv zeta in H.
    rewrite Hfr, Hft in H. exact H.
  - pose proof (@part000_onstop_recording o _ s (chooseMime (supports md)) r
                  (f_equal sourceNode Hpr) (f_equal mediaRecorder Hpr)) as H.
    cbv zeta in H. rewrite Hpr, Hpt in H. exact H.
Qed.

Lemma working_devices_work :
  devices_work working_devices 7%nat (MkRecorder (lit "audio/webm;codecs=opus")).
Proof. repeat split. Qed.

Lemma capital_devices_work :
  devices_work capital_devices 7%nat (MkRecorder (lit "Audio/MP4")).
Proof. repeat split. Qed.

(** The theorem on a page that still holds the 4096 bytes of an earlier
    recording: the 1000 bytes of the new one are what is uploaded.  With
    a recorder that reports "Audio/MP4" the second script uploads
    rec.m4a, of type audio/mp4. *)
Lemma recording_witness :
  (let f1 := exec all_well (FrontendMic.startRecording working_devices) recording in
   let f2 := exec all_well (Frontend.onstop 7%nat (lit "audio/webm;codecs=opus"))
               (deliver all_well short_take f1) in
   total_size (chunks (recv recording)) = 4096 /\
   recv f2 = MkRecVars None (kept short_take) true /\
   exists t, trace f2 = trace f1 ++ t /\
     In (EvFetch (Frontend.voicechat_request (lit "audio/webm;codecs=opus") 1000)) t) /\
  (let p1 := exec all_well (Part000Mic.startRecording capital_devices) recording in
   let p2 := exec all_well (Part000.onstop 7%nat (lit "audio/webm;codecs=opus"))
               (deliver all_well short_take p1) in
   exists t, trace p2 = trace p1 ++ t /\
     In (EvFetch (Request "POST" "/api/transcribe"
                    (FormBody [("file", FFile (lit "rec.m4a") (lit "audio/mp4") 1000)]))) t).
Proof.
  cbv zeta. split.
  - split; [reflexivity |].
    destruct (@recording_uploads_what_was_recorded all_well recording _ _ _ short_take
                working_devices_work) as (_ & _ & (H1 & _ & t & Ht & _ & _ & Hin) & _).
    split; [exact H1 |]. exists t. split; [exact Ht | exact Hin].
  - destruct (@recording_uploads_what_was_recorded all_well recording _ _ _ short_take
                capital_devices_work) as (_ & _ & _ & (_ & _ & t & Ht & _ & _ & Hin)).
    exists t. split; [exact Ht | exact Hin].
Defined.

Lemma nr_frontend_startRecording md : never_rejects (FrontendMic.startRecording md).
Proof. unfold FrontendMic.startRecording. nr. Qed.

Lemma nr_part000_startRecording md : never_rejects (Part000Mic.startRecording md).
Proof. unfold Part000Mic.startRecording. nr. Qed.

Lemma nr_frontend_micBtn md : never_rejects (FrontendMic.micBtn_click md).
Proof. unfold FrontendMic.micBtn_click, stopRecording. nr. Qed.

Lemma nr_part000_micBtn md : never_rejects (Part000Mic.micBtn_click md).
Proof. unfold Part000Mic.micBtn_click, stopRecording. nr. Qed.

Lemma bridge_frontend_micBtn md : always bridge_frame (FrontendMic.micBtn_click md).
Proof.
  unfold FrontendMic.micBtn_click, FrontendMic.startRecording, stopRecording,
    open_microphone. bridge.
Qed.

Lemma bridge_part000_micBtn md : always bridge_frame (Part000Mic.micBtn_click md).
Proof.
  unfold Part000Mic.micBtn_click, Part000Mic.startRecording, stopRecording,
    open_microphone. bridge.
Qed.

Lemma edit_refl w : edit_kept w w.
Proof. reflexivity. Qed.

Lemma edit_trans a b c : edit_kept a b -> edit_kept b c -> edit_kept a c.
Proof. unfold edit_kept. congruence. Qed.

Ltac edit_step := intros; reflexivity.

Lemma edit_part000_micBtn md : always edit_kept (Part000Mic.micBtn_click md).
Proof.
  unfold Part000Mic.micBtn_click, Part000Mic.startRecording, stopRecording,
    open_microphone. repeat always1 edit_refl edit_trans edit_step.
Qed.

